(** * Default memory resources of DALI

    A shallow embedding of [dali/core/mm/default_resources.cc]: the
    process-wide table of default memory resources (host, pinned, managed
    and one per CUDA device), their lazy construction, their override, the
    guarded release at teardown and the trimming of pooled memory.

    The C++ code works on one global object ([g_resources]), on
    function-local statics and on reference-counted pointers.  All three
    are explicit here: a [process] value holds the table, the statics and
    a heap of control blocks; every function of the source is a
    computation in the monad [M], which reads the platform (CUDA runtime,
    environment), threads the process state and may throw.

    The mutex of the source serialises the writers; the embedding is
    sequential, so [std::lock_guard] has no counterpart below.  The
    overloads of [SetDefaultResource] that take a raw pointer (through
    [wrap]) are not embedded: a handle with a deleter that does nothing
    has no counterpart in the heap of control blocks below. *)

From stdpp Require Import gmap strings list pretty.
From Stdlib Require Import ZArith Ascii.

Open Scope Z_scope.

(** ** Memory kinds and resource classes *)

(** [mm::memory_kind::host] and its siblings. *)
Module memory_kind.
Inductive t := host | pinned | device | managed.
End memory_kind.

(** Object addresses.  Two handles refer to the identical allocator
    instance when the objects they point to have the same address. *)
Abbreviation addr := nat.

(** The dynamic type of a memory resource object.  The first six are the
    classes this file instantiates; [user_resource] stands for a class
    supplied by a caller through [SetDefaultResource], which may or may
    not implement [pool_resource_base] and [with_upstream]. *)
Inductive resource_type :=
| malloc_memory_resource
| pinned_malloc_memory_resource
| managed_malloc_memory_resource
| cuda_malloc_memory_resource (device_id : Z)
    (* async_pool_resource<memory_kind::device, cuda_vm_resource, std::mutex, void> *)
| async_pool_vm_resource
    (* async_pool_resource<Kind, pool_resource<Kind, coalescing_free_tree, spinlock>> *)
| async_pool_tree_resource (kind : memory_kind.t)
| user_resource (pool_iface upstream_iface : bool).

(** A memory resource object: where it lives, what it is, and the raw
    upstream pointer it was constructed with.  A resource is built from an
    upstream that already exists ([resource_type(upstream.get())]), so a
    chain of upstreams is finite. *)
#[warnings="-register-all"] Inductive memory_resource :=
| MR (mr_addr : addr) (mr_type : resource_type) (mr_upstream : option memory_resource).

Definition mr_addr (r : memory_resource) : addr :=
  match r with MR a _ _ => a end.
Definition mr_type (r : memory_resource) : resource_type :=
  match r with MR _ t _ => t end.
Definition mr_upstream (r : memory_resource) : option memory_resource :=
  match r with MR _ _ u => u end.

(** Modelled from the spec: the class declarations of dali/core/mm (not
    under src/) decide which [dynamic_cast] in [GetPoolInterface] succeeds.
    A pool allocator exposes the release-unused operation; plain
    allocators expose neither a pool nor an upstream. *)
Definition is_pool_resource_base (t : resource_type) : bool :=
  match t with
  | async_pool_vm_resource | async_pool_tree_resource _ => true
  | user_resource p _ => p
  | _ => false
  end.

Definition is_with_upstream (t : resource_type) : bool :=
  match t with
  | async_pool_tree_resource _ => true
  | user_resource _ u => u
  | _ => false
  end.

(** A non-empty [std::shared_ptr]: the object [get] returns, and the
    upstream objects a composite resource keeps alive next to it. *)
Record handle := Handle {
  get : memory_resource;
  kept : list memory_resource
}.

(** [std::shared_ptr<...>]; [None] is the empty pointer. *)
Abbreviation shared_ptr := (option handle).

(** ** The heap of control blocks *)

(** One control block per object, at the index that is the object's
    address: the number of [shared_ptr]s that own the object (the use
    count), whether its destructor has run, and for a pool the number of
    bytes it caches without using them. *)
Record block := Block {
  owners : nat;
  dead : bool;
  unused : N
}.

Abbreviation heap := (list block).

(** An object is valid while it has an owner and was not destroyed. *)
Definition alive (h : heap) (a : addr) : Prop :=
  ∃ b, h !! a = Some b ∧ (0 < owners b)%nat ∧ dead b = false.

Definition add_owner (b : block) : block :=
  {| owners := S (owners b); dead := dead b; unused := unused b |}.

(** One owner less; the last owner runs the destructor. *)
Definition remove_owner (b : block) : block :=
  match owners b with
  | O => b
  | S O => {| owners := O; dead := true; unused := unused b |}
  | S n => {| owners := n; dead := dead b; unused := unused b |}
  end.

Definition drop_ref (a : addr) (h : heap) : heap := alter remove_owner a h.

Definition last_owner (h : heap) (a : addr) : bool :=
  match h !! a with
  | Some b => (owners b =? 1)%nat
  | None => false
  end.

(** Destruction of a [std::shared_ptr]: the use count of the object goes
    down by one; when it reaches zero the object is destroyed first and
    the upstreams the composite kept are released after it. *)
Definition sp_release (p : shared_ptr) (h : heap) : heap :=
  match p with
  | None => h
  | Some x =>
      let a := mr_addr (get x) in
      if last_owner h a
      then foldl (λ h' u, drop_ref (mr_addr u) h') (drop_ref a h) (kept x)
      else drop_ref a h
  end.

(** Copy construction of a [std::shared_ptr]. *)
Definition sp_copy (p : shared_ptr) (h : heap) : heap :=
  match p with
  | None => h
  | Some x => alter add_owner (mr_addr (get x)) h
  end.

(** ** The platform: CUDA runtime, build configuration, environment *)

Inductive cudaError_t :=
| cudaSuccess
| cudaErrorCudartUnloading
| cudaErrorOther (code : Z).

Global Instance cudaError_t_eq_dec : EqDecision cudaError_t.
Proof. solve_decision. Defined.

Inductive exn :=
| CUDAError (code : cudaError_t)
| std_out_of_range (what : string)
| std_bad_array_new_length
| std_bad_alloc
    (* an array element read or written outside the array *)
| undefined_behaviour.

(** What the code asks of its surroundings.  The CUDA calls return a
    status and an out-parameter as in C; [construct] tells whether the
    constructor of a resource class throws; [DALI_USE_CUDA_VM_MAP] is the
    build-time macro. *)
Record platform := Platform {
  cudaGetDeviceCount : cudaError_t * Z;
  cudaGetDevice : cudaError_t * Z;
  cudaGetLastError : cudaError_t;
  DALI_USE_CUDA_VM_MAP : bool;
  cuvm_IsSupported : bool;
  getenv : string → option string;
  DeviceGuard_ctor : Z → option exn;
  CUDAEventPool_instance : option exn;
  construct : resource_type → option exn
}.

(** ** Process state *)

(** [struct DefaultResources]. *)
Record DefaultResources := mkDefaultResources {
  host : shared_ptr;
  pinned_async : shared_ptr;
  managed : shared_ptr;
  device : option (list shared_ptr);
  num_devices : Z
}.

(** Function-local statics whose only state is "constructed or not",
    named after the function that owns them. *)
Inductive static_site :=
| CUDAInit           (* CreateDefaultDeviceResource: static CUDARTLoader *)
| init_cuda_pinned   (* ShareDefaultResourceImpl<pinned>: static CUDARTLoader *)
| init_cuda_managed  (* ShareDefaultResourceImpl<managed>: static CUDARTLoader *)
| init_cuda_device   (* ShareDefaultDeviceResourceImpl: static CUDARTLoader *)
| cleanup_pinned     (* AtScopeExit(ReleasePinned) *)
| cleanup_managed    (* AtScopeExit(ReleaseManaged) *)
| cleanup_device.    (* AtScopeExit(ReleaseDevice) *)

Global Instance static_site_eq_dec : EqDecision static_site.
Proof. solve_decision. Defined.

(** The function-local statics of the file: the three cached flags, the
    four static resources, and the sites constructed so far in order. *)
Record statics := mkStatics {
  UseDeviceMemoryPool_value : option bool;
  UsePinnedMemoryPool_value : option bool;
  UseVMM_value : option bool;
  host_rsrc : shared_ptr;              (* CreateDefaultHostResource: rsrc *)
  pinned_upstream_plain : shared_ptr;  (* CreateDefaultPinnedResource: first upstream *)
  pinned_upstream_pool : shared_ptr;   (* CreateDefaultPinnedResource: second upstream *)
  managed_rsrc : shared_ptr;           (* CreateDefaultManagedResource: rsrc *)
  constructed : list static_site
}.

Record process := mkProcess {
  g_resources : DefaultResources;
  locals : statics;
  mem : heap
}.

Definition initial_resources : DefaultResources :=
  {| host := None; pinned_async := None; managed := None;
     device := None; num_devices := 0 |}.

Definition initial_statics : statics :=
  {| UseDeviceMemoryPool_value := None; UsePinnedMemoryPool_value := None;
     UseVMM_value := None; host_rsrc := None; pinned_upstream_plain := None;
     pinned_upstream_pool := None; managed_rsrc := None; constructed := [] |}.

Definition initial_process : process :=
  {| g_resources := initial_resources; locals := initial_statics; mem := [] |}.

(** Field updates. *)
Definition with_resources (f : DefaultResources → DefaultResources) (p : process) : process :=
  {| g_resources := f (g_resources p); locals := locals p; mem := mem p |}.
Definition with_locals (f : statics → statics) (p : process) : process :=
  {| g_resources := g_resources p; locals := f (locals p); mem := mem p |}.
Definition with_mem (f : heap → heap) (p : process) : process :=
  {| g_resources := g_resources p; locals := locals p; mem := f (mem p) |}.

Definition set_host (v : shared_ptr) (r : DefaultResources) : DefaultResources :=
  {| host := v; pinned_async := pinned_async r; managed := managed r;
     device := device r; num_devices := num_devices r |}.
Definition set_pinned_async (v : shared_ptr) (r : DefaultResources) : DefaultResources :=
  {| host := host r; pinned_async := v; managed := managed r;
     device := device r; num_devices := num_devices r |}.
Definition set_managed (v : shared_ptr) (r : DefaultResources) : DefaultResources :=
  {| host := host r; pinned_async := pinned_async r; managed := v;
     device := device r; num_devices := num_devices r |}.
Definition set_device (v : option (list shared_ptr)) (r : DefaultResources) : DefaultResources :=
  {| host := host r; pinned_async := pinned_async r; managed := managed r;
     device := v; num_devices := num_devices r |}.
Definition set_num_devices (v : Z) (r : DefaultResources) : DefaultResources :=
  {| host := host r; pinned_async := pinned_async r; managed := managed r;
     device := device r; num_devices := v |}.

Definition set_UseDeviceMemoryPool_value (v : option bool) (s : statics) : statics :=
  {| UseDeviceMemoryPool_value := v;
     UsePinnedMemoryPool_value := UsePinnedMemoryPool_value s;
     UseVMM_value := UseVMM_value s; host_rsrc := host_rsrc s;
     pinned_upstream_plain := pinned_upstream_plain s;
     pinned_upstream_pool := pinned_upstream_pool s;
     managed_rsrc := managed_rsrc s; constructed := constructed s |}.
Definition set_UsePinnedMemoryPool_value (v : option bool) (s : statics) : statics :=
  {| UseDeviceMemoryPool_value := UseDeviceMemoryPool_value s;
     UsePinnedMemoryPool_value := v;
     UseVMM_value := UseVMM_value s; host_rsrc := host_rsrc s;
     pinned_upstream_plain := pinned_upstream_plain s;
     pinned_upstream_pool := pinned_upstream_pool s;
     managed_rsrc := managed_rsrc s; constructed := constructed s |}.
Definition set_UseVMM_value (v : option bool) (s : statics) : statics :=
  {| UseDeviceMemoryPool_value := UseDeviceMemoryPool_value s;
     UsePinnedMemoryPool_value := UsePinnedMemoryPool_value s;
     UseVMM_value := v; host_rsrc := host_rsrc s;
     pinned_upstream_plain := pinned_upstream_plain s;
     pinned_upstream_pool := pinned_upstream_pool s;
     managed_rsrc := managed_rsrc s; constructed := constructed s |}.
Definition set_host_rsrc (v : shared_ptr) (s : statics) : statics :=
  {| UseDeviceMemoryPool_value := UseDeviceMemoryPool_value s;
     UsePinnedMemoryPool_value := UsePinnedMemoryPool_value s;
     UseVMM_value := UseVMM_value s; host_rsrc := v;
     pinned_upstream_plain := pinned_upstream_plain s;
     pinned_upstream_pool := pinned_upstream_pool s;
     managed_rsrc := managed_rsrc s; constructed := constructed s |}.
Definition set_pinned_upstream_plain (v : shared_ptr) (s : statics) : statics :=
  {| UseDeviceMemoryPool_value := UseDeviceMemoryPool_value s;
     UsePinnedMemoryPool_value := UsePinnedMemoryPool_value s;
     UseVMM_value := UseVMM_value s; host_rsrc := host_rsrc s;
     pinned_upstream_plain := v;
     pinned_upstream_pool := pinned_upstream_pool s;
     managed_rsrc := managed_rsrc s; constructed := constructed s |}.
Definition set_pinned_upstream_pool (v : shared_ptr) (s : statics) : statics :=
  {| UseDeviceMemoryPool_value := UseDeviceMemoryPool_value s;
     UsePinnedMemoryPool_value := UsePinnedMemoryPool_value s;
     UseVMM_value := UseVMM_value s; host_rsrc := host_rsrc s;
     pinned_upstream_plain := pinned_upstream_plain s;
     pinned_upstream_pool := v;
     managed_rsrc := managed_rsrc s; constructed := constructed s |}.
Definition set_managed_rsrc (v : shared_ptr) (s : statics) : statics :=
  {| UseDeviceMemoryPool_value := UseDeviceMemoryPool_value s;
     UsePinnedMemoryPool_value := UsePinnedMemoryPool_value s;
     UseVMM_value := UseVMM_value s; host_rsrc := host_rsrc s;
     pinned_upstream_plain := pinned_upstream_plain s;
     pinned_upstream_pool := pinned_upstream_pool s;
     managed_rsrc := v; constructed := constructed s |}.
Definition set_constructed (v : list static_site) (s : statics) : statics :=
  {| UseDeviceMemoryPool_value := UseDeviceMemoryPool_value s;
     UsePinnedMemoryPool_value := UsePinnedMemoryPool_value s;
     UseVMM_value := UseVMM_value s; host_rsrc := host_rsrc s;
     pinned_upstream_plain := pinned_upstream_plain s;
     pinned_upstream_pool := pinned_upstream_pool s;
     managed_rsrc := managed_rsrc s; constructed := v |}.

(** ** The monad of the embedding *)

(** A call either returns or throws; the state it leaves behind is kept
    in both cases, as after a C++ exception. *)
Inductive outcome (A : Type) :=
| Ret (a : A)
| Throw (e : exn).
Arguments Ret {A} a.
Arguments Throw {A} e.

Definition M (A : Type) : Type := platform → process → outcome A * process.

Definition ret {A} (a : A) : M A := λ _ p, (Ret a, p).
Definition throw {A} (e : exn) : M A := λ _ p, (Throw e, p).
Definition bind {A B} (m : M A) (k : A → M B) : M B :=
  λ rt p, match m rt p with
          | (Ret a, p') => k a rt p'
          | (Throw e, p') => (Throw e, p')
          end.

Declare Scope cxx_scope.
Delimit Scope cxx_scope with cxx.
Notation "x <- m ;; k" := (bind m (λ x, k))
  (at level 100, m at next level, right associativity) : cxx_scope.
Notation "m ;;; k" := (bind m (λ _, k))
  (at level 100, right associativity) : cxx_scope.
Open Scope cxx_scope.

Definition ask : M platform := λ rt p, (Ret rt, p).
Definition read {A} (f : process → A) : M A := λ _ p, (Ret (f p), p).
Definition modify (f : process → process) : M unit := λ _ p, (Ret tt, f p).

(** Stack unwinding: [m] runs; if it throws, the destructor [undo] of a
    local object runs before the exception leaves the scope. *)
Definition unwinding {A} (m : M A) (undo : process → process) : M A :=
  λ rt p, match m rt p with
          | (Ret a, p') => (Ret a, p')
          | (Throw e, p') => (Throw e, undo p')
          end.

(** [CUDA_CALL(f(&out))]: throw on any status but [cudaSuccess]. *)
Definition CUDA_CALL {A} (call : platform → cudaError_t * A) : M A :=
  rt <- ask ;;
  match call rt with
  | (cudaSuccess, v) => ret v
  | (code, _) => throw (CUDAError code)
  end.

(** Calls into collaborators that return nothing but may throw. *)
Definition external (call : platform → option exn) : M unit :=
  rt <- ask ;;
  match call rt with
  | None => ret tt
  | Some e => throw e
  end.

(** Modelled from the spec: [DeviceGuard] (dali/core/device_guard.h is not
    under src/) makes the given device current for the enclosing scope and
    restores the previous one when the scope is left. *)
Definition DeviceGuard {A} (device_id : Z) (scope : M A) : M A :=
  external (λ rt, DeviceGuard_ctor rt device_id) ;;;
  (λ rt, scope
     {| cudaGetDeviceCount := cudaGetDeviceCount rt;
        cudaGetDevice := (cudaSuccess, device_id);
        cudaGetLastError := cudaGetLastError rt;
        DALI_USE_CUDA_VM_MAP := DALI_USE_CUDA_VM_MAP rt;
        cuvm_IsSupported := cuvm_IsSupported rt;
        getenv := getenv rt;
        DeviceGuard_ctor := DeviceGuard_ctor rt;
        CUDAEventPool_instance := CUDAEventPool_instance rt;
        construct := construct rt |}).

(** A function-local static without a value: constructed on the first
    pass; a constructor that throws leaves it unconstructed. *)
Definition static_once (site : static_site) (ctor : M unit) : M unit :=
  done_before <- read (λ p, bool_decide (site ∈ constructed (locals p))) ;;
  if done_before : bool then ret tt
  else ctor ;;;
       modify (with_locals (λ s, set_constructed (constructed s ++ [site]) s)).

(** ** Allocation and ownership *)

(** The two smart pointers [DefaultResources::Release] is instantiated
    with: what the empty pointer is and what destroying the pointer does
    to the objects it owns. *)
Class smart_pointer (P : Type) := {
  empty_ptr : P;
  destroy : P → heap → heap
}.

Global Instance shared_ptr_pointer : smart_pointer shared_ptr :=
  {| empty_ptr := None; destroy := sp_release |}.

(** [std::unique_ptr<std::shared_ptr<...>[]>]: [delete[]] destroys the
    elements from the last to the first. *)
Global Instance unique_array_pointer : smart_pointer (option (list shared_ptr)) :=
  {| empty_ptr := None;
     destroy arr h := match arr with
                      | None => h
                      | Some l => foldr sp_release h l
                      end |}.

(** [std::make_shared<T>(upstream)]: a fresh object with one owner, at the
    next free address; a pool starts with nothing cached. *)
Definition allocate (h : heap) : heap :=
  h ++ [{| owners := 1; dead := false; unused := 0 |}].

Definition make_shared (t : resource_type) (upstream : option memory_resource) : M handle :=
  external (λ rt, construct rt t) ;;;
  a <- read (λ p, length (mem p)) ;;
  modify (with_mem allocate) ;;;
  ret {| get := MR a t upstream; kept := [] |}.

(** Modelled from the spec: [make_shared_composite_resource]
    (dali/core/mm/composite_resource.h is not under src/) returns a handle
    to [rsrc] that also keeps the [extra] handles alive, so that they
    outlive [rsrc] and are released after it. *)
Definition make_shared_composite_resource (rsrc : handle) (extra : list handle) : handle :=
  {| get := get rsrc; kept := kept rsrc ++ map get extra |}.

(** A function-local [static auto x = std::make_shared<T>()]. *)
Definition static_resource (value : statics → shared_ptr)
    (set_value : shared_ptr → statics → statics) (t : resource_type) : M handle :=
  cur <- read (λ p, value (locals p)) ;;
  match cur with
  | Some x => ret x
  | None =>
      x <- make_shared t None ;;
      modify (with_locals (set_value (Some x))) ;;;
      ret x
  end.

(** Returning a copy of a local or static [shared_ptr]. *)
Definition return_copy (x : handle) : M handle :=
  modify (with_mem (sp_copy (Some x))) ;;;
  ret x.

(** Assignment to a [shared_ptr] member of [g_resources]: the value is
    moved in and the previous value of the member is released. *)
Definition assign (member : DefaultResources → shared_ptr)
    (set_member : shared_ptr → DefaultResources → DefaultResources)
    (v : shared_ptr) : M unit :=
  modify (λ p, with_mem (sp_release (member (g_resources p)))
                 (with_resources (set_member v) p)).

(** ** struct DefaultResources *)

Definition InitDeviceResArray : M unit :=
  dev <- read (λ p, device (g_resources p)) ;;
  match dev with
  | Some _ => ret tt
  | None =>
      dev' <- read (λ p, device (g_resources p)) ;;
      match dev' with
      | Some _ => ret tt
      | None =>
          ndevs <- CUDA_CALL cudaGetDeviceCount ;;
          if ndevs <? 0 then throw std_bad_array_new_length
          else
            modify (with_resources (set_num_devices ndevs)) ;;;
            modify (with_resources
                      (set_device (Some (replicate (Z.to_nat ndevs) None))))
      end
  end.

(** [make_string(device_id, "...", num_devices, "...")]. *)
Definition index_error_message (device_id bound : Z) : string :=
  pretty device_id +:+ " is not a valid CUDA device index. " +:+
  "Shoud be 0 <= device_id < " +:+ pretty bound +:+
  " or negative for current device.".

Definition CheckDeviceIndex (device_id : Z) : M unit :=
  n <- read (λ p, num_devices (g_resources p)) ;;
  if (device_id <? 0) || (device_id >=? n)
  then throw (std_out_of_range (index_error_message device_id n))
  else ret tt.

Section Release.
Context {P : Type} `{smart_pointer P}.
Variable member : DefaultResources → P.
Variable set_member : P → DefaultResources → DefaultResources.

(** Both overloads of [Abandon] empty the member and leave the object it
    owned as it is: nothing is destroyed, no use count changes. *)
Definition Abandon : M unit :=
  modify (with_resources (set_member empty_ptr)).

Definition Release : M unit :=
  rt <- ask ;;
  match cudaGetLastError rt with
  | cudaErrorCudartUnloading => Abandon
  | _ =>
      modify (λ p, with_mem (destroy (member (g_resources p)))
                     (with_resources (set_member empty_ptr) p))
  end.
End Release.

Definition ReleasePinned : M unit := Release pinned_async set_pinned_async.
Definition ReleaseManaged : M unit := Release managed set_managed.
Definition ReleaseDevice : M unit := Release device set_device.
Definition ReleaseHost : M unit := Release host set_host.

(** [~DefaultResources]. *)
Definition DefaultResources_dtor : M unit :=
  ReleasePinned ;;; ReleaseDevice ;;; ReleaseManaged ;;; ReleaseHost.

(** ** Configuration flags *)

(** [isspace] in the C locale, and the value of a decimal digit. *)
Definition isspace (c : Ascii.ascii) : bool :=
  let n := Z.of_nat (Ascii.nat_of_ascii c) in
  (n =? 32) || ((9 <=? n) && (n <=? 13)).

Definition digit_value (c : Ascii.ascii) : option Z :=
  let n := Z.of_nat (Ascii.nat_of_ascii c) in
  if (48 <=? n) && (n <=? 57) then Some (n - 48) else None.

Fixpoint atoi_digits (acc : Z) (s : string) : Z :=
  match s with
  | String c s' =>
      match digit_value c with
      | Some d => atoi_digits (10 * acc + d) s'
      | None => acc
      end
  | EmptyString => acc
  end.

Fixpoint skip_spaces (s : string) : string :=
  match s with
  | String c s' => if isspace c then skip_spaces s' else s
  | EmptyString => s
  end.

(** Modelled from the C library, which is not under src/: in glibc
    [atoi (s)] is [(int) strtol (s, NULL, 10)].  [strtol] skips leading
    white space, takes an optional sign and the decimal digits up to the
    first other character (no digits give 0) and returns a [long]; a
    value outside [long] is replaced by [LONG_MIN] or [LONG_MAX].  The
    conversion to [int] keeps the low 32 bits, so that 4294967296
    becomes 0.  ([long] has 64 bits and [int] 32, as on the platforms
    DALI is built for.) *)
Definition LONG_MAX : Z := 2 ^ 63 - 1.
Definition LONG_MIN : Z := - 2 ^ 63.

Definition strtol (s : string) : Z :=
  let v := match skip_spaces s with
           | String "-"%char s' => - atoi_digits 0 s'
           | String "+"%char s' => atoi_digits 0 s'
           | s' => atoi_digits 0 s'
           end in
  Z.max LONG_MIN (Z.min LONG_MAX v).

(** [(int) v] for a [long] [v]. *)
Definition int_of_long (v : Z) : Z := (v + 2 ^ 31) mod 2 ^ 32 - 2 ^ 31.

Definition atoi (s : string) : Z := int_of_long (strtol s).

(** The initialiser shared by the three flags:
    [env = std::getenv(name); return !env || atoi(env);] *)
Definition read_flag (name : string) (rt : platform) : bool :=
  match getenv rt name with
  | None => true
  | Some env => negb (atoi env =? 0)
  end.

(** [static bool value = [](){...}(); return value;] *)
Definition cached_flag (name : string) (value : statics → option bool)
    (set_value : option bool → statics → statics) : M bool :=
  cur <- read (λ p, value (locals p)) ;;
  match cur with
  | Some v => ret v
  | None =>
      rt <- ask ;;
      modify (with_locals (set_value (Some (read_flag name rt)))) ;;;
      ret (read_flag name rt)
  end.

Definition UseDeviceMemoryPool : M bool :=
  cached_flag "DALI_USE_DEVICE_MEM_POOL"
    UseDeviceMemoryPool_value set_UseDeviceMemoryPool_value.

Definition UsePinnedMemoryPool : M bool :=
  cached_flag "DALI_USE_PINNED_MEM_POOL"
    UsePinnedMemoryPool_value set_UsePinnedMemoryPool_value.

Definition UseVMM : M bool :=
  cached_flag "DALI_USE_VMM" UseVMM_value set_UseVMM_value.

(** ** Construction of the default resources *)

Definition CreateDefaultHostResource : M handle :=
  rsrc <- static_resource host_rsrc set_host_rsrc malloc_memory_resource ;;
  return_copy rsrc.

(** [CUDARTLoader::CUDARTLoader()]. *)
Definition CUDARTLoader : M unit :=
  device_id <- CUDA_CALL cudaGetDevice ;;
  DeviceGuard device_id (ret tt).

Definition CreateDefaultDeviceResource : M handle :=
  static_once CUDAInit CUDARTLoader ;;;
  external CUDAEventPool_instance ;;;
  device_id <- CUDA_CALL cudaGetDevice ;;
  use_pool <- UseDeviceMemoryPool ;;
  if negb use_pool then
    make_shared (cuda_malloc_memory_resource device_id) None
  else
    rt <- ask ;;
    use_vm <- (if DALI_USE_CUDA_VM_MAP rt
               then if cuvm_IsSupported rt then UseVMM else ret false
               else ret false) ;;
    if use_vm : bool then
      make_shared async_pool_vm_resource None
    else
      upstream <- make_shared (cuda_malloc_memory_resource device_id) None ;;
      rsrc <- unwinding
                (make_shared (async_pool_tree_resource memory_kind.device)
                             (Some (get upstream)))
                (with_mem (sp_release (Some upstream))) ;;
      ret (make_shared_composite_resource rsrc [upstream]).

Definition CreateDefaultPinnedResource : M handle :=
  use_pool <- UsePinnedMemoryPool ;;
  if negb use_pool then
    upstream <- static_resource pinned_upstream_plain set_pinned_upstream_plain
                  pinned_malloc_memory_resource ;;
    return_copy upstream
  else
    upstream <- static_resource pinned_upstream_pool set_pinned_upstream_pool
                  pinned_malloc_memory_resource ;;
    rsrc <- make_shared (async_pool_tree_resource memory_kind.pinned)
                        (Some (get upstream)) ;;
    upstream' <- return_copy upstream ;;
    ret (make_shared_composite_resource rsrc [upstream']).

Definition CreateDefaultManagedResource : M handle :=
  rsrc <- static_resource managed_rsrc set_managed_rsrc
            managed_malloc_memory_resource ;;
  return_copy rsrc.

(** ** Lazy lookup *)

(** The double check of the source, [if (!slot) { lock; if (!slot) ... }]:
    both reads are kept. *)
Definition if_empty (member : DefaultResources → shared_ptr) (create : M unit) : M unit :=
  cur <- read (λ p, member (g_resources p)) ;;
  match cur with
  | Some _ => ret tt
  | None =>
      cur' <- read (λ p, member (g_resources p)) ;;
      match cur' with
      | Some _ => ret tt
      | None => create
      end
  end.

Definition ShareDefaultResourceImpl_host : M shared_ptr :=
  if_empty host
    (rsrc <- CreateDefaultHostResource ;;
     assign host set_host (Some rsrc)) ;;;
  read (λ p, host (g_resources p)).

Definition ShareDefaultResourceImpl_pinned : M shared_ptr :=
  if_empty pinned_async
    (static_once init_cuda_pinned CUDARTLoader ;;;
     rsrc <- CreateDefaultPinnedResource ;;
     assign pinned_async set_pinned_async (Some rsrc) ;;;
     static_once cleanup_pinned (ret tt)) ;;;
  read (λ p, pinned_async (g_resources p)).

Definition ShareDefaultResourceImpl_managed : M shared_ptr :=
  if_empty managed
    (static_once init_cuda_managed CUDARTLoader ;;;
     rsrc <- CreateDefaultManagedResource ;;
     assign managed set_managed (Some rsrc) ;;;
     static_once cleanup_managed (ret tt)) ;;;
  read (λ p, managed (g_resources p)).

(** [g_resources.device[device_id]] as an rvalue: reading through an
    empty array pointer or past the end of the array is undefined. *)
Definition device_at (device_id : Z) : M shared_ptr :=
  dev <- read (λ p, device (g_resources p)) ;;
  match dev with
  | None => throw undefined_behaviour
  | Some arr =>
      match arr !! Z.to_nat device_id with
      | Some slot => ret slot
      | None => throw undefined_behaviour
      end
  end.

(** [g_resources.device[device_id] = v]. *)
Definition device_assign (device_id : Z) (v : shared_ptr) : M unit :=
  old <- device_at device_id ;;
  modify (λ p, with_mem (sp_release old)
                 (with_resources
                    (λ r, set_device
                            (fmap (M := option) <[Z.to_nat device_id := v]> (device r)) r) p)).

Definition ShareDefaultDeviceResourceImpl (device_id : Z) : M shared_ptr :=
  device_id <- (if device_id <? 0 then CUDA_CALL cudaGetDevice else ret device_id) ;;
  InitDeviceResArray ;;;
  CheckDeviceIndex device_id ;;;
  cur <- device_at device_id ;;
  match cur with
  | Some _ => ret tt
  | None =>
      cur' <- device_at device_id ;;
      match cur' with
      | Some _ => ret tt
      | None =>
          DeviceGuard device_id
            (static_once init_cuda_device CUDARTLoader ;;;
             rsrc <- CreateDefaultDeviceResource ;;
             device_assign device_id (Some rsrc) ;;;
             static_once cleanup_device (ret tt))
      end
  end ;;;
  device_at device_id.

Definition ShareDefaultResourceImpl_device : M shared_ptr :=
  ShareDefaultDeviceResourceImpl (-1).

Definition ShareDefaultResourceImpl (Kind : memory_kind.t) : M shared_ptr :=
  match Kind with
  | memory_kind.host => ShareDefaultResourceImpl_host
  | memory_kind.pinned => ShareDefaultResourceImpl_pinned
  | memory_kind.device => ShareDefaultResourceImpl_device
  | memory_kind.managed => ShareDefaultResourceImpl_managed
  end.

(** ** The public interface *)

(** The shared pointer a function takes by value is destroyed when the
    function is left by an exception before the pointer was moved on. *)
Definition by_value {A} (resource : shared_ptr) (body : M A) : M A :=
  unwinding body (with_mem (sp_release resource)).

Definition SetDefaultResource_host (resource : shared_ptr) : M unit :=
  assign host set_host resource.

Definition SetDefaultResource_pinned (resource : shared_ptr) : M unit :=
  assign pinned_async set_pinned_async resource.

Definition SetDefaultDeviceResource (device_id : Z) (resource : shared_ptr) : M unit :=
  by_value resource
    (device_id <- (if device_id <? 0 then CUDA_CALL cudaGetDevice else ret device_id) ;;
     InitDeviceResArray ;;;
     CheckDeviceIndex device_id ;;;
     device_assign device_id resource).

(** For testing purposes only. *)
Definition _Test_FreeDeviceResources : M unit :=
  modify (λ p, with_mem (destroy (device (g_resources p)))
                 (with_resources (set_device None) p)) ;;;
  modify (with_resources (set_num_devices 0)).

Definition SetDefaultResource_device (resource : shared_ptr) : M unit :=
  dev <- by_value resource (CUDA_CALL cudaGetDevice) ;;
  SetDefaultDeviceResource dev resource.

(** The returned [std::shared_ptr] is a copy of the table entry. *)
Definition ShareDefaultResource (Kind : memory_kind.t) : M shared_ptr :=
  slot <- ShareDefaultResourceImpl Kind ;;
  modify (with_mem (sp_copy slot)) ;;;
  ret slot.

(** The raw pointer [.get()] of the table entry. *)
Definition GetDefaultResource (Kind : memory_kind.t) : M (option memory_resource) :=
  slot <- ShareDefaultResourceImpl Kind ;;
  ret (get <$> slot).

Definition ShareDefaultDeviceResource (device_id : Z) : M shared_ptr :=
  slot <- ShareDefaultDeviceResourceImpl device_id ;;
  modify (with_mem (sp_copy slot)) ;;;
  ret slot.

Definition GetDefaultDeviceResource (device_id : Z) : M (option memory_resource) :=
  slot <- ShareDefaultDeviceResourceImpl device_id ;;
  ret (get <$> slot).

(** ** Trimming pools *)

Fixpoint GetPoolInterface_from (mr : memory_resource) : option memory_resource :=
  match mr with
  | MR _ t up =>
      if is_pool_resource_base t then Some mr
      else if is_with_upstream t then
        match up with
        | Some mr' => GetPoolInterface_from mr'
        | None => None
        end
      else None
  end.

(** [GetPoolInterface(mr)] for a possibly null [mr]. *)
Definition GetPoolInterface (mr : option memory_resource) : option memory_resource :=
  match mr with
  | Some r => GetPoolInterface_from r
  | None => None
  end.

(** Modelled from the spec: [pool_resource_base::release_unused]
    (dali/core/mm/pool_resource_base.h is not under src/) gives the memory
    the pool caches without using back to its upstream; afterwards the
    pool caches nothing. *)
Definition trimmed (b : block) : block :=
  {| owners := owners b; dead := dead b; unused := 0 |}.

Definition release_unused (pool : memory_resource) (h : heap) : heap :=
  alter trimmed (mr_addr pool) h.

Definition trim (p : shared_ptr) : M unit :=
  match GetPoolInterface (get <$> p) with
  | Some pool => modify (with_mem (release_unused pool))
  | None => ret tt
  end.

(** [for (int i = 0; i < n; i++) body(i)]. *)
Fixpoint for_each {A} (body : A → M unit) (l : list A) : M unit :=
  match l with
  | [] => ret tt
  | i :: l' => body i ;;; for_each body l'
  end.

Definition ReleaseUnusedMemory : M unit :=
  devs <- read (λ p, device (g_resources p)) ;;
  match devs with
  | Some arr =>
      n <- read (λ p, num_devices (g_resources p)) ;;
      for_each
        (λ i, match arr !! i with
              | Some slot => trim slot
              | None => throw undefined_behaviour
              end)
        (seq 0 (Z.to_nat n))
  | None => ret tt
  end ;;;
  pinned <- read (λ p, pinned_async (g_resources p)) ;;
  trim pinned.

(** * Vocabulary of the statements *)

(** ** Configuration flags *)

Inductive config_flag := device_pool_enable | pinned_pool_enable | vmm_enable.

Definition flag_variable (f : config_flag) : string :=
  match f with
  | device_pool_enable => "DALI_USE_DEVICE_MEM_POOL"
  | pinned_pool_enable => "DALI_USE_PINNED_MEM_POOL"
  | vmm_enable => "DALI_USE_VMM"
  end.

Definition flag_value (f : config_flag) : statics → option bool :=
  match f with
  | device_pool_enable => UseDeviceMemoryPool_value
  | pinned_pool_enable => UsePinnedMemoryPool_value
  | vmm_enable => UseVMM_value
  end.

Definition use_flag (f : config_flag) : M bool :=
  match f with
  | device_pool_enable => UseDeviceMemoryPool
  | pinned_pool_enable => UsePinnedMemoryPool
  | vmm_enable => UseVMM
  end.

(** The value a flag has for a construction that starts in [p] on [rt]:
    the cached value, or what the first read is about to cache. *)
Definition flag_setting (f : config_flag) (rt : platform) (p : process) : bool :=
  match flag_value f (locals p) with
  | Some v => v
  | None => read_flag (flag_variable f) rt
  end.

(** ** Allocation strategies *)

Inductive device_strategy := plain_device | mapped_pool | tree_pool_over_plain_device.

(** The case analysis of the specification. *)
Definition select_device_strategy (pool_flag mapping_supported vmm_flag : bool) : device_strategy :=
  if negb pool_flag then plain_device
  else if mapping_supported && vmm_flag then mapped_pool
  else tree_pool_over_plain_device.

Definition device_built_as (s : device_strategy) (device_id : Z) (x : handle) : Prop :=
  match s with
  | plain_device =>
      ∃ a, x = {| get := MR a (cuda_malloc_memory_resource device_id) None; kept := [] |}
  | mapped_pool =>
      ∃ a, x = {| get := MR a async_pool_vm_resource None; kept := [] |}
  | tree_pool_over_plain_device =>
      ∃ a a', x = {| get := MR a (async_pool_tree_resource memory_kind.device)
                              (Some (MR a' (cuda_malloc_memory_resource device_id) None));
                     kept := [MR a' (cuda_malloc_memory_resource device_id) None] |}
  end.

Inductive pinned_strategy := plain_pinned | tree_pool_over_plain_pinned.

Definition select_pinned_strategy (pool_flag : bool) : pinned_strategy :=
  if pool_flag then tree_pool_over_plain_pinned else plain_pinned.

Definition pinned_built_as (s : pinned_strategy) (x : handle) : Prop :=
  match s with
  | plain_pinned =>
      ∃ a, x = {| get := MR a pinned_malloc_memory_resource None; kept := [] |}
  | tree_pool_over_plain_pinned =>
      ∃ a a', x = {| get := MR a (async_pool_tree_resource memory_kind.pinned)
                              (Some (MR a' pinned_malloc_memory_resource None));
                     kept := [MR a' pinned_malloc_memory_resource None] |}
  end.

(** A platform on which no collaborator fails. *)
Definition healthy (rt : platform) : Prop :=
  (∃ c, cudaGetDevice rt = (cudaSuccess, c)) ∧
  (∀ d, DeviceGuard_ctor rt d = None) ∧
  CUDAEventPool_instance rt = None ∧
  (∀ t, construct rt t = None).

(** ** Slots of the table *)

Inductive slot := host_slot | pinned_slot | managed_slot | device_slot (d : Z).

(** [share_default(kind[, device_index])]. *)
Definition share_default (sl : slot) : M shared_ptr :=
  match sl with
  | host_slot => ShareDefaultResource memory_kind.host
  | pinned_slot => ShareDefaultResource memory_kind.pinned
  | managed_slot => ShareDefaultResource memory_kind.managed
  | device_slot d => ShareDefaultDeviceResource d
  end.

(** A device slot is addressed by a device index proper, not by the
    negative value that stands for the current device. *)
Definition indexed (sl : slot) : Prop :=
  match sl with
  | device_slot d => 0 ≤ d
  | _ => True
  end.

(** What a slot holds; a slot of a table that is not sized, or past its
    end, holds nothing. *)
Definition slot_value (sl : slot) (p : process) : shared_ptr :=
  match sl with
  | host_slot => host (g_resources p)
  | pinned_slot => pinned_async (g_resources p)
  | managed_slot => managed (g_resources p)
  | device_slot d =>
      match device (g_resources p) with
      | Some arr => default None (arr !! Z.to_nat d)
      | None => None
      end
  end.

(** The slot is populated with [x], at an index the range check accepts. *)
Definition slot_holds (sl : slot) (x : handle) (p : process) : Prop :=
  slot_value sl p = Some x ∧
  match sl with
  | device_slot d => d < num_devices (g_resources p)
  | _ => True
  end.

(** The kinds that have an override, [SetDefaultResource<host>],
    [SetDefaultResource<pinned>] and [SetDefaultDeviceResource]. *)
Inductive override_slot := override_host | override_pinned | override_device (d : Z).

Definition slot_of (o : override_slot) : slot :=
  match o with
  | override_host => host_slot
  | override_pinned => pinned_slot
  | override_device d => device_slot d
  end.

(** [set_default(kind[, device_index], handle)]. *)
Definition set_default (o : override_slot) (H : shared_ptr) : M unit :=
  match o with
  | override_host => SetDefaultResource_host H
  | override_pinned => SetDefaultResource_pinned H
  | override_device d => SetDefaultDeviceResource d H
  end.

(** The calls that look a default resource up or trim it, none of which
    is an override or a release. *)
Inductive lookup :=
| call_share (Kind : memory_kind.t)
| call_get (Kind : memory_kind.t)
| call_share_device (device_id : Z)
| call_get_device (device_id : Z)
| call_release_unused.

Definition run_lookup (c : lookup) : M unit :=
  match c with
  | call_share Kind => ShareDefaultResource Kind ;;; ret tt
  | call_get Kind => GetDefaultResource Kind ;;; ret tt
  | call_share_device d => ShareDefaultDeviceResource d ;;; ret tt
  | call_get_device d => GetDefaultDeviceResource d ;;; ret tt
  | call_release_unused => ReleaseUnusedMemory
  end.

(** A sequence of lookups, each on the platform as it is at that moment;
    a lookup that throws leaves its state behind and the next one runs. *)
Definition run_lookups (cs : list (platform * lookup)) (p : process) : process :=
  foldl (λ p c, (run_lookup c.2 c.1 p).2) p cs.

(** ** Invariants *)

(** A property of the process state that a computation keeps, whether it
    returns or throws. *)
Definition preserves {A} (I : process → Prop) (m : M A) : Prop :=
  ∀ rt p, I p → I (m rt p).2.

(** The size recorded for the device table does not exceed the table. *)
Definition table_sized (p : process) : Prop :=
  ∀ arr, device (g_resources p) = Some arr →
         num_devices (g_resources p) ≤ Z.of_nat (length arr).

(** Every handle the table or a static holds refers to a valid object. *)
Definition held_alive (p : process) : Prop :=
  ∀ x, (host (g_resources p) = Some x ∨
        pinned_async (g_resources p) = Some x ∨
        managed (g_resources p) = Some x ∨
        (∃ arr, device (g_resources p) = Some arr ∧ Some x ∈ arr) ∨
        host_rsrc (locals p) = Some x ∨
        pinned_upstream_plain (locals p) = Some x ∨
        pinned_upstream_pool (locals p) = Some x ∨
        managed_rsrc (locals p) = Some x) →
       alive (mem p) (mr_addr (get x)).

(** After a copy the object has at least two owners. *)
Definition shared (h : heap) (a : addr) : Prop :=
  ∃ b, h !! a = Some b ∧ (2 ≤ owners b)%nat ∧ dead b = false.

(** A static resource, once constructed, is the plain allocator its
    initialiser makes. *)
Definition is_plain (t : resource_type) (s : shared_ptr) : Prop :=
  ∀ x, s = Some x → ∃ a, x = {| get := MR a t None; kept := [] |}.

Definition statics_typed (p : process) : Prop :=
  is_plain malloc_memory_resource (host_rsrc (locals p)) ∧
  is_plain pinned_malloc_memory_resource (pinned_upstream_plain (locals p)) ∧
  is_plain pinned_malloc_memory_resource (pinned_upstream_pool (locals p)) ∧
  is_plain managed_malloc_memory_resource (managed_rsrc (locals p)).

(** Old objects keep their owners: no use count of [h] is lower in [h'],
    no object of [h] is destroyed in [h'] that was not in [h]. *)
Definition keeps_owners (h h' : heap) : Prop :=
  ∀ a b, h !! a = Some b →
         ∃ b', h' !! a = Some b' ∧ (owners b ≤ owners b')%nat ∧ dead b' = dead b.

(** The flag [f] is cached with value [v]. *)
Definition flag_cached (f : config_flag) (v : bool) (p : process) : Prop :=
  flag_value f (locals p) = Some v.


(** The calls of the public interface, and the teardown of the table. *)
Inductive interface_call :=
| do_lookup (c : lookup)
| do_override (o : override_slot) (H : shared_ptr)
| do_override_current_device (H : shared_ptr)
| do_reset_devices
| do_teardown.

Definition run_call (c : interface_call) : M unit :=
  match c with
  | do_lookup c => run_lookup c
  | do_override o H => set_default o H
  | do_override_current_device H => SetDefaultResource_device H
  | do_reset_devices => _Test_FreeDeviceResources
  | do_teardown => DefaultResources_dtor
  end.

(** A sequence of interface calls, each on the platform of its moment. *)
Definition run_calls (cs : list (platform * interface_call)) (p : process) : process :=
  foldl (λ p c, (run_call c.2 c.1 p).2) p cs.

(** The states the interface can bring the process into. *)
Definition reachable (p : process) : Prop :=
  ∃ cs, p = run_calls cs initial_process.

(** ** Members of the table and their release *)

Inductive member := host_member | pinned_member | managed_member | device_member.


Definition member_empty (m : member) (p : process) : Prop :=
  match m with
  | host_member => host (g_resources p) = None
  | pinned_member => pinned_async (g_resources p) = None
  | managed_member => managed (g_resources p) = None
  | device_member => device (g_resources p) = None
  end.



(** ** How lookups change the table *)

(** Slot transitions are monotonic: a lookup leaves the table as it is,
    populates an empty slot, or sizes the device table that was not sized
    (all slots empty), and nothing else. *)
Inductive table_grows : DefaultResources → DefaultResources → Prop :=
| grows_refl r : table_grows r r
| grows_host r x : host r = None → table_grows r (set_host (Some x) r)
| grows_pinned r x : pinned_async r = None → table_grows r (set_pinned_async (Some x) r)
| grows_managed r x : managed r = None → table_grows r (set_managed (Some x) r)
| grows_sized r n :
    device r = None → 0 ≤ n →
    table_grows r (set_device (Some (replicate (Z.to_nat n) None)) (set_num_devices n r))
| grows_device r arr i x :
    device r = Some arr → arr !! i = Some None →
    table_grows r (set_device (Some (<[i := Some x]> arr)) r)
| grows_trans r1 r2 r3 : table_grows r1 r2 → table_grows r2 r3 → table_grows r1 r3.

(** The table is the one of [r]. *)
Definition table_is (r : DefaultResources) (p : process) : Prop := g_resources p = r.

(** [slot_holds] on the table alone. *)
Definition slot_in (sl : slot) (x : handle) (r : DefaultResources) : Prop :=
  match sl with
  | host_slot => host r = Some x
  | pinned_slot => pinned_async r = Some x
  | managed_slot => managed r = Some x
  | device_slot d =>
      d < num_devices r ∧ ∃ arr, device r = Some arr ∧ arr !! Z.to_nat d = Some (Some x)
  end.

(** The range check will accept the index of the slot: it is below the
    size of the table, or below the device count the platform is about to
    report for a table that is not sized yet. *)
Definition index_accepted (sl : slot) (rt : platform) (p : process) : Prop :=
  match sl with
  | device_slot d =>
      match device (g_resources p) with
      | Some arr =>
          d < num_devices (g_resources p) ∧
          num_devices (g_resources p) ≤ Z.of_nat (length arr)
      | None => ∃ n, cudaGetDeviceCount rt = (cudaSuccess, n) ∧ d < n
      end
  | _ => True
  end.

(** The construction a lookup runs for an empty slot, between the check
    of the slot and the assignment to it. *)
Definition construction (sl : slot) : M handle :=
  match sl with
  | host_slot => CreateDefaultHostResource
  | pinned_slot =>
      static_once init_cuda_pinned CUDARTLoader ;;; CreateDefaultPinnedResource
  | managed_slot =>
      static_once init_cuda_managed CUDARTLoader ;;; CreateDefaultManagedResource
  | device_slot d =>
      DeviceGuard d
        (static_once init_cuda_device CUDARTLoader ;;; CreateDefaultDeviceResource)
  end.

(** The slot exists and is empty. *)
Definition slot_vacant (sl : slot) (p : process) : Prop :=
  match sl with
  | host_slot => host (g_resources p) = None
  | pinned_slot => pinned_async (g_resources p) = None
  | managed_slot => managed (g_resources p) = None
  | device_slot d =>
      d < num_devices (g_resources p) ∧
      ∃ arr, device (g_resources p) = Some arr ∧ arr !! Z.to_nat d = Some None
  end.

(** ** Pools reached from the table *)

(** The pool stage of every device slot below [num_devices], in index
    order, then the one of the pinned slot. *)
Definition pools (p : process) : list memory_resource :=
  omap (λ s : shared_ptr, GetPoolInterface (get <$> s))
       (match device (g_resources p) with
        | Some arr => take (Z.to_nat (num_devices (g_resources p))) arr
        | None => []
        end ++ [pinned_async (g_resources p)]).

(** What trimming one slot does to the heap. *)
Definition trim_heap (slot : shared_ptr) (h : heap) : heap :=
  match GetPoolInterface (get <$> slot) with
  | Some pool => release_unused pool h
  | None => h
  end.

(** The trim of every pool of a list. *)
Definition trim_pools (l : list memory_resource) (h : heap) : heap :=
  foldl (λ h pool, release_unused pool h) h l.

(** ** Sample platforms *)

(** Two devices, device 0 current, nothing fails, no variable set. *)
Definition two_devices : platform :=
  {| cudaGetDeviceCount := (cudaSuccess, 2);
     cudaGetDevice := (cudaSuccess, 0);
     cudaGetLastError := cudaSuccess;
     DALI_USE_CUDA_VM_MAP := true;
     cuvm_IsSupported := false;
     getenv := λ _, None;
     DeviceGuard_ctor := λ _, None;
     CUDAEventPool_instance := None;
     construct := λ _, None |}.

Definition with_getenv (env : string → option string) (rt : platform) : platform :=
  {| cudaGetDeviceCount := cudaGetDeviceCount rt;
     cudaGetDevice := cudaGetDevice rt;
     cudaGetLastError := cudaGetLastError rt;
     DALI_USE_CUDA_VM_MAP := DALI_USE_CUDA_VM_MAP rt;
     cuvm_IsSupported := cuvm_IsSupported rt;
     getenv := env;
     DeviceGuard_ctor := DeviceGuard_ctor rt;
     CUDAEventPool_instance := CUDAEventPool_instance rt;
     construct := construct rt |}.

Definition with_cudaGetDevice (r : cudaError_t * Z) (rt : platform) : platform :=
  {| cudaGetDeviceCount := cudaGetDeviceCount rt;
     cudaGetDevice := r;
     cudaGetLastError := cudaGetLastError rt;
     DALI_USE_CUDA_VM_MAP := DALI_USE_CUDA_VM_MAP rt;
     cuvm_IsSupported := cuvm_IsSupported rt;
     getenv := getenv rt;
     DeviceGuard_ctor := DeviceGuard_ctor rt;
     CUDAEventPool_instance := CUDAEventPool_instance rt;
     construct := construct rt |}.

Definition with_cudaGetLastError (e : cudaError_t) (rt : platform) : platform :=
  {| cudaGetDeviceCount := cudaGetDeviceCount rt;
     cudaGetDevice := cudaGetDevice rt;
     cudaGetLastError := e;
     DALI_USE_CUDA_VM_MAP := DALI_USE_CUDA_VM_MAP rt;
     cuvm_IsSupported := cuvm_IsSupported rt;
     getenv := getenv rt;
     DeviceGuard_ctor := DeviceGuard_ctor rt;
     CUDAEventPool_instance := CUDAEventPool_instance rt;
     construct := construct rt |}.

(** The state a call leaves behind. *)
Definition after {A} (m : M A) (rt : platform) (p : process) : process := (m rt p).2.

(** The environment in which one variable is set. *)
Definition setenv (name value : string) : string → option string :=
  λ n, if String.eqb n name then Some value else None.

(** A process whose pinned slot holds the default pool, with 4096 bytes
    cached in the pool and not in use. *)
Definition sample_pinned_pool : handle :=
  {| get := MR 1%nat (async_pool_tree_resource memory_kind.pinned)
              (Some (MR 0%nat pinned_malloc_memory_resource None));
     kept := [MR 0%nat pinned_malloc_memory_resource None] |}.


(** The process after the default allocator of device 0 was looked up,
    and the handle that lookup returned. *)
Definition process_with_device_0 : process :=
  after (share_default (device_slot 0)) two_devices initial_process.

Definition device_0_pool : handle :=
  {| get := MR 1%nat (async_pool_tree_resource memory_kind.device)
              (Some (MR 0%nat (cuda_malloc_memory_resource 0) None));
     kept := [MR 0%nat (cuda_malloc_memory_resource 0) None] |}.

Definition device_1_pool : handle :=
  {| get := MR 3%nat (async_pool_tree_resource memory_kind.device)
              (Some (MR 2%nat (cuda_malloc_memory_resource 1) None));
     kept := [MR 2%nat (cuda_malloc_memory_resource 1) None] |}.

(** * The rest of the interface *)

(** [get_default(kind[, device_index])]: the raw pointer of the entry. *)
Definition get_default (sl : slot) : M (option memory_resource) :=
  match sl with
  | host_slot => GetDefaultResource memory_kind.host
  | pinned_slot => GetDefaultResource memory_kind.pinned
  | managed_slot => GetDefaultResource memory_kind.managed
  | device_slot d => GetDefaultDeviceResource d
  end.

(** The stages the loop of [GetPoolInterface] can reach from [mr]: [mr]
    itself, then the upstream of every stage that has the [with_upstream]
    interface, up to a null upstream or a stage without the interface. *)
Fixpoint upstream_chain (mr : memory_resource) : list memory_resource :=
  match mr with
  | MR _ t up =>
      mr :: (if is_with_upstream t then
               match up with
               | Some mr' => upstream_chain mr'
               | None => []
               end
             else [])
  end.

Definition is_pool (mr : memory_resource) : Prop :=
  is_pool_resource_base (mr_type mr) = true.

Global Instance is_pool_dec mr : Decision (is_pool mr).
Proof. unfold is_pool. apply _. Defined.

(** ** Preallocation *)

(** [res->allocate(bytes)] and [res->deallocate(mem, bytes)] are virtual
    calls into the allocator classes, which are not under src/: what a
    call does to the heap, and whether it throws, is a parameter.  The
    heap holds control blocks, not the memory the allocators hand out,
    so the pointer [mem] that goes from the one call to the other has no
    value here. *)
Section Preallocate.
Variable allocate : memory_resource → N → heap → outcome unit * heap.
Variable deallocate : memory_resource → N → heap → outcome unit * heap.

Definition call_allocator
    (method : memory_resource → N → heap → outcome unit * heap)
    (res : handle) (bytes : N) : M unit :=
  λ _ p, (fst (method (get res) bytes (mem p)),
          with_mem (λ _, snd (method (get res) bytes (mem p))) p).

(** The body both functions share once [res] is there; [res] is a local
    and is destroyed when the function is left, normally or not. *)
Definition allocate_and_deallocate (res : shared_ptr) (bytes : N) : M unit :=
  match res with
  | None => throw undefined_behaviour
  | Some x =>
      unwinding
        (call_allocator allocate x bytes ;;;
         call_allocator deallocate x bytes)
        (with_mem (sp_release res)) ;;;
      modify (with_mem (sp_release res))
  end.

Definition PreallocateDeviceMemory (bytes : N) (device_id : Z) : M unit :=
  res <- ShareDefaultDeviceResource device_id ;;
  allocate_and_deallocate res bytes.

Definition PreallocatePinnedMemory (bytes : N) : M unit :=
  res <- ShareDefaultResource memory_kind.pinned ;;
  allocate_and_deallocate res bytes.
End Preallocate.

(** ** More invariants *)

(** The device table is sized, with [n] slots and [m] recorded. *)
Definition table_has_size (n : nat) (m : Z) (p : process) : Prop :=
  num_devices (g_resources p) = m ∧
  ∃ arr, device (g_resources p) = Some arr ∧ length arr = n.

(** The calls that neither reset the device table nor tear the table
    down: lookups, trims and overrides. *)
Definition keeps_table (c : interface_call) : Prop :=
  match c with
  | do_lookup _ | do_override _ _ | do_override_current_device _ => True
  | do_reset_devices | do_teardown => False
  end.

(** The lookup behind [share_default] and [get_default]: the reference to
    the table entry, before a copy or the raw pointer is taken. *)
Definition lookup_impl (sl : slot) : M shared_ptr :=
  match sl with
  | host_slot => ShareDefaultResourceImpl_host
  | pinned_slot => ShareDefaultResourceImpl_pinned
  | managed_slot => ShareDefaultResourceImpl_managed
  | device_slot d => ShareDefaultDeviceResourceImpl d
  end.

(** The slot [sl] holds [v], whatever the other slots hold. *)
Definition slot_is (sl : slot) (v : shared_ptr) (p : process) : Prop :=
  slot_value sl p = v.

(** The computation does not depend on which device is current. *)
Definition ignores_current_device {A} (m : M A) : Prop :=
  ∀ current rt p, m (with_cudaGetDevice current rt) p = m rt p.

(** ** Statics and the heap across calls *)

(** A static resource holds [h]. *)
Definition static_holds (value : statics → shared_ptr) (h : handle) (p : process) : Prop :=
  value (locals p) = Some h.

(** The static at [site] was constructed. *)
Definition site_constructed (site : static_site) (p : process) : Prop :=
  site ∈ constructed (locals p).

(** At least [n] objects were allocated so far. *)
Definition heap_at_least (n : nat) (p : process) : Prop := (n ≤ length (mem p))%nat.

(** The default allocator of the host and of the managed slot is the
    function-local static of [CreateDefaultHostResource] and of
    [CreateDefaultManagedResource]; the managed lookup constructs its
    static [CUDARTLoader] before. *)
Definition static_built (sl : slot) (x : handle) (p : process) : Prop :=
  match sl with
  | host_slot => static_holds host_rsrc x p
  | managed_slot =>
      static_holds managed_rsrc x p ∧ site_constructed init_cuda_managed p
  | _ => False
  end.

(** Pinned pooling is switched on, and the static upstream of the pinned
    pool is [u]. *)
Definition pinned_pool_over (u : memory_resource) (p : process) : Prop :=
  flag_cached pinned_pool_enable true p ∧
  static_holds pinned_upstream_pool {| get := u; kept := [] |} p.

(** The heaps have the same objects with the same owners: no use count
    and no destructor separates them. *)
Definition same_owners (h h' : heap) : Prop :=
  length h' = length h ∧
  ∀ a b, h !! a = Some b →
         ∃ b', h' !! a = Some b' ∧ owners b' = owners b ∧ dead b' = dead b.

(** An allocator call that leaves the control blocks as they are. *)
Definition allocator_keeps_owners
    (method : memory_resource → N → heap → outcome unit * heap) : Prop :=
  ∀ r n h, same_owners h (method r n h).2.

(** What a preallocation through the slot [sl] leaves behind, against the
    lookup of the raw pointer of the slot: the same table and statics,
    the same owners, and the error of the lookup if it throws. *)
Definition preallocated (sl : slot) (rt : platform) (p : process)
    (r : outcome unit * process) : Prop :=
  g_resources r.2 = g_resources (get_default sl rt p).2 ∧
  locals r.2 = locals (get_default sl rt p).2 ∧
  same_owners (mem (get_default sl rt p).2) (mem r.2) ∧
  ∀ e, (get_default sl rt p).1 = Throw e → r = (Throw e, (get_default sl rt p).2).

(** A pool that caches what is given back to it: [allocate] takes
    nothing from the cache, [deallocate] adds the block to it. *)
Definition cache_block (n : N) (b : block) : block :=
  {| owners := owners b; dead := dead b; unused := unused b + n |}.

Definition sample_allocate (r : memory_resource) (n : N) (h : heap) : outcome unit * heap :=
  (Ret tt, h).

Definition sample_deallocate (r : memory_resource) (n : N) (h : heap) : outcome unit * heap :=
  (Ret tt, alter (cache_block n) (mr_addr r) h).

(** The control block of an object that was destroyed by its last
    owner. *)
Definition released (b : block) : Prop := owners b = 0%nat ∧ dead b = true.

(** ** What comes between two lookups of a slot *)

(** The calls that leave the slot [sl] to the lookups: every lookup and
    trim, an override of another slot, and the reset of the device table
    when [sl] is not a device slot.  An override of [sl] itself, the
    reset for a device slot and the teardown do not. *)
Definition spares (sl : slot) (c : platform * interface_call) : Prop :=
  match c.2 with
  | do_lookup _ => True
  | do_override o _ => indexed (slot_of o) ∧ slot_of o ≠ sl
  | do_override_current_device _ =>
      ∀ d, cudaGetDevice c.1 = (cudaSuccess, d) → 0 ≤ d ∧ device_slot d ≠ sl
  | do_reset_devices => ∀ d, sl ≠ device_slot d
  | do_teardown => False
  end.

(** ** The stage a trim reaches, in the words of the specification *)








(** * Proofs *)

(** ** Tactics *)

(** Unfold the monad so that a call becomes a term on the state. *)
Ltac munfold :=
  repeat progress
    (unfold bind, ret, throw, ask, read, modify, unwinding, by_value,
       CUDA_CALL, external in *;
     cbn beta iota in *).

(** Symbolic execution: follow every branch of the calls in the context. *)
Ltac exec :=
  repeat (munfold; simpl in *; try case_match; simplify_eq).

Ltac use_equations :=
  repeat match goal with H : ?a = _ |- context [?a] => rewrite H end.

Ltac by_flags :=
  repeat match goal with
    | b : bool |- _ => destruct b; simpl in *; try discriminate
    | H : negb ?b = _ |- _ => destruct b; simpl in *; try discriminate
    | H : _ && _ = _ |- _ => rewrite H
    end.

(** ** Frame rules *)

Section Frame.
Context (I : process → Prop).

Lemma preserves_ret {A} (a : A) : preserves I (ret a).
Proof. by intros rt p. Qed.

Lemma preserves_throw {A} e : preserves I (throw (A := A) e).
Proof. by intros rt p. Qed.

Lemma preserves_ask : preserves I ask.
Proof. by intros rt p. Qed.

Lemma preserves_read {A} (f : process → A) : preserves I (read f).
Proof. by intros rt p. Qed.

Lemma preserves_modify f : (∀ p, I p → I (f p)) → preserves I (modify f).
Proof. intros Hf rt p; apply Hf. Qed.

Lemma preserves_bind {A B} (m : M A) (k : A → M B) :
  preserves I m → (∀ a, preserves I (k a)) → preserves I (bind m k).
Proof.
  intros Hm Hk rt p Hp. unfold bind.
  specialize (Hm rt p Hp). destruct (m rt p) as [[a|e] p']; simpl in *; [|done].
  by apply Hk.
Qed.

Lemma preserves_unwinding {A} (m : M A) undo :
  preserves I m → (∀ p, I p → I (undo p)) → preserves I (unwinding m undo).
Proof.
  intros Hm Hu rt p Hp. unfold unwinding.
  specialize (Hm rt p Hp). destruct (m rt p) as [[a|e] p']; simpl in *; auto.
Qed.

Lemma preserves_CUDA_CALL {A} (call : platform → cudaError_t * A) :
  preserves I (CUDA_CALL call).
Proof. intros rt p Hp. munfold. by destruct (call rt) as [[] ?]. Qed.

Lemma preserves_external call : preserves I (external call).
Proof. intros rt p Hp. munfold. by destruct (call rt). Qed.

Lemma preserves_DeviceGuard {A} d (scope : M A) :
  preserves I scope → preserves I (DeviceGuard d scope).
Proof.
  intros Hs. unfold DeviceGuard. apply preserves_bind; [apply preserves_external|].
  intros _ rt p Hp. by apply Hs.
Qed.
End Frame.

Create HintDb frame discriminated.
#[export] Hint Resolve preserves_ret preserves_throw preserves_ask preserves_read
  preserves_CUDA_CALL preserves_external : frame.

Ltac frame_step :=
  match goal with
  | |- preserves _ (bind _ _) => apply preserves_bind; [|intros ?]
  | |- preserves _ (DeviceGuard _ _) => apply preserves_DeviceGuard
  | |- preserves _ (unwinding _ _) => apply preserves_unwinding; [|intros ? ?]
  | |- preserves _ (modify _) => apply preserves_modify; intros ? ?
  | |- preserves _ (match ?x with _ => _ end) => destruct x
  | |- preserves _ _ => solve [eauto with frame]
  end.

(** Calls are opened up to the primitives of the monad; what remains are
    the state updates, to be checked against the invariant at hand. *)
Ltac frame_open :=
  match goal with
  | |- preserves _ ?m =>
      match m with
      | make_shared _ _ => unfold make_shared
      | static_resource _ _ _ => unfold static_resource
      | return_copy _ => unfold return_copy
      | assign _ _ _ => unfold assign
      | static_once _ _ => unfold static_once
      | CUDARTLoader => unfold CUDARTLoader
      | InitDeviceResArray => unfold InitDeviceResArray
      | CheckDeviceIndex _ => unfold CheckDeviceIndex
      | Release _ _ => unfold Release, Abandon
      | ReleasePinned => unfold ReleasePinned
      | ReleaseManaged => unfold ReleaseManaged
      | ReleaseDevice => unfold ReleaseDevice
      | ReleaseHost => unfold ReleaseHost
      | DefaultResources_dtor => unfold DefaultResources_dtor
      | CreateDefaultHostResource => unfold CreateDefaultHostResource
      | CreateDefaultDeviceResource => unfold CreateDefaultDeviceResource
      | CreateDefaultPinnedResource => unfold CreateDefaultPinnedResource
      | CreateDefaultManagedResource => unfold CreateDefaultManagedResource
      | if_empty _ _ => unfold if_empty
      | ShareDefaultResourceImpl_host => unfold ShareDefaultResourceImpl_host
      | ShareDefaultResourceImpl_pinned => unfold ShareDefaultResourceImpl_pinned
      | ShareDefaultResourceImpl_managed => unfold ShareDefaultResourceImpl_managed
      | ShareDefaultResourceImpl_device => unfold ShareDefaultResourceImpl_device
      | ShareDefaultResourceImpl _ => unfold ShareDefaultResourceImpl
      | device_at _ => unfold device_at
      | device_assign _ _ => unfold device_assign
      | ShareDefaultDeviceResourceImpl _ => unfold ShareDefaultDeviceResourceImpl
      | by_value _ _ => unfold by_value
      | SetDefaultResource_host _ => unfold SetDefaultResource_host
      | SetDefaultResource_pinned _ => unfold SetDefaultResource_pinned
      | SetDefaultResource_device _ => unfold SetDefaultResource_device
      | SetDefaultDeviceResource _ _ => unfold SetDefaultDeviceResource
      | _Test_FreeDeviceResources => unfold _Test_FreeDeviceResources
      | ShareDefaultResource _ => unfold ShareDefaultResource
      | GetDefaultResource _ => unfold GetDefaultResource
      | ShareDefaultDeviceResource _ => unfold ShareDefaultDeviceResource
      | GetDefaultDeviceResource _ => unfold GetDefaultDeviceResource
      | trim _ => unfold trim
      | ReleaseUnusedMemory => unfold ReleaseUnusedMemory
      | run_lookup _ => unfold run_lookup
      | use_flag _ => unfold use_flag
      | UseDeviceMemoryPool => unfold UseDeviceMemoryPool
      | UsePinnedMemoryPool => unfold UsePinnedMemoryPool
      | UseVMM => unfold UseVMM
      | cached_flag _ _ _ => unfold cached_flag
      | share_default _ => unfold share_default
      | set_default _ _ => unfold set_default
      end
  end.

Ltac frame_basic := repeat first [frame_step | frame_open].

Lemma preserves_for_each {A} I (body : A → M unit) l :
  (∀ i, preserves I (body i)) → preserves I (for_each body l).
Proof. intros Hb. induction l; simpl; frame_basic. Qed.

Ltac frame_all :=
  repeat first
    [ frame_step | frame_open
    | match goal with
      | |- preserves _ (for_each _ _) => apply preserves_for_each; intros ?
      end ].

(** ** The configuration flags (C7) *)

Lemma cached_flag_keeps_flags f v name value set_value :
  (∀ p v', value (locals p) = None →
           flag_cached f v p → flag_cached f v (with_locals (set_value v') p)) →
  preserves (flag_cached f v) (cached_flag name value set_value).
Proof.
  intros Hset rt p Hp. unfold cached_flag. munfold.
  destruct (value (locals p)) eqn:E; simpl; auto.
Qed.

Lemma UseDeviceMemoryPool_keeps_flags f v : preserves (flag_cached f v) UseDeviceMemoryPool.
Proof.
  apply cached_flag_keeps_flags. unfold flag_cached.
  intros p v' E. destruct f; simpl; congruence.
Qed.

Lemma UsePinnedMemoryPool_keeps_flags f v : preserves (flag_cached f v) UsePinnedMemoryPool.
Proof.
  apply cached_flag_keeps_flags. unfold flag_cached.
  intros p v' E. destruct f; simpl; congruence.
Qed.

Lemma UseVMM_keeps_flags f v : preserves (flag_cached f v) UseVMM.
Proof.
  apply cached_flag_keeps_flags. unfold flag_cached.
  intros p v' E. destruct f; simpl; congruence.
Qed.
#[export] Hint Resolve UseDeviceMemoryPool_keeps_flags UsePinnedMemoryPool_keeps_flags
  UseVMM_keeps_flags : frame.

Ltac flag_frame :=
  frame_all; try (unfold flag_cached in *; match goal with f : config_flag |- _ =>
    destruct f; simpl in *; assumption end).

Lemma run_call_keeps_flags f v c : preserves (flag_cached f v) (run_call c).
Proof.
  destruct c as [[]| [] | | |]; simpl. 
  all: flag_frame.
Qed.

Lemma run_calls_keep_flags f v cs p :
  flag_cached f v p → flag_cached f v (run_calls cs p).
Proof.
  revert p. induction cs as [|[rt c] cs IH]; intros p Hp; simpl; [done|].
  apply IH. by apply run_call_keeps_flags.
Qed.

Lemma read_flag_enabled name rt :
  read_flag name rt = true ↔
  getenv rt name = None ∨ ∃ env, getenv rt name = Some env ∧ atoi env ≠ 0.
Proof.
  unfold read_flag. destruct (getenv rt name) as [env|]; [|by intuition].
  destruct (Z.eqb_spec (atoi env) 0) as [E|E]; simpl; split.
  - done.
  - intros [?|(env' & ? & ?)]; simplify_eq.
  - intros _. right. by exists env.
  - done.
Qed.

Lemma use_flag_unfold f :
  use_flag f = cached_flag (flag_variable f) (flag_value f)
                 (match f with
                  | device_pool_enable => set_UseDeviceMemoryPool_value
                  | pinned_pool_enable => set_UsePinnedMemoryPool_value
                  | vmm_enable => set_UseVMM_value
                  end).
Proof. by destruct f. Qed.

Lemma use_flag_cached f v rt p :
  flag_cached f v p → use_flag f rt p = (Ret v, p).
Proof.
  unfold flag_cached. intros E. rewrite use_flag_unfold. unfold cached_flag. munfold.
  by rewrite E.
Qed.

Lemma use_flag_first f rt p :
  flag_value f (locals p) = None →
  ∃ p', use_flag f rt p = (Ret (read_flag (flag_variable f) rt), p') ∧
        flag_cached f (read_flag (flag_variable f) rt) p'.
Proof.
  intros E. rewrite use_flag_unfold. unfold cached_flag. munfold. rewrite E.
  eexists; split; [done|]. unfold flag_cached. by destruct f.
Qed.

(** Which values [atoi] takes to zero: those whose [long] is a multiple
    of 2^32. *)
Lemma int_of_long_zero (v : Z) : int_of_long v = 0 ↔ v mod 2 ^ 32 = 0.
Proof. unfold int_of_long. split; intros E; Z.div_mod_to_equations; lia. Qed.

Lemma atoi_zero (env : string) : atoi env = 0 ↔ strtol env mod 2 ^ 32 = 0.
Proof. apply int_of_long_zero. Qed.

Lemma atoi_is_an_int (env : string) : - 2 ^ 31 ≤ atoi env < 2 ^ 31.
Proof. unfold atoi, int_of_long. Z.div_mod_to_equations. lia. Qed.

(** C7, as amended: each flag is read from the environment by the first
    call only and cached; it is enabled exactly when the variable is unset
    or [atoi] of its value is not zero, that is when the [long] that
    [strtol] reads from it is not a multiple of 2^32; no later call of
    the flag or of the interface changes the cached value, whatever the
    environment has become. *)
Theorem flag_read_once_through_atoi (f : config_flag) (rt : platform) (p : process) :
  ∃ v p1,
    use_flag f rt p = (Ret v, p1) ∧
    flag_cached f v p1 ∧
    (flag_value f (locals p) = None →
       (v = true ↔ getenv rt (flag_variable f) = None ∨
                   ∃ env, getenv rt (flag_variable f) = Some env ∧ atoi env ≠ 0)) ∧
    (∀ env, atoi env ≠ 0 ↔ strtol env mod 2 ^ 32 ≠ 0) ∧
    (∀ v0, flag_cached f v0 p → v = v0 ∧ p1 = p) ∧
    (∀ cs rt', use_flag f rt' (run_calls cs p1) = (Ret v, run_calls cs p1)).
Proof.
  destruct (flag_value f (locals p)) as [v0|] eqn:E.
  - exists v0, p. rewrite (use_flag_cached f v0 rt p E).
    split_and!; try done.
    + intros env. by rewrite atoi_zero.
    + unfold flag_cached. intros v1 ?. split; congruence.
    + intros cs rt'. by apply use_flag_cached, run_calls_keep_flags.
  - destruct (use_flag_first f rt p E) as (p' & Hrun & Hc).
    exists (read_flag (flag_variable f) rt), p'. split_and!; try done.
    + intros _. apply read_flag_enabled.
    + intros env. by rewrite atoi_zero.
    + unfold flag_cached. intros; congruence.
    + intros cs rt'. by apply use_flag_cached, run_calls_keep_flags.
Qed.

Lemma flag_read_once_through_atoi_witness :
  ∃ p1,
    use_flag vmm_enable
      (with_getenv (setenv "DALI_USE_VMM" "1") two_devices) initial_process = (Ret true, p1) ∧
    use_flag vmm_enable
      (with_getenv (setenv "DALI_USE_VMM" "0") two_devices) p1 = (Ret true, p1).
Proof.
  destruct (flag_read_once_through_atoi vmm_enable
              (with_getenv (setenv "DALI_USE_VMM" "1") two_devices) initial_process)
    as (v & p1 & Hrun & _ & _ & _ & _ & Hlater).
  exists p1. vm_compute in Hrun. simplify_eq. split; [done|].
  apply (Hlater []).
Defined.

(** C7 as stated fails: a variable set to a word, to a number that is
    not zero but does not start with a non-zero integer, or to a
    non-zero multiple of 2^32, is not set to zero, and yet the flag is
    disabled. *)
Lemma flag_disabled_by_a_word :
  getenv (with_getenv (setenv "DALI_USE_DEVICE_MEM_POOL" "off") two_devices)
    (flag_variable device_pool_enable) = Some "off" ∧
  "off" ≠ "0" ∧
  (use_flag device_pool_enable
     (with_getenv (setenv "DALI_USE_DEVICE_MEM_POOL" "off") two_devices)
     initial_process).1 = Ret false ∧
  getenv (with_getenv (setenv "DALI_USE_VMM" "0.5") two_devices)
    (flag_variable vmm_enable) = Some "0.5" ∧
  (use_flag vmm_enable
     (with_getenv (setenv "DALI_USE_VMM" "0.5") two_devices)
     initial_process).1 = Ret false ∧
  getenv (with_getenv (setenv "DALI_USE_PINNED_MEM_POOL" "4294967296") two_devices)
    (flag_variable pinned_pool_enable) = Some "4294967296" ∧
  (use_flag pinned_pool_enable
     (with_getenv (setenv "DALI_USE_PINNED_MEM_POOL" "4294967296") two_devices)
     initial_process).1 = Ret false.
Proof. split_and!; try reflexivity. discriminate. Qed.

(** ** Negative device indices (C10) *)

Lemma substitute_current_device {A} (d c : Z) (k : Z → M A) rt p :
  d < 0 → cudaGetDevice rt = (cudaSuccess, c) →
  bind (if d <? 0 then CUDA_CALL cudaGetDevice else ret d) k rt p =
  bind (if c <? 0 then CUDA_CALL cudaGetDevice else ret c) k rt p.
Proof.
  intros Hd Hc.
  destruct (Z.ltb_spec d 0); [|lia]. munfold.
  rewrite Hc. destruct (c <? 0); simpl; [by rewrite Hc|done].
Qed.

Lemma current_device_unknown {A} (d : Z) (k : Z → M A) code v rt p :
  d < 0 → cudaGetDevice rt = (code, v) → code ≠ cudaSuccess →
  bind (if d <? 0 then CUDA_CALL cudaGetDevice else ret d) k rt p =
  (Throw (CUDAError code), p).
Proof.
  intros Hd Hc Hne.
  destruct (Z.ltb_spec d 0); [|lia]. munfold.
  rewrite Hc. by destruct code.
Qed.

(** C10: a negative index is replaced by the current device id before
    anything else happens: the three calls behave as on that id, and when
    the current device cannot be told they fail with the CUDA error, not
    with a range error. *)
Theorem negative_index_means_current_device
    (d : Z) (rt : platform) (p : process) (H : shared_ptr) :
  d < 0 →
  (∀ c, cudaGetDevice rt = (cudaSuccess, c) →
     ShareDefaultDeviceResource d rt p = ShareDefaultDeviceResource c rt p ∧
     GetDefaultDeviceResource d rt p = GetDefaultDeviceResource c rt p ∧
     SetDefaultDeviceResource d H rt p = SetDefaultDeviceResource c H rt p) ∧
  (∀ code v, cudaGetDevice rt = (code, v) → code ≠ cudaSuccess →
     ShareDefaultDeviceResource d rt p = (Throw (CUDAError code), p) ∧
     GetDefaultDeviceResource d rt p = (Throw (CUDAError code), p) ∧
     SetDefaultDeviceResource d H rt p =
       (Throw (CUDAError code), with_mem (sp_release H) p)).
Proof.
  intros Hd. split.
  - intros c Hc.
    assert (ShareDefaultDeviceResourceImpl d rt p = ShareDefaultDeviceResourceImpl c rt p) as E
      by (unfold ShareDefaultDeviceResourceImpl; by apply substitute_current_device).
    split_and!.
    + unfold ShareDefaultDeviceResource, bind at 1 3. by rewrite E.
    + unfold GetDefaultDeviceResource, bind. by rewrite E.
    + unfold SetDefaultDeviceResource, by_value, unwinding.
      by rewrite (substitute_current_device d c _ rt p Hd Hc).
  - intros code v Hc Hne.
    assert (ShareDefaultDeviceResourceImpl d rt p = (Throw (CUDAError code), p)) as E
      by (unfold ShareDefaultDeviceResourceImpl; by eapply current_device_unknown).
    split_and!.
    + unfold ShareDefaultDeviceResource, bind at 1. by rewrite E.
    + unfold GetDefaultDeviceResource, bind. by rewrite E.
    + unfold SetDefaultDeviceResource, by_value, unwinding.
      by rewrite (current_device_unknown d _ code v rt p Hd Hc Hne).
Qed.

Lemma negative_index_means_current_device_witness :
  ShareDefaultDeviceResource (-7) two_devices initial_process =
  ShareDefaultDeviceResource 0 two_devices initial_process.
Proof.
  refine (proj1 (proj1 (negative_index_means_current_device (-7) two_devices
                          initial_process None _) 0 _)).
  - lia.
  - reflexivity.
Defined.

(** ** Construction strategies (C5, C6) *)

Ltac open_constructors :=
  unfold CreateDefaultDeviceResource, CreateDefaultPinnedResource,
    CreateDefaultHostResource, CreateDefaultManagedResource,
    static_resource, return_copy, static_once, CUDARTLoader, DeviceGuard,
    UseDeviceMemoryPool, UsePinnedMemoryPool, UseVMM, cached_flag,
    make_shared, make_shared_composite_resource in *.

Lemma CreateDefaultDeviceResource_strategy rt p x p' :
  CreateDefaultDeviceResource rt p = (Ret x, p') →
  ∃ dev, cudaGetDevice rt = (cudaSuccess, dev) ∧
    device_built_as
      (select_device_strategy (flag_setting device_pool_enable rt p)
         (DALI_USE_CUDA_VM_MAP rt && cuvm_IsSupported rt)
         (flag_setting vmm_enable rt p)) dev x.
Proof.
  open_constructors. intros E. exec.
  all: eexists; (split; [done|]).
  all: unfold flag_setting, select_device_strategy; simpl.
  all: use_equations; simpl; by_flags; simpl; eauto.
Qed.

(** Symbolic execution of the goal on a platform known to be healthy. *)
Ltac exec_healthy Hc Hg He Hn :=
  repeat (munfold; simpl; rewrite ?Hc, ?Hg, ?He, ?Hn; try case_match; simplify_eq);
  try match goal with
      | H : DeviceGuard_ctor _ _ = Some _ |- _ => rewrite Hg in H; discriminate
      | H : construct _ _ = Some _ |- _ => rewrite Hn in H; discriminate
      end.

Lemma CreateDefaultDeviceResource_returns rt p :
  healthy rt → ∃ x p', CreateDefaultDeviceResource rt p = (Ret x, p').
Proof.
  intros ((c & Hc) & Hg & He & Hn).
  open_constructors. exec_healthy Hc Hg He Hn.
  all: eauto.
Qed.

(** C5: which allocator the device construction builds is decided by the
    pool flag first, then by mapping support and the mapping preference;
    and on a platform whose calls succeed it does build one. *)
Theorem device_strategy_by_flags (rt : platform) (p : process) :
  (∀ x p', CreateDefaultDeviceResource rt p = (Ret x, p') →
     ∃ dev, cudaGetDevice rt = (cudaSuccess, dev) ∧
       device_built_as
         (select_device_strategy (flag_setting device_pool_enable rt p)
            (DALI_USE_CUDA_VM_MAP rt && cuvm_IsSupported rt)
            (flag_setting vmm_enable rt p)) dev x) ∧
  (healthy rt → ∃ x p', CreateDefaultDeviceResource rt p = (Ret x, p')) ∧
  (∀ mapping vmm, select_device_strategy false mapping vmm = plain_device) ∧
  select_device_strategy true true true = mapped_pool ∧
  (∀ mapping vmm, mapping && vmm = false →
     select_device_strategy true mapping vmm = tree_pool_over_plain_device).
Proof.
  split_and!.
  - apply CreateDefaultDeviceResource_strategy.
  - apply CreateDefaultDeviceResource_returns.
  - done.
  - done.
  - intros mapping vmm E. unfold select_device_strategy. simpl. by rewrite E.
Qed.

Lemma two_devices_healthy : healthy two_devices.
Proof. split_and!; try done. by exists 0. Qed.

Lemma healthy_with_getenv env rt : healthy rt → healthy (with_getenv env rt).
Proof. intros (? & ? & ? & ?). by split_and!. Qed.

Lemma device_strategy_by_flags_witness :
  (∃ p',
     CreateDefaultDeviceResource two_devices initial_process =
     (Ret {| get := MR 1%nat (async_pool_tree_resource memory_kind.device)
                      (Some (MR 0%nat (cuda_malloc_memory_resource 0) None));
             kept := [MR 0%nat (cuda_malloc_memory_resource 0) None] |}, p')) ∧
  (∃ x p',
     CreateDefaultDeviceResource
       (with_getenv (setenv "DALI_USE_DEVICE_MEM_POOL" "4294967296") two_devices)
       initial_process = (Ret x, p') ∧
     device_built_as plain_device 0 x).
Proof.
  split.
  - destruct (proj1 (proj2 (device_strategy_by_flags two_devices initial_process))
                two_devices_healthy) as (x & p' & E).
    exists p'. vm_compute in E. by simplify_eq.
  - destruct (device_strategy_by_flags
                (with_getenv (setenv "DALI_USE_DEVICE_MEM_POOL" "4294967296") two_devices)
                initial_process) as (Hshape & Hret & _).
    destruct (Hret (healthy_with_getenv _ _ two_devices_healthy)) as (x & p' & E).
    exists x, p'. split; [done|].
    destruct (Hshape x p' E) as (dev & Hdev & Hbuilt).
    vm_compute in Hdev. simplify_eq. exact Hbuilt.
Defined.

Lemma CreateDefaultPinnedResource_strategy rt p x p' :
  statics_typed p →
  CreateDefaultPinnedResource rt p = (Ret x, p') →
  pinned_built_as (select_pinned_strategy (flag_setting pinned_pool_enable rt p)) x.
Proof.
  intros (_ & Hplain & Hpool & _).
  open_constructors. intros E. exec.
  all: unfold flag_setting, select_pinned_strategy; simpl.
  all: use_equations; simpl; by_flags; simpl; eauto.
  all: repeat match goal with
         | H : ?s = Some ?x, T : is_plain _ ?s |- _ =>
             destruct (T x H) as [? ->]; clear T
         end; simpl; eauto.
Qed.

Lemma CreateDefaultPinnedResource_returns rt p :
  healthy rt → ∃ x p', CreateDefaultPinnedResource rt p = (Ret x, p').
Proof.
  intros ((c & Hc) & Hg & He & Hn).
  open_constructors. exec_healthy Hc Hg He Hn.
  all: eauto.
Qed.

(** ** The heap *)

Arguments sp_copy : simpl never.
Arguments sp_release : simpl never.

Lemma alive_allocate_old (h : heap) (a : addr) : alive h a → alive (allocate h) a.
Proof.
  intros (b & Hb & ?). exists b. split; [|done].
  unfold allocate. by apply lookup_app_l_Some.
Qed.

Lemma alive_allocate_new (h : heap) : alive (allocate h) (length h).
Proof.
  eexists. split; [apply list_lookup_middle; done|]. simpl. split; [lia|done].
Qed.

Lemma lookup_alter_add_owner (h : heap) (a a' : addr) (b : block) :
  h !! a' = Some b →
  ∃ b', alter add_owner a h !! a' = Some b' ∧
        (owners b ≤ owners b')%nat ∧ dead b' = dead b ∧
        (a = a' → owners b' = S (owners b)).
Proof.
  intros Hb. destruct (decide (a = a')) as [->|Hne].
  - exists (add_owner b). rewrite list_lookup_alter_eq, Hb. simpl.
    split_and!; auto.
  - exists b. rewrite list_lookup_alter_ne by done. split_and!; auto. done.
Qed.

Lemma alive_sp_copy (h : heap) (s : shared_ptr) (a : addr) : alive h a → alive (sp_copy s h) a.
Proof.
  intros (b & Hb & ? & ?). destruct s as [x|]; [|by exists b].
  destruct (lookup_alter_add_owner h (mr_addr (get x)) a b Hb) as (b' & ? & ? & ? & _).
  exists b'. split_and!; [done|lia|congruence].
Qed.

Lemma length_allocate (h : heap) : length (allocate h) = S (length h).
Proof. unfold allocate. rewrite length_app. simpl. lia. Qed.

Lemma shared_sp_copy (h : heap) (x : handle) (a : addr) :
  a = mr_addr (get x) → alive h a → shared (sp_copy (Some x) h) a.
Proof.
  intros -> (b & Hb & ? & ?).
  destruct (lookup_alter_add_owner h (mr_addr (get x)) _ b Hb) as (b' & ? & ? & ? & Ho).
  exists b'. split_and!; [done| rewrite Ho by done; lia |congruence].
Qed.

Lemma alive_lt (h : heap) (a : addr) : alive h a → (a < length h)%nat.
Proof. intros (b & Hb & _). by eapply lookup_lt_Some. Qed.

Lemma alive_shared (h : heap) (a : addr) : shared h a → alive h a.
Proof. intros (b & ? & ? & ?). exists b. split_and!; [done|lia|done]. Qed.

Lemma shared_drop_ref_other (h : heap) (a a' : addr) :
  a ≠ a' → shared h a → shared (drop_ref a' h) a.
Proof.
  intros Hne (b & ? & ? & ?). exists b. unfold drop_ref.
  by rewrite list_lookup_alter_ne.
Qed.

Lemma alive_drop_ref_shared (h : heap) (a : addr) :
  shared h a → alive (drop_ref a h) a.
Proof.
  intros (b & Hb & Ho & Hd). exists (remove_owner b). unfold drop_ref.
  rewrite list_lookup_alter_eq, Hb. split; [done|].
  unfold remove_owner. destruct (owners b) as [|[|n]]; simpl; [lia|lia|].
  split; [lia|done].
Qed.

(** Symbolic heaps: the liveness facts that follow from the context. *)
Ltac heap_facts :=
  repeat match goal with
    | |- alive (sp_copy _ _) _ => apply alive_sp_copy
    | |- alive (allocate ?h) (length ?h) => apply alive_allocate_new
    | |- alive (allocate _) _ => apply alive_allocate_old
    | |- shared (sp_copy (Some _) _) _ => apply shared_sp_copy; [reflexivity|]
    | |- alive _ _ => assumption
    | |- _ ≠ _ => rewrite ?length_allocate; lia
    end.

Ltac use_typed_statics :=
  repeat match goal with
    | H : ?s = Some ?x, T : is_plain _ ?s |- _ =>
        let E := fresh in
        destruct (T x H) as [? E]; clear T; rewrite E in *; clear E
    end.

Lemma CreateDefaultPinnedResource_owners rt p x p' :
  statics_typed p → held_alive p →
  CreateDefaultPinnedResource rt p = (Ret x, p') →
  alive (mem p') (mr_addr (get x)) ∧
  ∀ u, u ∈ kept x → shared (mem p') (mr_addr u) ∧ mr_addr u ≠ mr_addr (get x).
Proof.
  intros (_ & Hplain & Hpool & _) Hheld. open_constructors. intros E. exec.
  all: try match goal with
         | H : pinned_upstream_plain (locals ?p) = Some ?x |- _ =>
             assert (alive (mem p) (mr_addr (get x))) by (apply Hheld; auto 10)
         | H : pinned_upstream_pool (locals ?p) = Some ?x |- _ =>
             assert (alive (mem p) (mr_addr (get x))) by (apply Hheld; auto 10)
         end.
  all: use_typed_statics; simpl in *.
  all: (split; [|intros u Hu; try (by apply elem_of_nil in Hu);
                 apply list_elem_of_singleton in Hu; subst u; simpl; split]).
  all: try solve [heap_facts].
  all: try match goal with
         | H : alive ?h ?a |- ?a ≠ length ?h => apply alive_lt in H; lia
         end.
Qed.

(** Releasing a composite handle, even as its last owner, leaves the
    upstream it kept valid as long as the upstream has another owner. *)
Lemma upstream_survives_release (h : heap) (x : handle) (u : memory_resource) :
  kept x = [u] → shared h (mr_addr u) → mr_addr u ≠ mr_addr (get x) →
  alive (sp_release (Some x) h) (mr_addr u).
Proof.
  intros Hk Hs Hne. unfold sp_release. rewrite Hk.
  destruct (last_owner h (mr_addr (get x))); simpl.
  - by apply alive_drop_ref_shared, shared_drop_ref_other.
  - by apply alive_shared, shared_drop_ref_other.
Qed.

(** C6: the pinned construction builds the plain pinned allocator when
    the pinned-pool flag is off and otherwise a tree pool over a plain
    pinned upstream, in a composite handle that keeps the upstream: when
    the handle is released the upstream is still valid. *)
Theorem pinned_strategy_by_flag (rt : platform) (p : process) :
  statics_typed p →
  (∀ x p', CreateDefaultPinnedResource rt p = (Ret x, p') →
     pinned_built_as (select_pinned_strategy (flag_setting pinned_pool_enable rt p)) x ∧
     (held_alive p →
      ∀ u, u ∈ kept x → alive (sp_release (Some x) (mem p')) (mr_addr u))) ∧
  (healthy rt → ∃ x p', CreateDefaultPinnedResource rt p = (Ret x, p')) ∧
  select_pinned_strategy false = plain_pinned ∧
  select_pinned_strategy true = tree_pool_over_plain_pinned.
Proof.
  intros Ht. split_and!; try done.
  - intros x p' E.
    pose proof (CreateDefaultPinnedResource_strategy rt p x p' Ht E) as Hs.
    split; [done|]. intros Hheld u Hu.
    destruct (CreateDefaultPinnedResource_owners rt p x p' Ht Hheld E) as [_ Hk].
    destruct (Hk u Hu) as [Hsh Hne].
    apply upstream_survives_release; [|done..].
    destruct (select_pinned_strategy _); simpl in Hs.
    + destruct Hs as [a ->]. by apply elem_of_nil in Hu.
    + destruct Hs as (a & a' & ->). simpl in *.
      apply list_elem_of_singleton in Hu. by subst.
  - by apply CreateDefaultPinnedResource_returns.
Qed.

Lemma initial_statics_typed : statics_typed initial_process.
Proof. by split_and!; intros x ?. Qed.

Lemma initial_held_alive : held_alive initial_process.
Proof.
  intros x. simpl. intros [?|[?|[?|[(?&?&?)|[?|[?|[?|?]]]]]]]; discriminate.
Qed.

Lemma pinned_strategy_by_flag_witness :
  (∃ p',
     CreateDefaultPinnedResource two_devices initial_process =
     (Ret {| get := MR 1%nat (async_pool_tree_resource memory_kind.pinned)
                      (Some (MR 0%nat pinned_malloc_memory_resource None));
             kept := [MR 0%nat pinned_malloc_memory_resource None] |}, p') ∧
     alive (sp_release
              (Some {| get := MR 1%nat (async_pool_tree_resource memory_kind.pinned)
                                (Some (MR 0%nat pinned_malloc_memory_resource None));
                       kept := [MR 0%nat pinned_malloc_memory_resource None] |})
              (mem p')) 0%nat) ∧
  (∃ x p',
     CreateDefaultPinnedResource
       (with_getenv (setenv "DALI_USE_PINNED_MEM_POOL" "4294967296") two_devices)
       initial_process = (Ret x, p') ∧
     pinned_built_as plain_pinned x).
Proof.
  split.
  - destruct (pinned_strategy_by_flag two_devices initial_process initial_statics_typed)
      as (Hshape & Hret & _).
    destruct (Hret two_devices_healthy) as (x & p' & E).
    destruct (Hshape x p' E) as [_ Hup].
    exists p'. vm_compute in E. simplify_eq. split; [done|].
    apply (Hup initial_held_alive (MR 0%nat pinned_malloc_memory_resource None)).
    apply list_elem_of_singleton. done.
  - destruct (pinned_strategy_by_flag
                (with_getenv (setenv "DALI_USE_PINNED_MEM_POOL" "4294967296") two_devices)
                initial_process initial_statics_typed) as (Hshape & Hret & _).
    destruct (Hret (healthy_with_getenv _ _ two_devices_healthy)) as (x & p' & E).
    exists x, p'. split; [done|]. exact (proj1 (Hshape x p' E)).
Defined.

(** ** Guarded release (C8) *)










(** ** What a trim does *)

Lemma trim_run slot rt p : trim slot rt p = (Ret tt, with_mem (trim_heap slot) p).
Proof.
  unfold trim, trim_heap. destruct (GetPoolInterface (get <$> slot)); munfold; [done|].
  by destruct p.
Qed.

Lemma foldl_trim_heap (slots : list shared_ptr) (h : heap) :
  foldl (λ h s, trim_heap s h) h slots =
  foldl (λ h pool, release_unused pool h) h
    (omap (λ s : shared_ptr, GetPoolInterface (get <$> s)) slots).
Proof.
  revert h. induction slots as [|s slots IH]; intros h; simpl; [done|].
  rewrite IH. unfold trim_heap. by destruct (GetPoolInterface (get <$> s)).
Qed.

Lemma for_each_trim (arr : list shared_ptr) (n k : nat) rt p :
  (k + n ≤ length arr)%nat →
  for_each (λ i, match arr !! i with
                 | Some slot => trim slot
                 | None => throw undefined_behaviour
                 end) (seq k n) rt p =
  (Ret tt, with_mem (λ h, foldl (λ h s, trim_heap s h) h (take n (drop k arr))) p).
Proof.
  revert k p. induction n as [|n IH]; intros k p Hlen; simpl.
  - munfold. by destruct p.
  - destruct (lookup_lt_is_Some_2 arr k) as [s Hs]; [lia|].
    munfold. rewrite Hs, trim_run. rewrite IH by lia.
    rewrite (drop_S _ _ _ Hs). simpl. done.
Qed.

Lemma ReleaseUnusedMemory_run rt p :
  table_sized p →
  ReleaseUnusedMemory rt p = (Ret tt, with_mem (trim_pools (pools p)) p).
Proof.
  intros Hsized. unfold ReleaseUnusedMemory, pools, trim_pools. munfold.
  destruct (device (g_resources p)) as [arr|] eqn:Harr.
  - rewrite for_each_trim by (specialize (Hsized arr Harr); lia).
    simpl. rewrite trim_run. unfold with_mem; simpl. do 2 f_equal.
    rewrite omap_app, foldl_app, <- !foldl_trim_heap. simpl.
    by rewrite drop_0.
  - rewrite trim_run. unfold with_mem; simpl. do 2 f_equal. unfold trim_heap.
    by destruct (GetPoolInterface (get <$> pinned_async (g_resources p))).
Qed.

Lemma trimmed_idemp b : trimmed (trimmed b) = trimmed b.
Proof. done. Qed.

Lemma lookup_trim_pools (l : list memory_resource) (h : heap) (a : addr) :
  trim_pools l h !! a =
  if bool_decide (a ∈ map mr_addr l) then trimmed <$> h !! a else h !! a.
Proof.
  unfold trim_pools. revert h. induction l as [|r l IH]; intros h; cbn [foldl map].
  - case_bool_decide as Hin; [by apply elem_of_nil in Hin|done].
  - rewrite IH. unfold release_unused.
    destruct (decide (a = mr_addr r)) as [->|Hne].
    + rewrite list_lookup_alter_eq.
      rewrite (bool_decide_eq_true_2 (_ ∈ _ :: _)) by apply list_elem_of_here.
      case_bool_decide; [|done].
      destruct (h !! mr_addr r); simpl; [|done]. by rewrite trimmed_idemp.
    + rewrite list_lookup_alter_ne by done.
      case_bool_decide as Hin.
      * rewrite bool_decide_eq_true_2; [done|]. by apply list_elem_of_further.
      * rewrite bool_decide_eq_false_2; [done|].
        intros Hin'. apply elem_of_cons in Hin'. by destruct Hin'.
Qed.


(** ** Invariants of the reachable states *)

Lemma InitDeviceResArray_sized : preserves table_sized InitDeviceResArray.
Proof.
  intros rt p Hp. unfold InitDeviceResArray. exec; try done.
  intros arr [= <-]. simpl. rewrite length_replicate. lia.
Qed.
#[export] Hint Resolve InitDeviceResArray_sized : frame.

Lemma run_call_sized c : preserves table_sized (run_call c).
Proof.
  destruct c as [[]| [] | | |]; simpl.
  all: frame_all.
  all: try done.
  all: unfold table_sized in *; simpl in *; intros arr' Harr'; try lia.
  all: destruct (device (g_resources p)) as [arr|] eqn:E; simplify_eq/=.
  all: rewrite length_insert; eauto.
Qed.

Lemma reachable_sized p : reachable p → table_sized p.
Proof.
  intros [cs ->]. induction cs as [|[rt c] cs IH] using rev_ind.
  - intros arr; discriminate.
  - unfold run_calls in *. rewrite foldl_app. simpl. by apply run_call_sized.
Qed.

Ltac typed_static_resource :=
  intros rt p (? & ? & ? & ?); unfold static_resource, make_shared; exec;
  try done; split_and!; try done; intros ? ?; simplify_eq/=; eauto.

Lemma host_rsrc_typed :
  preserves statics_typed (static_resource host_rsrc set_host_rsrc malloc_memory_resource).
Proof. typed_static_resource. Qed.

Lemma pinned_upstream_plain_typed :
  preserves statics_typed
    (static_resource pinned_upstream_plain set_pinned_upstream_plain
       pinned_malloc_memory_resource).
Proof. typed_static_resource. Qed.

Lemma pinned_upstream_pool_typed :
  preserves statics_typed
    (static_resource pinned_upstream_pool set_pinned_upstream_pool
       pinned_malloc_memory_resource).
Proof. typed_static_resource. Qed.

Lemma managed_rsrc_typed :
  preserves statics_typed
    (static_resource managed_rsrc set_managed_rsrc managed_malloc_memory_resource).
Proof. typed_static_resource. Qed.
#[export] Hint Resolve host_rsrc_typed pinned_upstream_plain_typed
  pinned_upstream_pool_typed managed_rsrc_typed : frame.

Lemma run_call_typed c : preserves statics_typed (run_call c).
Proof.
  destruct c as [[]| [] | | |]; simpl.
  all: frame_all.
  all: try done.
Qed.

Lemma reachable_typed p : reachable p → statics_typed p.
Proof.
  intros [cs ->]. induction cs as [|[rt c] cs IH] using rev_ind.
  - apply initial_statics_typed.
  - unfold run_calls in *. rewrite foldl_app. simpl. by apply run_call_typed.
Qed.

(** ** Lookups populate empty slots and change nothing else *)

(** Construction does not touch the table. *)
Lemma Create_keeps_table r :
  preserves (table_is r) CreateDefaultHostResource ∧
  preserves (table_is r) CreateDefaultPinnedResource ∧
  preserves (table_is r) CreateDefaultManagedResource ∧
  preserves (table_is r) CreateDefaultDeviceResource ∧
  preserves (table_is r) CUDARTLoader.
Proof. split_and!; frame_all; done. Qed.

Lemma preserves_run {A} I (m : M A) rt p o p' :
  preserves I m → m rt p = (o, p') → I p → I p'.
Proof. intros Hm E Hp. specialize (Hm rt p Hp). by rewrite E in Hm. Qed.

Lemma Create_table {A} (m : M A) rt p o p' :
  (∀ r, preserves (table_is r) m) → m rt p = (o, p') →
  g_resources p' = g_resources p.
Proof. intros Hm E. by apply (preserves_run (table_is (g_resources p)) m rt p o p'). Qed.

(** The table after a constructor ran is the table before. *)
Ltac keep_table :=
  repeat match goal with
    | H : CreateDefaultHostResource _ _ = _ |- _ =>
        apply (Create_table _ _ _ _ _ (λ r, proj1 (Create_keeps_table r))) in H
    | H : CreateDefaultPinnedResource _ _ = _ |- _ =>
        apply (Create_table _ _ _ _ _ (λ r, proj1 (proj2 (Create_keeps_table r)))) in H
    | H : CreateDefaultManagedResource _ _ = _ |- _ =>
        apply (Create_table _ _ _ _ _
                 (λ r, proj1 (proj2 (proj2 (Create_keeps_table r))))) in H
    | H : CreateDefaultDeviceResource _ _ = _ |- _ =>
        apply (Create_table _ _ _ _ _
                 (λ r, proj1 (proj2 (proj2 (proj2 (Create_keeps_table r)))))) in H
    | H : CUDARTLoader _ _ = _ |- _ =>
        apply (Create_table _ _ _ _ _
                 (λ r, proj2 (proj2 (proj2 (proj2 (Create_keeps_table r)))))) in H
    end.

Ltac same_table :=
  keep_table; simpl in *;
  repeat match goal with H : g_resources _ = g_resources _ |- _ => rewrite H in * end.

Ltac grows :=
  first [ apply grows_refl
        | by apply grows_host
        | by apply grows_pinned
        | by apply grows_managed ].

(** Replace the device table by its known value everywhere. *)
Ltac known_table :=
  repeat match goal with
    | H : device ?r = _, H' : context [device ?r] |- _ =>
        lazymatch H' with
        | H => fail
        | _ => rewrite H in H'
        end
    | H : device ?r = _ |- context [device ?r] => rewrite H
    end.

Lemma ShareDefaultResourceImpl_host_grows rt p :
  table_grows (g_resources p) (g_resources (ShareDefaultResourceImpl_host rt p).2).
Proof.
  unfold ShareDefaultResourceImpl_host, if_empty, assign.
  exec; same_table; grows.
Qed.

Lemma ShareDefaultResourceImpl_pinned_grows rt p :
  table_grows (g_resources p) (g_resources (ShareDefaultResourceImpl_pinned rt p).2).
Proof.
  unfold ShareDefaultResourceImpl_pinned, if_empty, assign, static_once.
  exec; same_table; grows.
Qed.

Lemma ShareDefaultResourceImpl_managed_grows rt p :
  table_grows (g_resources p) (g_resources (ShareDefaultResourceImpl_managed rt p).2).
Proof.
  unfold ShareDefaultResourceImpl_managed, if_empty, assign, static_once.
  exec; same_table; grows.
Qed.

Lemma InitDeviceResArray_grows rt p :
  table_grows (g_resources p) (g_resources (InitDeviceResArray rt p).2).
Proof.
  unfold InitDeviceResArray. exec; try grows.
  apply grows_sized; [done|lia].
Qed.

Lemma ShareDefaultDeviceResourceImpl_grows d rt p :
  table_grows (g_resources p) (g_resources (ShareDefaultDeviceResourceImpl d rt p).2).
Proof.
  unfold ShareDefaultDeviceResourceImpl.
  unfold bind at 1. destruct (_ rt p) as [[d'|e] p0] eqn:E0.
  2:{ destruct (d <? 0); munfold; exec; grows. }
  assert (p0 = p) as -> by (destruct (d <? 0); munfold; exec; done).
  unfold bind at 1.
  pose proof (InitDeviceResArray_grows rt p) as Hinit.
  destruct (InitDeviceResArray rt p) as [[[]|e] p1] eqn:E1; simpl in Hinit; [|done].
  eapply grows_trans; [exact Hinit|]. clear Hinit E1 E0.
  unfold CheckDeviceIndex, device_assign, device_at, DeviceGuard, static_once.
  exec; same_table; try grows.
  all: known_table; simplify_eq/=; by eapply grows_device.
Qed.

Lemma run_lookup_grows c rt p :
  table_grows (g_resources p) (g_resources (run_lookup c rt p).2).
Proof.
  assert (∀ Kind rt p,
    table_grows (g_resources p) (g_resources (ShareDefaultResourceImpl Kind rt p).2)) as HK.
  { intros [] ??; simpl.
    - apply ShareDefaultResourceImpl_host_grows.
    - apply ShareDefaultResourceImpl_pinned_grows.
    - apply ShareDefaultDeviceResourceImpl_grows.
    - apply ShareDefaultResourceImpl_managed_grows. }
  destruct c as [Kind|Kind|d|d|]; simpl.
  - unfold ShareDefaultResource. specialize (HK Kind rt p). exec; done.
  - unfold GetDefaultResource. specialize (HK Kind rt p). exec; done.
  - unfold ShareDefaultDeviceResource.
    pose proof (ShareDefaultDeviceResourceImpl_grows d rt p). exec; done.
  - unfold GetDefaultDeviceResource.
    pose proof (ShareDefaultDeviceResourceImpl_grows d rt p). exec; done.
  - assert (preserves (table_is (g_resources p)) ReleaseUnusedMemory) as Hsame
      by (frame_all; done).
    rewrite (Hsame rt p eq_refl). apply grows_refl.
Qed.

Lemma run_lookups_grow cs p :
  table_grows (g_resources p) (g_resources (run_lookups cs p)).
Proof.
  revert p. induction cs as [|[rt c] cs IH]; intros p; simpl; [apply grows_refl|].
  eapply grows_trans; [apply run_lookup_grows|apply IH].
Qed.

Lemma slot_holds_in sl x p : slot_holds sl x p ↔ slot_in sl x (g_resources p).
Proof.
  unfold slot_holds, slot_in, slot_value. destruct sl; try tauto.
  destruct (device (g_resources p)) as [arr|]; simpl.
  - split.
    + intros [E ?]. split; [done|]. exists arr. split; [done|].
      destruct (arr !! Z.to_nat d) as [[y|]|]; simpl in *; congruence.
    + intros [? (arr' & [= <-] & E)]. split; [|done].
      destruct (arr !! Z.to_nat d); by simplify_eq/=.
  - split; [intros [? _]; done | intros [_ (? & ? & _)]; done].
Qed.

Lemma table_grows_keeps_slot sl x r r' :
  table_grows r r' → slot_in sl x r → slot_in sl x r'.
Proof.
  induction 1 as [r|r y E|r y E|r y E|r n E Hn|r arr i y E Hi|r1 r2 r3 _ IH1 _ IH2];
    intros Hin; auto.
  all: destruct sl; simpl in *; try congruence.
  - destruct Hin as [_ (? & ? & _)]; congruence.
  - destruct Hin as [Hd (arr' & Harr & Hx)]. split; [done|].
    exists (<[i := Some y]> arr). split; [done|]. simplify_eq.
    rewrite list_lookup_insert_ne; [done|]. intros ->. congruence.
Qed.

Lemma run_lookups_keep_slot sl x cs p :
  slot_holds sl x p → slot_holds sl x (run_lookups cs p).
Proof.
  rewrite !slot_holds_in. apply table_grows_keeps_slot, run_lookups_grow.
Qed.


(** ** What a lookup returns *)

Lemma ShareDefaultResourceImpl_host_result rt p r p' :
  ShareDefaultResourceImpl_host rt p = (Ret r, p') →
  ∃ x, r = Some x ∧ slot_in host_slot x (g_resources p').
Proof.
  unfold ShareDefaultResourceImpl_host, if_empty, assign.
  intros E. exec; same_table; eauto.
Qed.

Lemma ShareDefaultResourceImpl_pinned_result rt p r p' :
  ShareDefaultResourceImpl_pinned rt p = (Ret r, p') →
  ∃ x, r = Some x ∧ slot_in pinned_slot x (g_resources p').
Proof.
  unfold ShareDefaultResourceImpl_pinned, if_empty, assign, static_once.
  intros E. exec; same_table; eauto.
Qed.

Lemma ShareDefaultResourceImpl_managed_result rt p r p' :
  ShareDefaultResourceImpl_managed rt p = (Ret r, p') →
  ∃ x, r = Some x ∧ slot_in managed_slot x (g_resources p').
Proof.
  unfold ShareDefaultResourceImpl_managed, if_empty, assign, static_once.
  intros E. exec; same_table; eauto.
Qed.

Lemma ShareDefaultDeviceResourceImpl_result d rt p r p' :
  0 ≤ d →
  ShareDefaultDeviceResourceImpl d rt p = (Ret r, p') →
  ∃ x, r = Some x ∧ slot_in (device_slot d) x (g_resources p').
Proof.
  intros Hd. unfold ShareDefaultDeviceResourceImpl.
  destruct (Z.ltb_spec d 0); [lia|].
  unfold bind at 1. unfold ret at 1.
  unfold bind at 1. destruct (InitDeviceResArray rt p) as [[[]|e] p1] eqn:E1; [|done].
  clear E1.
  unfold CheckDeviceIndex, device_assign, device_at, DeviceGuard, static_once.
  intros E. exec; same_table; known_table; simplify_eq/=.
  all: try (eexists; split; [done|]; split; [lia|]; eexists; split; done).
  all: match goal with
       | H : <[_ := _]> ?l !! _ = Some _, H' : ?l !! _ = Some None |- _ =>
           rewrite list_lookup_insert_eq in H by (by eapply lookup_lt_Some);
           simplify_eq
       end.
  all: eexists; split; [done|]; split; [lia|]; eexists; split; [done|].
  all: by apply list_lookup_insert_eq; eapply lookup_lt_Some.
Qed.

Lemma share_default_result sl rt p r p' :
  indexed sl → share_default sl rt p = (Ret r, p') →
  ∃ x, r = Some x ∧ slot_holds sl x p'.
Proof.
  intros Hi E.
  assert (∃ p0, (match sl with
                 | host_slot => ShareDefaultResourceImpl_host
                 | pinned_slot => ShareDefaultResourceImpl_pinned
                 | managed_slot => ShareDefaultResourceImpl_managed
                 | device_slot d => ShareDefaultDeviceResourceImpl d
                 end) rt p = (Ret r, p0) ∧ g_resources p' = g_resources p0)
    as (p0 & E0 & Hsame).
  { destruct sl; simpl in E;
      unfold ShareDefaultResource, ShareDefaultDeviceResource in E; simpl in E;
      exec; eauto. }
  setoid_rewrite slot_holds_in. rewrite Hsame. destruct sl.
  - by eapply ShareDefaultResourceImpl_host_result.
  - by eapply ShareDefaultResourceImpl_pinned_result.
  - by eapply ShareDefaultResourceImpl_managed_result.
  - by eapply ShareDefaultDeviceResourceImpl_result.
Qed.

Lemma share_default_populated sl x rt p :
  indexed sl → slot_holds sl x p →
  share_default sl rt p = (Ret (Some x), with_mem (sp_copy (Some x)) p).
Proof.
  rewrite slot_holds_in. intros Hi Hin.
  destruct sl; simpl in *;
    unfold ShareDefaultResource, ShareDefaultDeviceResource, ShareDefaultResourceImpl,
      ShareDefaultResourceImpl_host, ShareDefaultResourceImpl_pinned,
      ShareDefaultResourceImpl_managed, ShareDefaultDeviceResourceImpl,
      InitDeviceResArray, CheckDeviceIndex, device_at, if_empty.
  1-3: munfold; rewrite Hin; simpl; by rewrite Hin.
  destruct Hin as [Hlt (arr & Harr & Hx)].
  destruct (Z.ltb_spec d 0); [lia|]. munfold. rewrite Harr. simpl.
  destruct (Z.ltb_spec d 0); [lia|]. destruct (Z.geb_spec d (num_devices (g_resources p))); [lia|].
  simpl. rewrite Harr, Hx. simpl. by rewrite Harr, Hx.
Qed.

(** ** The device kind without an index *)

Lemma ShareDefaultResource_device_current c rt p :
  cudaGetDevice rt = (cudaSuccess, c) →
  ShareDefaultResource memory_kind.device rt p = ShareDefaultDeviceResource c rt p.
Proof.
  intros Hc. unfold ShareDefaultResource, ShareDefaultDeviceResource. simpl.
  unfold ShareDefaultResourceImpl_device.
  assert (ShareDefaultDeviceResourceImpl (-1) rt p = ShareDefaultDeviceResourceImpl c rt p)
    as E by (unfold ShareDefaultDeviceResourceImpl; apply substitute_current_device; [lia|done]).
  unfold bind at 1 3. by rewrite E.
Qed.

(** ** Indices past the end of the table (C2) *)

Lemma InitDeviceResArray_effect rt p o p0 :
  InitDeviceResArray rt p = (o, p0) →
  mem p0 = mem p ∧ locals p0 = locals p ∧ ∀ sl, slot_value sl p0 = slot_value sl p.
Proof.
  unfold InitDeviceResArray. intros E. exec; try done.
  split_and!; try done. intros [| | |d]; try done.
  unfold slot_value. simpl. rewrite H0.
  by destruct (replicate _ _ !! _) as [y|] eqn:Hy;
    [apply lookup_replicate in Hy as [-> _]|].
Qed.

(** C2, as amended: with the device table sized, an index at or above
    the size of the table is rejected with the range error that names the
    index and the size; nothing is constructed and no slot changes.  (A
    negative index is not rejected: it stands for the current device.) *)
Theorem index_past_the_end_is_rejected (d : Z) (rt : platform) (p p0 : process) :
  0 ≤ d →
  InitDeviceResArray rt p = (Ret tt, p0) →
  num_devices (g_resources p0) ≤ d →
  ShareDefaultDeviceResource d rt p =
    (Throw (std_out_of_range
              (index_error_message d (num_devices (g_resources p0)))), p0) ∧
  index_error_message d (num_devices (g_resources p0)) =
    pretty d +:+ " is not a valid CUDA device index. Shoud be 0 <= device_id < " +:+
    pretty (num_devices (g_resources p0)) +:+ " or negative for current device." ∧
  mem p0 = mem p ∧
  locals p0 = locals p ∧
  (∀ sl, slot_value sl p0 = slot_value sl p).
Proof.
  intros Hd Hinit Hn. split; [|split; [done|by eapply InitDeviceResArray_effect]].
  unfold ShareDefaultDeviceResource, ShareDefaultDeviceResourceImpl, CheckDeviceIndex.
  destruct (Z.ltb_spec d 0); [lia|]. munfold. rewrite Hinit. simpl.
  destruct (Z.ltb_spec d 0); [lia|].
  destruct (Z.geb_spec d (num_devices (g_resources p0))); [done|lia].
Qed.

Lemma index_past_the_end_is_rejected_witness :
  ∃ p0,
    ShareDefaultDeviceResource 2 two_devices initial_process =
    (Throw (std_out_of_range
              "2 is not a valid CUDA device index. Shoud be 0 <= device_id < 2 or negative for current device."),
     p0) ∧
    mem p0 = [] ∧
    device (g_resources p0) = Some [None; None].
Proof.
  destruct (InitDeviceResArray two_devices initial_process) as [o p0] eqn:E.
  assert (o = Ret tt ∧ num_devices (g_resources p0) = 2 ∧
          device (g_resources p0) = Some [None; None]) as (-> & Hn & Hdev)
    by (vm_compute in E; by simplify_eq).
  destruct (index_past_the_end_is_rejected 2 two_devices initial_process p0)
    as (Hrun & _ & Hmem & _); [lia | done | lia |].
  exists p0. rewrite Hn in Hrun. split_and!; [exact Hrun | by rewrite Hmem | done].
Defined.

(** C2 as stated fails: -1 lies outside the range of valid indices, and
    yet the lookup returns; it constructs an allocator and populates the
    slot of the current device. *)
Lemma negative_index_is_not_rejected :
  ¬ (0 ≤ -1 < 2) ∧
  ∃ x p',
    ShareDefaultDeviceResource (-1) two_devices initial_process = (Ret (Some x), p') ∧
    device (g_resources p') = Some [Some x; None] ∧
    length (mem p') = 2%nat.
Proof.
  split; [lia|]. eexists _, _. split; [reflexivity|]. split; reflexivity.
Qed.

(** ** Failed construction (C9) *)



Lemma CreateDefaultHostResource_returns rt p :
  healthy rt → ∃ x p', CreateDefaultHostResource rt p = (Ret x, p').
Proof.
  intros ((c & Hc) & Hg & He & Hn).
  open_constructors. exec_healthy Hc Hg He Hn.
  all: eauto.
Qed.

Lemma CreateDefaultManagedResource_returns rt p :
  healthy rt → ∃ x p', CreateDefaultManagedResource rt p = (Ret x, p').
Proof.
  intros ((c & Hc) & Hg & He & Hn).
  open_constructors. exec_healthy Hc Hg He Hn.
  all: eauto.
Qed.

Lemma CUDARTLoader_returns rt p : healthy rt → CUDARTLoader rt p = (Ret tt, p).
Proof.
  intros ((c & Hc) & Hg & He & Hn).
  unfold CUDARTLoader, DeviceGuard. munfold. by rewrite Hc, Hg.
Qed.

Lemma healthy_in_DeviceGuard rt d :
  healthy rt →
  healthy {| cudaGetDeviceCount := cudaGetDeviceCount rt;
             cudaGetDevice := (cudaSuccess, d);
             cudaGetLastError := cudaGetLastError rt;
             DALI_USE_CUDA_VM_MAP := DALI_USE_CUDA_VM_MAP rt;
             cuvm_IsSupported := cuvm_IsSupported rt;
             getenv := getenv rt;
             DeviceGuard_ctor := DeviceGuard_ctor rt;
             CUDAEventPool_instance := CUDAEventPool_instance rt;
             construct := construct rt |}.
Proof. intros (_ & Hg & He & Hn). split_and!; try done. by exists d. Qed.

(** A constructor cannot have thrown on a healthy platform. *)
Ltac healthy_constructors Hh :=
  repeat match goal with
    | H : CUDARTLoader ?rt ?p = _ |- _ =>
        rewrite (CUDARTLoader_returns rt p) in H
          by first [exact Hh | apply healthy_in_DeviceGuard, Hh];
        simplify_eq
    | H : CreateDefaultHostResource ?rt ?p = (Throw _, _) |- _ =>
        destruct (CreateDefaultHostResource_returns rt p) as (? & ? & ?);
          [first [exact Hh | apply healthy_in_DeviceGuard, Hh]|congruence]
    | H : CreateDefaultPinnedResource ?rt ?p = (Throw _, _) |- _ =>
        destruct (CreateDefaultPinnedResource_returns rt p) as (? & ? & ?);
          [first [exact Hh | apply healthy_in_DeviceGuard, Hh]|congruence]
    | H : CreateDefaultManagedResource ?rt ?p = (Throw _, _) |- _ =>
        destruct (CreateDefaultManagedResource_returns rt p) as (? & ? & ?);
          [first [exact Hh | apply healthy_in_DeviceGuard, Hh]|congruence]
    | H : CreateDefaultDeviceResource ?rt ?p = (Throw _, _) |- _ =>
        destruct (CreateDefaultDeviceResource_returns rt p) as (? & ? & ?);
          [first [exact Hh | apply healthy_in_DeviceGuard, Hh]|congruence]
    end.

Lemma InitDeviceResArray_accepts d rt p :
  0 ≤ d → index_accepted (device_slot d) rt p →
  ∃ p1 arr, InitDeviceResArray rt p = (Ret tt, p1) ∧
            device (g_resources p1) = Some arr ∧
            d < num_devices (g_resources p1) ≤ Z.of_nat (length arr).
Proof.
  intros Hd Ha. unfold InitDeviceResArray, index_accepted in *. munfold.
  destruct (device (g_resources p)) as [arr|] eqn:Hdev; simpl.
  - by exists p, arr.
  - destruct Ha as (n & Hcount & Hn). rewrite Hdev. munfold. rewrite Hcount. simpl.
    destruct (Z.ltb_spec n 0); [lia|]. simpl.
    eexists _, _. split; [done|]. simpl. split; [done|].
    rewrite length_replicate. lia.
Qed.

Lemma ShareDefaultDeviceResourceImpl_returns d rt p :
  0 ≤ d → healthy rt → index_accepted (device_slot d) rt p →
  ∃ r p', ShareDefaultDeviceResourceImpl d rt p = (Ret r, p').
Proof.
  intros Hi Hh Ha.
  destruct (ShareDefaultDeviceResourceImpl d rt p) as [[r|e] p'] eqn:E; [by eauto|].
  exfalso. unfold ShareDefaultDeviceResourceImpl in E.
  destruct (Z.ltb_spec d 0); [lia|].
  unfold bind at 1, ret at 1 in E. unfold bind at 1 in E.
  destruct (InitDeviceResArray_accepts d rt p Hi Ha) as (p1 & arr & E1 & Harr & Hlt).
  rewrite E1 in E. clear E1.
  unfold CheckDeviceIndex, device_assign, device_at, DeviceGuard, static_once in E.
  pose proof Hh as (_ & Hg & _).
  exec; healthy_constructors Hh; same_table; known_table; simplify_eq/=.
  all: try match goal with
         | H : DeviceGuard_ctor _ _ = Some _ |- _ => by rewrite Hg in H
         | H : _ !! Z.to_nat _ = None |- _ =>
             apply lookup_ge_None in H; rewrite ?length_insert in H; lia
         | H : (_ <? 0) || (_ >=? _) = true |- _ =>
             apply orb_true_iff in H as [H|H];
             [apply Z.ltb_lt in H | apply Z.geb_ge in H]; lia
         end.
Qed.

Lemma share_default_returns sl rt p :
  indexed sl → healthy rt → index_accepted sl rt p →
  ∃ r p', share_default sl rt p = (Ret r, p').
Proof.
  intros Hi Hh Ha. destruct sl as [| | |d]; simpl in *.
  4:{ destruct (ShareDefaultDeviceResourceImpl_returns d rt p Hi Hh Ha) as (r & p' & E).
      unfold ShareDefaultDeviceResource. munfold. rewrite E. eauto. }
  all: destruct (ShareDefaultResource _ rt p) as [[r|e] p'] eqn:E; [by eauto|]; exfalso.
  all: unfold ShareDefaultResource, ShareDefaultResourceImpl,
      ShareDefaultResourceImpl_host, ShareDefaultResourceImpl_pinned,
      ShareDefaultResourceImpl_managed, if_empty, assign, static_once in E.
  all: by exec; healthy_constructors Hh.
Qed.

Lemma construction_keeps_table sl rt p o p' :
  construction sl rt p = (o, p') → g_resources p' = g_resources p.
Proof.
  intros E.
  assert (preserves (table_is (g_resources p)) (construction sl)) as Hsame
    by (destruct sl; unfold construction; frame_all; done).
  by apply (preserves_run _ _ rt p o p' Hsame E).
Qed.

Ltac case_static_once :=
  match goal with
  | |- context [static_once ?s ?c ?rt ?p] =>
      destruct (static_once s c rt p) as [[[]|?] ?] eqn:? in *
  end.

Lemma construction_throws sl rt p e p1 :
  indexed sl → slot_vacant sl p →
  construction sl rt p = (Throw e, p1) →
  share_default sl rt p = (Throw e, p1).
Proof.
  intros Hi Hv E.
  destruct sl as [| | |d]; simpl in *;
    unfold ShareDefaultResource, ShareDefaultDeviceResource, ShareDefaultResourceImpl,
      ShareDefaultResourceImpl_host, ShareDefaultResourceImpl_pinned,
      ShareDefaultResourceImpl_managed, ShareDefaultDeviceResourceImpl,
      InitDeviceResArray, CheckDeviceIndex, device_assign, device_at,
      if_empty, assign, DeviceGuard in *.
  1-3: munfold; rewrite Hv; simpl; rewrite Hv; simpl;
       try case_static_once; simplify_eq/=; try done;
       by rewrite E.
  destruct Hv as (Hlt & arr & Harr & Hx).
  destruct (Z.ltb_spec d 0); [lia|]. munfold. rewrite Harr. simpl.
  destruct (Z.ltb_spec d 0); [lia|].
  destruct (Z.geb_spec d (num_devices (g_resources p))); [lia|].
  simpl. rewrite Harr, Hx. simpl. rewrite Harr, Hx. simpl.
  destruct (DeviceGuard_ctor rt d); simplify_eq/=; [done|].
  case_static_once; simplify_eq/=; try done.
  by rewrite E.
Qed.

Lemma construction_returns sl rt p x p' :
  indexed sl → slot_vacant sl p →
  construction sl rt p = (Ret x, p') →
  ∃ p2, share_default sl rt p = (Ret (Some x), p2).
Proof.
  intros Hi Hv E. pose proof (construction_keeps_table sl rt p _ p' E) as Hsame.
  destruct sl as [| | |d]; simpl in *;
    unfold ShareDefaultResource, ShareDefaultDeviceResource, ShareDefaultResourceImpl,
      ShareDefaultResourceImpl_host, ShareDefaultResourceImpl_pinned,
      ShareDefaultResourceImpl_managed, ShareDefaultDeviceResourceImpl,
      InitDeviceResArray, CheckDeviceIndex, device_assign, device_at,
      if_empty, assign, DeviceGuard in *.
  1-3: munfold; rewrite Hv; simpl; rewrite Hv; simpl;
       try case_static_once; simplify_eq/=;
       rewrite E; unfold static_once; munfold; simpl;
       repeat case_match; simplify_eq/=; eauto.
  destruct Hv as (Hlt & arr & Harr & Hx).
  destruct (Z.ltb_spec d 0); [lia|]. munfold. rewrite Harr. simpl.
  destruct (Z.ltb_spec d 0); [lia|].
  destruct (Z.geb_spec d (num_devices (g_resources p))); [lia|].
  simpl. rewrite Harr, Hx. simpl. rewrite Harr, Hx. simpl.
  destruct (DeviceGuard_ctor rt d); simplify_eq/=.
  case_static_once; simplify_eq/=.
  rewrite E. simpl. rewrite Hsame, Harr, Hx. simpl.
  unfold static_once; munfold; simpl.
  assert (<[Z.to_nat d := Some x]> arr !! Z.to_nat d = Some (Some x)) as Hnew
    by (by apply list_lookup_insert_eq; eapply lookup_lt_Some).
  repeat case_match; simplify_eq/=; eauto.
  all: rewrite Hsame, Harr in *; simplify_eq/=; eauto.
Qed.



(** ** Ownership of what a lookup returns *)

Ltac static_alive Hheld :=
  repeat match goal with
    | H : host_rsrc (locals ?p) = Some ?x |- _ =>
        lazymatch goal with
        | _ : alive (mem p) (mr_addr (get x)) |- _ => fail
        | _ => assert (alive (mem p) (mr_addr (get x))) by (apply Hheld; auto 10)
        end
    | H : managed_rsrc (locals ?p) = Some ?x |- _ =>
        lazymatch goal with
        | _ : alive (mem p) (mr_addr (get x)) |- _ => fail
        | _ => assert (alive (mem p) (mr_addr (get x))) by (apply Hheld; auto 10)
        end
    end.

Lemma CreateDefaultHostResource_alive rt p x p' :
  held_alive p → CreateDefaultHostResource rt p = (Ret x, p') →
  alive (mem p') (mr_addr (get x)).
Proof.
  intros Hheld. open_constructors. intros E. exec; static_alive Hheld; simpl.
  all: heap_facts.
Qed.

Lemma CreateDefaultManagedResource_alive rt p x p' :
  held_alive p → CreateDefaultManagedResource rt p = (Ret x, p') →
  alive (mem p') (mr_addr (get x)).
Proof.
  intros Hheld. open_constructors. intros E. exec; static_alive Hheld; simpl.
  all: heap_facts.
Qed.

Lemma CreateDefaultDeviceResource_alive rt p x p' :
  CreateDefaultDeviceResource rt p = (Ret x, p') →
  alive (mem p') (mr_addr (get x)).
Proof.
  open_constructors. intros E. exec; simpl.
  all: try solve [heap_facts].
  all: rewrite <- length_allocate; heap_facts.
Qed.

Lemma CUDARTLoader_state rt p o p' : CUDARTLoader rt p = (o, p') → p' = p.
Proof. unfold CUDARTLoader, DeviceGuard. intros E. by exec. Qed.

Lemma held_alive_constructed l p :
  held_alive p → held_alive (with_locals (set_constructed l) p).
Proof. intros H x. apply (H x). Qed.

Lemma statics_typed_constructed l p :
  statics_typed p → statics_typed (with_locals (set_constructed l) p).
Proof. done. Qed.

Ltac loader_done :=
  repeat match goal with
    | H : CUDARTLoader _ _ = (_, _) |- _ => apply CUDARTLoader_state in H; subst
    end.

Lemma sp_release_None (h : heap) : sp_release None h = h.
Proof. done. Qed.

Lemma Impl_alive sl rt p x p' :
  indexed sl → held_alive p → statics_typed p →
  (match sl with
   | host_slot => ShareDefaultResourceImpl_host
   | pinned_slot => ShareDefaultResourceImpl_pinned
   | managed_slot => ShareDefaultResourceImpl_managed
   | device_slot d => ShareDefaultDeviceResourceImpl d
   end) rt p = (Ret (Some x), p') →
  alive (mem p') (mr_addr (get x)).
Proof.
  intros Hi Hheld Htyped.
  destruct sl as [| | |d].
  1-3: unfold ShareDefaultResourceImpl_host, ShareDefaultResourceImpl_pinned,
         ShareDefaultResourceImpl_managed, if_empty, assign, static_once;
       intros E; exec; loader_done; simpl; rewrite ?sp_release_None.
  all: try (apply Hheld; by auto 10).
  all: try match goal with
         | H : CreateDefaultHostResource _ _ = _ |- _ =>
             pose proof H as Htable; apply CreateDefaultHostResource_alive in H;
             [|by auto using held_alive_constructed]
         | H : CreateDefaultManagedResource _ _ = _ |- _ =>
             pose proof H as Htable; apply CreateDefaultManagedResource_alive in H;
             [|by auto using held_alive_constructed]
         | H : CreateDefaultPinnedResource _ _ = _ |- _ =>
             pose proof H as Htable; apply CreateDefaultPinnedResource_owners in H as [H _];
             [|by auto using statics_typed_constructed
              |by auto using held_alive_constructed]
         end.
  all: try (same_table;
            repeat match goal with H : _ = None |- _ => rewrite H end;
            by rewrite sp_release_None).
  unfold ShareDefaultDeviceResourceImpl.
  destruct (Z.ltb_spec d 0); [simpl in Hi; lia|].
  unfold bind at 1, ret at 1. unfold bind at 1.
  destruct (InitDeviceResArray rt p) as [[[]|e] p1] eqn:E1; [|done].
  assert (held_alive p1) as Hheld1.
  { unfold InitDeviceResArray in E1. exec; try done.
    intros y. simpl. intros Hy. apply (Hheld y).
    destruct Hy as [?|[?|[?|[(arr & [= <-] & Hin)|?]]]]; auto 10.
    apply list_elem_of_lookup_1 in Hin as [i Hin].
    by apply lookup_replicate in Hin as [? _]. }
  clear E1 Hheld Htyped.
  unfold CheckDeviceIndex, device_assign, device_at, DeviceGuard, static_once.
  intros E. exec; loader_done; simpl.
  all: try match goal with
         | H : CreateDefaultDeviceResource _ _ = _ |- _ =>
             pose proof H as Htable; apply CreateDefaultDeviceResource_alive in H
         end.
  all: same_table; known_table; simplify_eq/=.
  all: try (apply Hheld1; right; right; right; left; eexists; split; [done|];
            by eapply list_elem_of_lookup_2).
  all: match goal with
       | H : <[_ := _]> ?l !! _ = Some _, H' : ?l !! _ = Some None |- _ =>
           rewrite list_lookup_insert_eq in H by (by eapply lookup_lt_Some);
           simplify_eq
       end.
  all: by rewrite ?sp_release_None.
Qed.

Lemma share_default_shared sl rt p x p' :
  indexed sl → held_alive p → statics_typed p →
  share_default sl rt p = (Ret (Some x), p') →
  shared (mem p') (mr_addr (get x)).
Proof.
  intros Hi Hheld Htyped E.
  assert (∃ p0, (match sl with
                 | host_slot => ShareDefaultResourceImpl_host
                 | pinned_slot => ShareDefaultResourceImpl_pinned
                 | managed_slot => ShareDefaultResourceImpl_managed
                 | device_slot d => ShareDefaultDeviceResourceImpl d
                 end) rt p = (Ret (Some x), p0) ∧ mem p' = sp_copy (Some x) (mem p0))
    as (p0 & E0 & ->).
  { destruct sl; simpl in E;
      unfold ShareDefaultResource, ShareDefaultDeviceResource in E; simpl in E;
      exec; eauto. }
  apply shared_sp_copy; [done|]. by eapply Impl_alive.
Qed.

(** ** Lookups never take an owner away *)

Lemma keeps_owners_refl (h : heap) : keeps_owners h h.
Proof. intros a b Hb. exists b. split_and!; [done|lia|done]. Qed.

Lemma keeps_owners_trans (h1 h2 h3 : heap) :
  keeps_owners h1 h2 → keeps_owners h2 h3 → keeps_owners h1 h3.
Proof.
  intros H12 H23 a b Hb.
  destruct (H12 a b Hb) as (b2 & Hb2 & ? & ?).
  destruct (H23 a b2 Hb2) as (b3 & Hb3 & ? & ?).
  exists b3. split_and!; [done|lia|congruence].
Qed.

Lemma keeps_owners_allocate (h h' : heap) :
  keeps_owners h h' → keeps_owners h (allocate h').
Proof.
  intros Hk a b Hb. destruct (Hk a b Hb) as (b' & Hb' & ? & ?).
  exists b'. split; [|done]. unfold allocate. by apply lookup_app_l_Some.
Qed.

Lemma keeps_owners_sp_copy (h h' : heap) (s : shared_ptr) :
  keeps_owners h h' → keeps_owners h (sp_copy s h').
Proof.
  intros Hk a b Hb. destruct (Hk a b Hb) as (b' & Hb' & ? & ?).
  destruct s as [x|]; [|by exists b'].
  destruct (lookup_alter_add_owner h' (mr_addr (get x)) a b' Hb') as (b'' & ? & ? & ? & _).
  exists b''. split_and!; [done|lia|congruence].
Qed.

Lemma keeps_owners_release_unused (h h' : heap) (pool : memory_resource) :
  keeps_owners h h' → keeps_owners h (release_unused pool h').
Proof.
  intros Hk a b Hb. destruct (Hk a b Hb) as (b' & Hb' & ? & ?).
  unfold release_unused. destruct (decide (mr_addr pool = a)) as [->|Hne].
  - exists (trimmed b'). rewrite list_lookup_alter_eq, Hb'. done.
  - exists b'. by rewrite list_lookup_alter_ne.
Qed.

(** The release of an object that was allocated after [h] was taken
    leaves the objects of [h] alone. *)
Lemma keeps_owners_release_fresh (h h' : heap) (x : handle) :
  kept x = [] → (length h ≤ mr_addr (get x))%nat →
  keeps_owners h h' → keeps_owners h (sp_release (Some x) h').
Proof.
  intros Hk Hfresh Hkeeps a b Hb. destruct (Hkeeps a b Hb) as (b' & Hb' & ? & ?).
  exists b'. split; [|done]. apply lookup_lt_Some in Hb.
  unfold sp_release. rewrite Hk.
  destruct (last_owner h' (mr_addr (get x))); simpl; unfold drop_ref;
    rewrite list_lookup_alter_ne by lia; done.
Qed.

Lemma shared_keeps_owners (h h' : heap) (a : addr) :
  keeps_owners h h' → shared h a → shared h' a.
Proof.
  intros Hk (b & Hb & ? & ?). destruct (Hk a b Hb) as (b' & ? & ? & ?).
  exists b'. split_and!; [done|lia|congruence].
Qed.

Ltac keeps :=
  repeat first
    [ apply keeps_owners_refl
    | apply keeps_owners_allocate
    | apply keeps_owners_sp_copy
    | apply keeps_owners_release_unused
    | apply keeps_owners_release_fresh; [reflexivity | simpl; rewrite ?length_allocate; lia |]
    | assumption ].

Lemma Create_keeps_owners rt p :
  keeps_owners (mem p) (mem (CreateDefaultHostResource rt p).2) ∧
  keeps_owners (mem p) (mem (CreateDefaultPinnedResource rt p).2) ∧
  keeps_owners (mem p) (mem (CreateDefaultManagedResource rt p).2) ∧
  keeps_owners (mem p) (mem (CreateDefaultDeviceResource rt p).2).
Proof.
  split_and!; open_constructors; exec; simpl; rewrite ?sp_release_None; keeps.
Qed.

(** What a constructor that ran has done to the heap, and that it left
    the table alone. *)
Ltac create_keeps :=
  repeat match goal with
    | H : CreateDefaultHostResource ?rt ?p = _ |- _ =>
        let K := fresh "Hkeeps" in
        pose proof (proj1 (Create_keeps_owners rt p)) as K;
        rewrite H in K; simpl in K;
        apply (Create_table _ _ _ _ _ (λ r, proj1 (Create_keeps_table r))) in H
    | H : CreateDefaultPinnedResource ?rt ?p = _ |- _ =>
        let K := fresh "Hkeeps" in
        pose proof (proj1 (proj2 (Create_keeps_owners rt p))) as K;
        rewrite H in K; simpl in K;
        apply (Create_table _ _ _ _ _ (λ r, proj1 (proj2 (Create_keeps_table r)))) in H
    | H : CreateDefaultManagedResource ?rt ?p = _ |- _ =>
        let K := fresh "Hkeeps" in
        pose proof (proj1 (proj2 (proj2 (Create_keeps_owners rt p)))) as K;
        rewrite H in K; simpl in K;
        apply (Create_table _ _ _ _ _
                 (λ r, proj1 (proj2 (proj2 (Create_keeps_table r))))) in H
    | H : CreateDefaultDeviceResource ?rt ?p = _ |- _ =>
        let K := fresh "Hkeeps" in
        pose proof (proj2 (proj2 (proj2 (Create_keeps_owners rt p)))) as K;
        rewrite H in K; simpl in K;
        apply (Create_table _ _ _ _ _
                 (λ r, proj1 (proj2 (proj2 (proj2 (Create_keeps_table r)))))) in H
    end.

Lemma Impl_keeps_owners sl rt p :
  keeps_owners (mem p)
    (mem ((match sl with
           | host_slot => ShareDefaultResourceImpl_host
           | pinned_slot => ShareDefaultResourceImpl_pinned
           | managed_slot => ShareDefaultResourceImpl_managed
           | device_slot d => ShareDefaultDeviceResourceImpl d
           end) rt p).2).
Proof.
  destruct sl as [| | |d].
  1-3: unfold ShareDefaultResourceImpl_host, ShareDefaultResourceImpl_pinned,
         ShareDefaultResourceImpl_managed, if_empty, assign, static_once;
       exec; loader_done; create_keeps; same_table; simpl in *;
       repeat match goal with H : _ = None |- _ => rewrite H end;
       rewrite ?sp_release_None; keeps.
  unfold ShareDefaultDeviceResourceImpl.
  unfold bind at 1. destruct (_ rt p) as [[d'|e] p0] eqn:E0;
    [|by destruct (d <? 0); munfold; exec; keeps].
  assert (p0 = p) as -> by (destruct (d <? 0); munfold; exec; done). clear E0.
  unfold bind at 1.
  destruct (InitDeviceResArray rt p) as [o p1] eqn:E1.
  apply InitDeviceResArray_effect in E1 as (Hmem & _ & _). rewrite <- Hmem. clear Hmem.
  destruct o as [[]|e]; [|simpl; keeps].
  unfold CheckDeviceIndex, device_assign, device_at, DeviceGuard, static_once.
  exec; loader_done; create_keeps; same_table; known_table; simplify_eq/=;
    rewrite ?sp_release_None; keeps.
Qed.

Lemma run_lookup_keeps_owners c rt p :
  keeps_owners (mem p) (mem (run_lookup c rt p).2).
Proof.
  destruct c as [Kind|Kind|d|d|]; simpl.
  1-2: pose proof (Impl_keeps_owners
                     (match Kind with
                      | memory_kind.host => host_slot
                      | memory_kind.pinned => pinned_slot
                      | memory_kind.managed => managed_slot
                      | memory_kind.device => device_slot (-1)
                      end) rt p) as Hk;
       unfold ShareDefaultResource, GetDefaultResource, ShareDefaultResourceImpl,
         ShareDefaultResourceImpl_device;
       destruct Kind; exec; keeps.
  1-2: pose proof (Impl_keeps_owners (device_slot d) rt p) as Hk;
       unfold ShareDefaultDeviceResource, GetDefaultDeviceResource; exec; keeps.
  assert (preserves (λ p', keeps_owners (mem p) (mem p')) ReleaseUnusedMemory) as Hk.
  { frame_all; try done; simpl; by apply keeps_owners_release_unused. }
  apply Hk, keeps_owners_refl.
Qed.

Lemma run_lookups_keep_owners cs p :
  keeps_owners (mem p) (mem (run_lookups cs p)).
Proof.
  revert p. induction cs as [|[rt c] cs IH]; intros p; simpl; [apply keeps_owners_refl|].
  eapply keeps_owners_trans; [apply run_lookup_keeps_owners|apply IH].
Qed.

(** ** What an override does *)

Lemma set_default_result o H rt p p1 :
  indexed (slot_of o) →
  set_default o H rt p = (Ret tt, p1) →
  slot_value (slot_of o) p1 = H ∧
  match o with
  | override_device d => d < num_devices (g_resources p1)
  | _ => True
  end ∧
  mem p1 = sp_release (slot_value (slot_of o) p) (mem p).
Proof.
  intros Hi. destruct o as [| |d]; simpl in *.
  1-2: unfold SetDefaultResource_host, SetDefaultResource_pinned, assign;
       intros E; by exec.
  unfold SetDefaultDeviceResource, InitDeviceResArray, CheckDeviceIndex,
    device_assign, device_at.
  intros E. exec; known_table; simplify_eq/=.
  all: repeat match goal with
         | H : (_ <? 0) || (_ >=? _) = false |- _ =>
             apply orb_false_iff in H as [_ H]; apply Z.geb_leb, Z.leb_gt in H
         end.
  all: split_and!; try lia.
  all: try (rewrite list_lookup_insert_eq by (by eapply lookup_lt_Some); done).
  all: try match goal with H : ?l !! _ = Some ?v |- _ => by rewrite H end.
  all: match goal with
       | H : replicate _ _ !! _ = Some ?v |- _ =>
           by apply lookup_replicate in H as [-> _]
       end.
Qed.

Lemma alive_release_shared (h : heap) (x : handle) :
  shared h (mr_addr (get x)) → alive (sp_release (Some x) h) (mr_addr (get x)).
Proof.
  intros Hs. unfold sp_release, last_owner.
  destruct Hs as (b & Hb & Ho & Hd). rewrite Hb.
  destruct (Nat.eqb_spec (owners b) 1); [lia|].
  apply alive_drop_ref_shared. by exists b.
Qed.

Lemma process_with_device_0_reachable : reachable process_with_device_0.
Proof. by exists [(two_devices, do_lookup (call_share_device 0))]. Qed.

Lemma process_with_device_0_held_alive : held_alive process_with_device_0.
Proof.
  intros y Hy. vm_compute in Hy.
  destruct Hy as [?|[?|[?|[(arr & [= <-] & Hin)|[?|[?|[?|?]]]]]]]; try discriminate.
  apply elem_of_cons in Hin as [[= ->]|Hin].
  - eexists. split; [reflexivity|]. simpl. split; [lia|done].
  - apply list_elem_of_singleton in Hin. discriminate.
Qed.


(** * The rest of the interface *)

(** ** The walk along the upstreams *)

Lemma memory_resource_chain_ind (P : memory_resource → Prop) :
  (∀ a t, P (MR a t None)) →
  (∀ a t up, P up → P (MR a t (Some up))) →
  ∀ mr, P mr.
Proof.
  intros Hnone Hsome. fix IH 1. intros [a t [up|]].
  - apply Hsome, IH.
  - apply Hnone.
Qed.

Lemma GetPoolInterface_from_find (mr : memory_resource) :
  GetPoolInterface_from mr = snd <$> list_find is_pool (upstream_chain mr).
Proof.
  induction mr as [a t|a t up IH] using memory_resource_chain_ind; simpl.
  all: case_decide as Hp; unfold is_pool in Hp; simpl in Hp.
  all: try (by rewrite Hp).
  all: apply not_true_is_false in Hp; rewrite Hp.
  all: destruct (is_with_upstream t); simpl; try done.
  rewrite IH. by destruct (list_find is_pool (upstream_chain up)) as [[i r]|].
Qed.

(** X1: [GetPoolInterface] returns the first stage with the pool
    interface among the stages its loop can reach, and null when there is
    none: a null pointer has no stage, and the walk ends at a stage that
    has neither the pool nor the upstream interface, whatever lies
    beyond it. *)
Theorem GetPoolInterface_finds_the_first_pool (mr : memory_resource) :
  GetPoolInterface (Some mr) = snd <$> list_find is_pool (upstream_chain mr) ∧
  GetPoolInterface None = None ∧
  (∀ pool, GetPoolInterface (Some mr) = Some pool →
     is_pool pool ∧ pool ∈ upstream_chain mr) ∧
  (GetPoolInterface (Some mr) = None ↔ Forall (λ r, ¬ is_pool r) (upstream_chain mr)) ∧
  (∀ a t up, is_pool_resource_base t = false → is_with_upstream t = false →
     GetPoolInterface (Some (MR a t up)) = None).
Proof.
  split_and!.
  - apply GetPoolInterface_from_find.
  - done.
  - intros pool. simpl. rewrite GetPoolInterface_from_find.
    destruct (list_find _ _) as [[i r]|] eqn:E; [|done]. intros [= <-].
    apply list_find_Some in E as (Hi & Hp & _). split; [done|].
    by eapply list_elem_of_lookup_2.
  - simpl. rewrite GetPoolInterface_from_find.
    rewrite <- (list_find_None is_pool (upstream_chain mr)).
    destruct (list_find _ _); simpl; split; intros; by simplify_eq.
  - intros a t up Hp Hu. simpl. by rewrite Hp, Hu.
Qed.

Lemma GetPoolInterface_finds_the_first_pool_witness :
  GetPoolInterface (Some (get device_0_pool)) = Some (get device_0_pool) ∧
  is_pool (get device_0_pool).
Proof.
  destruct (GetPoolInterface_finds_the_first_pool (get device_0_pool))
    as (Hfind & _ & Hpool & _).
  split; [by rewrite Hfind|]. by apply Hpool.
Defined.

(** ** Teardown of the table *)

(** X2: the destructor of the table does not fail and empties the four
    members; the recorded device count and the statics stay.  While the
    runtime unloads the heap is left as it is; otherwise the handles are
    released in the order pinned, device slots from the last to the
    first, managed, host.  A second teardown changes nothing. *)
Theorem teardown_empties_the_table (rt : platform) (p : process) :
  ∃ p',
    DefaultResources_dtor rt p = (Ret tt, p') ∧
    (∀ m, member_empty m p') ∧
    num_devices (g_resources p') = num_devices (g_resources p) ∧
    locals p' = locals p ∧
    (cudaGetLastError rt = cudaErrorCudartUnloading → mem p' = mem p) ∧
    (cudaGetLastError rt ≠ cudaErrorCudartUnloading →
       mem p' =
       sp_release (host (g_resources p))
         (sp_release (managed (g_resources p))
            (foldr sp_release
               (sp_release (pinned_async (g_resources p)) (mem p))
               (default [] (device (g_resources p)))))) ∧
    (∀ rt', DefaultResources_dtor rt' p' = (Ret tt, p')).
Proof.
  unfold DefaultResources_dtor, ReleasePinned, ReleaseDevice, ReleaseManaged,
    ReleaseHost, Release, Abandon. munfold.
  destruct (decide (cudaGetLastError rt = cudaErrorCudartUnloading)) as [E|E].
  - rewrite E. eexists. split; [done|]. simpl.
    split_and!; try done.
    + by intros [].
    + intros rt'. by destruct (cudaGetLastError rt').
  - assert (∃ p', p' = with_mem
                     (λ h, sp_release (host (g_resources p))
                             (sp_release (managed (g_resources p))
                                (foldr sp_release
                                   (sp_release (pinned_async (g_resources p)) h)
                                   (default [] (device (g_resources p))))))
                     (with_resources
                        (λ r, set_host None (set_managed None (set_device None
                                (set_pinned_async None r)))) p)) as [p' Hp'] by eauto.
    exists p'. split.
    { rewrite Hp'. destruct (cudaGetLastError rt); try done; simpl.
      all: unfold with_mem, with_resources; simpl.
      all: by destruct (device (g_resources p)). }
    subst p'. simpl. split_and!; try done.
    + by intros [].
    + intros rt'. by destruct (cudaGetLastError rt').
Qed.

Lemma teardown_empties_the_table_witness :
  ∃ p',
    DefaultResources_dtor two_devices process_with_device_0 = (Ret tt, p') ∧
    device (g_resources p') = None ∧
    num_devices (g_resources p') = 2 ∧
    DefaultResources_dtor two_devices p' = (Ret tt, p').
Proof.
  destruct (teardown_empties_the_table two_devices process_with_device_0)
    as (p' & Hrun & Hempty & Hn & _ & _ & _ & Hagain).
  exists p'. split_and!; [done|apply (Hempty device_member)|by rewrite Hn|apply Hagain].
Defined.

(** ** The device count *)

Lemma InitDeviceResArray_sized_table rt p arr :
  device (g_resources p) = Some arr → InitDeviceResArray rt p = (Ret tt, p).
Proof. intros E. unfold InitDeviceResArray. munfold. by rewrite E. Qed.

Lemma InitDeviceResArray_count_fails rt p code v :
  device (g_resources p) = None →
  cudaGetDeviceCount rt = (code, v) → code ≠ cudaSuccess →
  InitDeviceResArray rt p = (Throw (CUDAError code), p).
Proof.
  intros E Hc Hne. unfold InitDeviceResArray. munfold. rewrite E. simpl.
  rewrite E, Hc. by destruct code.
Qed.

Lemma InitDeviceResArray_count rt p n :
  device (g_resources p) = None →
  cudaGetDeviceCount rt = (cudaSuccess, n) → 0 ≤ n →
  InitDeviceResArray rt p =
  (Ret tt, with_resources
             (λ r, set_device (Some (replicate (Z.to_nat n) None)) (set_num_devices n r)) p).
Proof.
  intros E Hc Hn. unfold InitDeviceResArray. munfold. rewrite E. simpl.
  rewrite E, Hc. simpl. destruct (Z.ltb_spec n 0); [lia|]. done.
Qed.

(** What the three device calls do when the table cannot be sized or the
    index is rejected. *)
Lemma device_calls_stop_at_init d rt p H e p0 :
  0 ≤ d → InitDeviceResArray rt p = (Throw e, p0) →
  ShareDefaultDeviceResource d rt p = (Throw e, p0) ∧
  GetDefaultDeviceResource d rt p = (Throw e, p0) ∧
  SetDefaultDeviceResource d H rt p = (Throw e, with_mem (sp_release H) p0).
Proof.
  intros Hd E.
  unfold ShareDefaultDeviceResource, GetDefaultDeviceResource,
    SetDefaultDeviceResource, ShareDefaultDeviceResourceImpl.
  destruct (Z.ltb_spec d 0); [lia|]. munfold. by rewrite E.
Qed.

Lemma device_calls_stop_at_check d rt p H p0 :
  0 ≤ d → InitDeviceResArray rt p = (Ret tt, p0) →
  num_devices (g_resources p0) ≤ d →
  ShareDefaultDeviceResource d rt p =
    (Throw (std_out_of_range (index_error_message d (num_devices (g_resources p0)))), p0) ∧
  GetDefaultDeviceResource d rt p =
    (Throw (std_out_of_range (index_error_message d (num_devices (g_resources p0)))), p0) ∧
  SetDefaultDeviceResource d H rt p =
    (Throw (std_out_of_range (index_error_message d (num_devices (g_resources p0)))),
     with_mem (sp_release H) p0).
Proof.
  intros Hd E Hn.
  unfold ShareDefaultDeviceResource, GetDefaultDeviceResource,
    SetDefaultDeviceResource, ShareDefaultDeviceResourceImpl, CheckDeviceIndex.
  destruct (Z.ltb_spec d 0); [lia|]. munfold. rewrite E. simpl.
  destruct (Z.ltb_spec d 0); [lia|].
  by destruct (Z.geb_spec d (num_devices (g_resources p0))); [|lia].
Qed.

(** X3: while the device table is not sized, a device call on a platform
    whose device count fails throws that CUDA error and leaves the table
    unsized, so the count is asked again by the next call; an override
    releases the handle it was given.  A count of zero sizes the table
    with no slot, and every index is rejected from then on. *)
Theorem failed_device_count_is_not_recorded
    (d : Z) (rt : platform) (p : process) (H : shared_ptr) :
  0 ≤ d → device (g_resources p) = None →
  (∀ code v, cudaGetDeviceCount rt = (code, v) → code ≠ cudaSuccess →
     ShareDefaultDeviceResource d rt p = (Throw (CUDAError code), p) ∧
     GetDefaultDeviceResource d rt p = (Throw (CUDAError code), p) ∧
     SetDefaultDeviceResource d H rt p =
       (Throw (CUDAError code), with_mem (sp_release H) p)) ∧
  (cudaGetDeviceCount rt = (cudaSuccess, 0) →
     ∃ p0,
       ShareDefaultDeviceResource d rt p =
         (Throw (std_out_of_range (index_error_message d 0)), p0) ∧
       device (g_resources p0) = Some [] ∧
       num_devices (g_resources p0) = 0 ∧
       mem p0 = mem p ∧
       ∀ d' rt', 0 ≤ d' →
         ShareDefaultDeviceResource d' rt' p0 =
           (Throw (std_out_of_range (index_error_message d' 0)), p0)).
Proof.
  intros Hd E. split.
  - intros code v Hc Hne.
    apply device_calls_stop_at_init; [done|].
    by eapply InitDeviceResArray_count_fails.
  - intros Hc.
    pose proof (InitDeviceResArray_count rt p 0 E Hc (Z.le_refl 0)) as Hinit.
    set (p0 := with_resources _ p) in Hinit.
    assert (InitDeviceResArray_again : ∀ rt', InitDeviceResArray rt' p0 = (Ret tt, p0))
      by (intros rt'; by eapply InitDeviceResArray_sized_table).
    exists p0. split_and!; try done.
    + apply (device_calls_stop_at_check d rt p None p0 Hd Hinit). simpl. lia.
    + intros d' rt' Hd'.
      apply (device_calls_stop_at_check d' rt' p0 None p0 Hd' (InitDeviceResArray_again rt')).
      simpl. lia.
Qed.

Lemma failed_device_count_is_not_recorded_witness :
  ShareDefaultDeviceResource 0
    {| cudaGetDeviceCount := (cudaErrorOther 35, 0);
       cudaGetDevice := (cudaSuccess, 0);
       cudaGetLastError := cudaSuccess;
       DALI_USE_CUDA_VM_MAP := true;
       cuvm_IsSupported := false;
       getenv := λ _, None;
       DeviceGuard_ctor := λ _, None;
       CUDAEventPool_instance := None;
       construct := λ _, None |} initial_process
  = (Throw (CUDAError (cudaErrorOther 35)), initial_process).
Proof.
  refine (proj1 (proj1 (failed_device_count_is_not_recorded 0 _ initial_process None _ _)
                   (cudaErrorOther 35) 0 _ _)).
  - lia.
  - reflexivity.
  - reflexivity.
  - discriminate.
Defined.

(** ** Overrides that are rejected *)



(** ** The override of the device kind *)

(** X5: [SetDefaultResource<device>] is the override of the slot of the
    current device.  When the current device cannot be told it throws
    the CUDA error and releases the handle; when it returns, the
    lookup of the device kind on the same current device returns the
    handle of the override. *)
Theorem device_kind_override_is_the_current_slot
    (H : shared_ptr) (rt : platform) (p : process) :
  (∀ c, cudaGetDevice rt = (cudaSuccess, c) →
     SetDefaultResource_device H rt p = SetDefaultDeviceResource c H rt p) ∧
  (∀ code v, cudaGetDevice rt = (code, v) → code ≠ cudaSuccess →
     SetDefaultResource_device H rt p =
       (Throw (CUDAError code), with_mem (sp_release H) p)) ∧
  (∀ x p1, H = Some x → SetDefaultResource_device H rt p = (Ret tt, p1) →
     ∃ c, cudaGetDevice rt = (cudaSuccess, c) ∧
          slot_holds (device_slot c) x p1 ∧
          ∀ cs rt', cudaGetDevice rt' = (cudaSuccess, c) →
            ∃ p3, ShareDefaultResource memory_kind.device rt' (run_lookups cs p1)
                  = (Ret (Some x), p3)).
Proof.
  split_and!.
  - intros c Hc. unfold SetDefaultResource_device. munfold. by rewrite Hc.
  - intros code v Hc Hne. unfold SetDefaultResource_device. munfold. rewrite Hc.
    by destruct code.
  - intros x p1 -> E.
    destruct (cudaGetDevice rt) as [code c] eqn:Hc.
    assert (code = cudaSuccess) as ->.
    { unfold SetDefaultResource_device in E. munfold. rewrite Hc in E.
      by destruct code. }
    assert (SetDefaultDeviceResource c (Some x) rt p = (Ret tt, p1)) as E'.
    { unfold SetDefaultResource_device in E. munfold. by rewrite Hc in E. }
    assert (0 ≤ c) as Hpos.
    { destruct (Z.ltb_spec c 0) as [Hneg|]; [|done]. exfalso.
      unfold SetDefaultDeviceResource, CheckDeviceIndex in E'.
      destruct (Z.ltb_spec c 0); [|lia]. munfold. rewrite Hc in E'. simpl in E'.
      destruct (InitDeviceResArray rt p) as [[[]|?] ?]; simpl in E'; [|done].
      destruct (Z.ltb_spec c 0); [|lia]. done. }
    destruct (set_default_result (override_device c) (Some x) rt p p1 Hpos E')
      as (Hv & Hlt & _).
    exists c. split; [done|]. split; [by split|].
    intros cs rt' Hc'. rewrite (ShareDefaultResource_device_current c) by done.
    eexists. apply (share_default_populated (device_slot c)); [done|].
    apply run_lookups_keep_slot. by split.
Qed.

Lemma device_kind_override_is_the_current_slot_witness :
  ∃ p1 p3,
    SetDefaultResource_device (Some device_0_pool)
      (with_cudaGetDevice (cudaSuccess, 1) two_devices) process_with_device_0
      = (Ret tt, p1) ∧
    ShareDefaultResource memory_kind.device
      (with_cudaGetDevice (cudaSuccess, 1) two_devices) p1
      = (Ret (Some device_0_pool), p3).
Proof.
  destruct (SetDefaultResource_device (Some device_0_pool)
              (with_cudaGetDevice (cudaSuccess, 1) two_devices) process_with_device_0)
    as [o p1] eqn:E.
  assert (o = Ret tt) as -> by (vm_compute in E; by simplify_eq).
  destruct (device_kind_override_is_the_current_slot (Some device_0_pool)
              (with_cudaGetDevice (cudaSuccess, 1) two_devices) process_with_device_0)
    as (_ & _ & Hback).
  destruct (Hback device_0_pool p1 eq_refl E) as (c & Hc & _ & Hlater).
  assert (c = 1) as -> by (vm_compute in Hc; by simplify_eq).
  destruct (Hlater [] (with_cudaGetDevice (cudaSuccess, 1) two_devices) eq_refl)
    as [p3 Hagain].
  by exists p1, p3.
Defined.

(** ** Lookups through the table entry *)

Lemma share_default_impl sl rt p :
  share_default sl rt p =
  match lookup_impl sl rt p with
  | (Ret s, p0) => (Ret s, with_mem (sp_copy s) p0)
  | (Throw e, p0) => (Throw e, p0)
  end.
Proof.
  destruct sl; simpl; unfold ShareDefaultResource, ShareDefaultDeviceResource; simpl;
    munfold; by repeat case_match.
Qed.

Lemma get_default_impl sl rt p :
  get_default sl rt p =
  match lookup_impl sl rt p with
  | (Ret s, p0) => (Ret (get <$> s), p0)
  | (Throw e, p0) => (Throw e, p0)
  end.
Proof.
  destruct sl; simpl; unfold GetDefaultResource, GetDefaultDeviceResource; simpl;
    munfold; by repeat case_match.
Qed.

Lemma lookup_impl_populated sl x rt p :
  indexed sl → slot_holds sl x p → lookup_impl sl rt p = (Ret (Some x), p).
Proof.
  rewrite slot_holds_in. intros Hi Hin.
  destruct sl; simpl in *;
    unfold ShareDefaultResourceImpl_host, ShareDefaultResourceImpl_pinned,
      ShareDefaultResourceImpl_managed, ShareDefaultDeviceResourceImpl,
      InitDeviceResArray, CheckDeviceIndex, device_at, if_empty.
  1-3: munfold; rewrite Hin; simpl; by rewrite Hin.
  destruct Hin as [Hlt (arr & Harr & Hx)].
  destruct (Z.ltb_spec d 0); [lia|]. munfold. rewrite Harr. simpl.
  destruct (Z.ltb_spec d 0); [lia|].
  destruct (Z.geb_spec d (num_devices (g_resources p))); [lia|].
  simpl. rewrite Harr, Hx. simpl. by rewrite Harr, Hx.
Qed.

(** ** Raw pointers *)



Lemma alive_keeps_owners (h h' : heap) (a : addr) :
  keeps_owners h h' → alive h a → alive h' a.
Proof.
  intros Hk (b & Hb & ? & ?). destruct (Hk a b Hb) as (b' & ? & ? & ?).
  exists b'. split_and!; [done|lia|congruence].
Qed.

Lemma lookup_impl_result sl rt p r p' :
  indexed sl → lookup_impl sl rt p = (Ret r, p') →
  ∃ x, r = Some x ∧ slot_holds sl x p'.
Proof.
  intros Hi E. setoid_rewrite slot_holds_in. destruct sl; simpl in E.
  - by eapply ShareDefaultResourceImpl_host_result.
  - by eapply ShareDefaultResourceImpl_pinned_result.
  - by eapply ShareDefaultResourceImpl_managed_result.
  - by eapply ShareDefaultDeviceResourceImpl_result.
Qed.

(** X7: the raw pointer a [get_default] returned stays valid through any
    lookups and trims that follow, and every later [get_default] of the
    slot returns the same pointer and changes nothing. *)
Theorem raw_pointer_outlives_lookups
    (sl : slot) (rt : platform) (p : process) (r : option memory_resource) (p1 : process) :
  indexed sl → held_alive p → statics_typed p →
  get_default sl rt p = (Ret r, p1) →
  ∃ mr,
    r = Some mr ∧
    ∀ cs,
      alive (mem (run_lookups cs p1)) (mr_addr mr) ∧
      ∀ rt', get_default sl rt' (run_lookups cs p1) = (Ret (Some mr), run_lookups cs p1).
Proof.
  intros Hi Hheld Htyped E. rewrite get_default_impl in E.
  destruct (lookup_impl sl rt p) as [[s|e] p0] eqn:E0; [|done]. simplify_eq.
  destruct (lookup_impl_result sl rt p s p1 Hi E0) as (x & -> & Hx).
  exists (get x). split; [done|]. intros cs. split.
  - apply (alive_keeps_owners _ _ _ (run_lookups_keep_owners cs p1)).
    by apply (Impl_alive sl rt p x p1).
  - intros rt'. rewrite get_default_impl.
    by rewrite (lookup_impl_populated sl x rt' _ Hi (run_lookups_keep_slot sl x cs p1 Hx)).
Qed.

Lemma raw_pointer_outlives_lookups_witness :
  ∃ mr p1,
    get_default managed_slot two_devices initial_process = (Ret (Some mr), p1) ∧
    alive (mem (run_lookups [(two_devices, call_share_device 1);
                             (two_devices, call_release_unused)] p1)) (mr_addr mr).
Proof.
  destruct (get_default managed_slot two_devices initial_process) as [o p1] eqn:E.
  assert (∃ r, o = Ret r) as [r ->] by (vm_compute in E; simplify_eq; eauto).
  destruct (raw_pointer_outlives_lookups managed_slot two_devices initial_process r p1
              I initial_held_alive initial_statics_typed E) as (mr & -> & Hlater).
  exists mr, p1. split; [done|]. apply Hlater.
Defined.

(** ** The size of the device table *)

Lemma InitDeviceResArray_keeps_size n m : preserves (table_has_size n m) InitDeviceResArray.
Proof.
  intros rt p (Hm & arr & Harr & Hlen).
  rewrite (InitDeviceResArray_sized_table rt p arr Harr). by split; eauto.
Qed.

Lemma run_call_keeps_size n m c :
  keeps_table c → preserves (table_has_size n m) (run_call c).
Proof.
  pose proof (InitDeviceResArray_keeps_size n m) as Hinit.
  intros Hc. destruct c as [[]|[]| | |]; simpl in *; try done.
  all: frame_all; try done.
  all: match goal with H : table_has_size _ _ _ |- _ =>
         destruct H as (Hm & arr & Harr & Hlen) end.
  all: split; simpl; try done; rewrite ?Harr; simpl; eauto.
  all: eexists; split; [done|]; by rewrite length_insert.
Qed.

Lemma run_calls_keep_size n m cs p :
  Forall (λ c, keeps_table c.2) cs →
  table_has_size n m p → table_has_size n m (run_calls cs p).
Proof.
  intros Hcs. revert p. induction Hcs as [|[rt c] cs Hc _ IH]; intros p Hp; simpl; [done|].
  apply IH. by apply run_call_keeps_size.
Qed.

(** X8: the device table is sized once.  Through lookups, trims and
    overrides, on platforms that report any device count, a sized table
    keeps its number of slots and the count it recorded, and an index at
    or above that count is rejected by lookups and overrides alike. *)
Theorem device_table_is_sized_once
    (n : nat) (m : Z) (cs : list (platform * interface_call)) (p : process) :
  table_has_size n m p →
  Forall (λ c, keeps_table c.2) cs →
  table_has_size n m (run_calls cs p) ∧
  ∀ d rt H, 0 ≤ d → m ≤ d →
    (ShareDefaultDeviceResource d rt (run_calls cs p)).1 =
      Throw (std_out_of_range (index_error_message d m)) ∧
    (GetDefaultDeviceResource d rt (run_calls cs p)).1 =
      Throw (std_out_of_range (index_error_message d m)) ∧
    (SetDefaultDeviceResource d H rt (run_calls cs p)).1 =
      Throw (std_out_of_range (index_error_message d m)).
Proof.
  intros Hp Hcs. pose proof (run_calls_keep_size n m cs p Hcs Hp) as Hsize.
  split; [done|]. intros d rt H Hd Hm.
  destruct Hsize as (Hnum & arr & Harr & _).
  pose proof (InitDeviceResArray_sized_table rt _ arr Harr) as Hinit.
  destruct (device_calls_stop_at_check d rt _ H _ Hd Hinit) as (-> & -> & ->); [lia|].
  by rewrite Hnum.
Qed.

Lemma device_table_is_sized_once_witness :
  table_has_size 2 2
    (run_calls [(with_cudaGetDevice (cudaSuccess, 1) two_devices,
                 do_override_current_device None);
                (two_devices, do_lookup (call_get_device 5))]
       process_with_device_0).
Proof.
  refine (proj1 (device_table_is_sized_once 2 2 _ process_with_device_0 _ _)).
  - split; [reflexivity|]. eexists. split; reflexivity.
  - repeat constructor.
Defined.

(** ** One call, one slot *)

Lemma preserves_bind_ret {A B} I (a : A) (k : A → M B) :
  preserves I (k a) → preserves I (bind (ret a) k).
Proof. intros Hk rt p Hp. unfold bind, ret. by apply Hk. Qed.

Lemma InitDeviceResArray_keeps_slot sl v : preserves (slot_is sl v) InitDeviceResArray.
Proof.
  intros rt p Hp. unfold slot_is in *.
  destruct (InitDeviceResArray rt p) as [o p0] eqn:E. simpl.
  apply InitDeviceResArray_effect in E as (_ & _ & Hs). by rewrite Hs.
Qed.

(** What is left of a frame goal: an update of another slot, of the heap
    or of the statics. *)
Ltac other_slot Hne :=
  match goal with
  | H : slot_is ?sl _ _ |- slot_is ?sl _ _ =>
      unfold slot_is, slot_value in *; destruct sl; simpl in *; try done;
      try (match goal with
           | |- context [device (g_resources ?p)] =>
               destruct (device (g_resources p)); simpl in *; try done
           end;
           rewrite list_lookup_insert_ne; [done|];
           intros ?; apply Hne; f_equal; lia)
  end.

Lemma lookup_impl_keeps_other_slots sl sl' v :
  indexed sl → indexed sl' → sl ≠ sl' → preserves (slot_is sl' v) (lookup_impl sl).
Proof.
  intros Hi Hi' Hne. pose proof (InitDeviceResArray_keeps_slot sl' v) as Hinit.
  destruct sl as [| | |d]; simpl.
  4:{ unfold ShareDefaultDeviceResourceImpl.
      destruct (Z.ltb_spec d 0); [simpl in Hi; lia|]. apply preserves_bind_ret.
      frame_all; other_slot Hne. }
  all: frame_all; other_slot Hne.
Qed.

Lemma set_default_keeps_other_slots o H sl' v :
  indexed (slot_of o) → indexed sl' → slot_of o ≠ sl' →
  preserves (slot_is sl' v) (set_default o H).
Proof.
  intros Hi Hi' Hne. pose proof (InitDeviceResArray_keeps_slot sl' v) as Hinit.
  destruct o as [| |d]; simpl.
  3:{ unfold SetDefaultDeviceResource, by_value.
      apply preserves_unwinding; [|intros ? ?; other_slot Hne].
      destruct (Z.ltb_spec d 0); [simpl in Hi; lia|]. apply preserves_bind_ret.
      frame_all; other_slot Hne. }
  all: frame_all; other_slot Hne.
Qed.

(** X9: a lookup or an override of one slot leaves what every other slot
    holds as it is, whether the call returns or throws. *)
Theorem calls_touch_one_slot (sl sl' : slot) (rt : platform) (p : process) :
  indexed sl → indexed sl' → sl ≠ sl' →
  slot_value sl' (share_default sl rt p).2 = slot_value sl' p ∧
  slot_value sl' (get_default sl rt p).2 = slot_value sl' p ∧
  ∀ o H, slot_of o = sl →
    slot_value sl' (set_default o H rt p).2 = slot_value sl' p.
Proof.
  intros Hi Hi' Hne.
  pose proof (lookup_impl_keeps_other_slots sl sl' (slot_value sl' p) Hi Hi' Hne rt p eq_refl)
    as Himpl.
  split_and!.
  - rewrite share_default_impl. by destruct (lookup_impl sl rt p) as [[s|e] p0].
  - rewrite get_default_impl. by destruct (lookup_impl sl rt p) as [[s|e] p0].
  - intros o H <-.
    by apply (set_default_keeps_other_slots o H sl' (slot_value sl' p) Hi Hi' Hne rt p).
Qed.

Lemma calls_touch_one_slot_witness :
  slot_value (device_slot 0)
    (after (share_default (device_slot 1)) two_devices process_with_device_0)
  = Some device_0_pool.
Proof.
  refine (proj1 (calls_touch_one_slot (device_slot 1) (device_slot 0) two_devices
                   process_with_device_0 _ _ _)); simpl; try lia; discriminate.
Defined.

(** ** Construction for an empty slot *)

(** A lookup of an empty slot returns what the construction returns. *)
Lemma share_default_vacant sl rt p r p1 :
  indexed sl → slot_vacant sl p → share_default sl rt p = (Ret r, p1) →
  ∃ x p', construction sl rt p = (Ret x, p') ∧ r = Some x.
Proof.
  intros Hi Hv E. destruct (construction sl rt p) as [[x|e] p'] eqn:Ec.
  - destruct (construction_returns sl rt p x p' Hi Hv Ec) as [p2 E2].
    rewrite E2 in E. simplify_eq. eauto.
  - by rewrite (construction_throws sl rt p e p' Hi Hv Ec) in E.
Qed.

Lemma CreateDefaultDeviceResource_fresh rt p x p' :
  CreateDefaultDeviceResource rt p = (Ret x, p') →
  (length (mem p) ≤ mr_addr (get x))%nat.
Proof.
  open_constructors. intros E. exec; simpl; rewrite ?length_allocate; lia.
Qed.

Lemma device_construction d rt p x p' :
  construction (device_slot d) rt p = (Ret x, p') →
  device_built_as
    (select_device_strategy (flag_setting device_pool_enable rt p)
       (DALI_USE_CUDA_VM_MAP rt && cuvm_IsSupported rt)
       (flag_setting vmm_enable rt p)) d x ∧
  (length (mem p) ≤ mr_addr (get x))%nat.
Proof.
  unfold construction, DeviceGuard, static_once. intros E. exec; loader_done.
  all: match goal with
       | H : CreateDefaultDeviceResource _ _ = _ |- _ =>
           pose proof (CreateDefaultDeviceResource_fresh _ _ _ _ H) as Hfresh;
           apply CreateDefaultDeviceResource_strategy in H as (dev & Hdev & Hbuilt)
       end.
  all: simpl in *; by simplify_eq.
Qed.

Lemma InitDeviceResArray_returns_sized rt p p0 :
  InitDeviceResArray rt p = (Ret tt, p0) → ∃ arr, device (g_resources p0) = Some arr.
Proof. unfold InitDeviceResArray. intros E. exec; eauto. Qed.

(** A device call on a table that is not sized is the call on the table
    once sized. *)
Lemma device_lookup_after_init d rt p p0 :
  0 ≤ d → InitDeviceResArray rt p = (Ret tt, p0) →
  ShareDefaultDeviceResource d rt p = ShareDefaultDeviceResource d rt p0.
Proof.
  intros Hd E. destruct (InitDeviceResArray_returns_sized rt p p0 E) as [arr Harr].
  pose proof (InitDeviceResArray_sized_table rt p0 arr Harr) as E0.
  unfold ShareDefaultDeviceResource, ShareDefaultDeviceResourceImpl.
  destruct (Z.ltb_spec d 0); [lia|]. munfold. by rewrite E, E0.
Qed.

(** For an index given explicitly the current device is never asked. *)
Lemma ignores_bind {A B} (m : M A) (k : A → M B) :
  ignores_current_device m → (∀ a, ignores_current_device (k a)) →
  ignores_current_device (bind m k).
Proof.
  intros Hm Hk current rt p. unfold bind. rewrite Hm.
  destruct (m rt p) as [[a|e] p']; [apply Hk|done].
Qed.

Lemma ignores_ret {A} (a : A) : ignores_current_device (ret a).
Proof. done. Qed.

Lemma ignores_throw {A} e : ignores_current_device (throw (A := A) e).
Proof. done. Qed.

Lemma ignores_read {A} (f : process → A) : ignores_current_device (read f).
Proof. done. Qed.

Lemma ignores_modify f : ignores_current_device (modify f).
Proof. done. Qed.

Lemma ignores_InitDeviceResArray : ignores_current_device InitDeviceResArray.
Proof.
  intros current rt p. unfold InitDeviceResArray. munfold.
  destruct (device (g_resources p)) eqn:E; [done|]. rewrite E. simpl.
  destruct (cudaGetDeviceCount rt) as [[] a]; try done. by destruct (a <? 0).
Qed.

Lemma ignores_DeviceGuard {A} d (scope : M A) : ignores_current_device (DeviceGuard d scope).
Proof.
  intros current rt p. unfold DeviceGuard. munfold. simpl.
  by destruct (DeviceGuard_ctor rt d).
Qed.

Lemma device_lookup_ignores_current_device d :
  0 ≤ d → ignores_current_device (ShareDefaultDeviceResource d).
Proof.
  intros Hd. unfold ShareDefaultDeviceResource, ShareDefaultDeviceResourceImpl.
  destruct (Z.ltb_spec d 0); [lia|].
  unfold CheckDeviceIndex, device_at.
  repeat first
    [ apply ignores_InitDeviceResArray
    | apply ignores_DeviceGuard
    | apply ignores_ret
    | apply ignores_throw
    | apply ignores_read
    | apply ignores_modify
    | apply ignores_bind; [|intros ?]
    | match goal with
      | |- ignores_current_device (match ?x with _ => _ end) => destruct x
      end ].
Qed.

(** X10: the lookup of an empty device slot builds the allocator for the
    device of the slot, not for the device that is current in the
    caller: the current device is not even asked.  The allocator is the
    one the flags select, it is a new object, and the slot holds it
    afterwards. *)
Theorem device_default_is_built_for_its_slot
    (d : Z) (rt : platform) (p : process) (r : shared_ptr) (p1 : process) :
  0 ≤ d → slot_vacant (device_slot d) p →
  share_default (device_slot d) rt p = (Ret r, p1) →
  (∃ x,
     r = Some x ∧
     device_built_as
       (select_device_strategy (flag_setting device_pool_enable rt p)
          (DALI_USE_CUDA_VM_MAP rt && cuvm_IsSupported rt)
          (flag_setting vmm_enable rt p)) d x ∧
     (length (mem p) ≤ mr_addr (get x))%nat ∧
     slot_holds (device_slot d) x p1) ∧
  (∀ current, share_default (device_slot d) (with_cudaGetDevice current rt) p = (Ret r, p1)).
Proof.
  intros Hd Hv E. split.
  - destruct (share_default_vacant (device_slot d) rt p r p1 Hd Hv E) as (x & p' & Ec & ->).
    destruct (device_construction d rt p x p' Ec) as [Hbuilt Hfresh].
    destruct (share_default_result (device_slot d) rt p _ p1 Hd E) as (? & [= <-] & Hx).
    by exists x.
  - intros current. simpl. by rewrite (device_lookup_ignores_current_device d Hd).
Qed.

Lemma device_default_is_built_for_its_slot_witness :
  ∃ p1,
    share_default (device_slot 1) two_devices process_with_device_0
      = (Ret (Some device_1_pool), p1) ∧
    share_default (device_slot 1) (with_cudaGetDevice (cudaErrorOther 3, 0) two_devices)
      process_with_device_0 = (Ret (Some device_1_pool), p1).
Proof.
  destruct (share_default (device_slot 1) two_devices process_with_device_0)
    as [o p1] eqn:E.
  assert (o = Ret (Some device_1_pool)) as -> by (vm_compute in E; by simplify_eq).
  destruct (device_default_is_built_for_its_slot 1 two_devices process_with_device_0
              (Some device_1_pool) p1) as [_ Hany].
  - lia.
  - split; [reflexivity|]. eexists. split; reflexivity.
  - exact E.
  - exists p1. split; [done|]. apply Hany.
Defined.

(** ** Reset of the device table *)

Lemma replicate_None_vacant (n : Z) (d : Z) :
  0 ≤ d < n →
  replicate (Z.to_nat n) (None : shared_ptr) !! Z.to_nat d = Some None.
Proof. intros Hd. apply lookup_replicate. split; [done|lia]. Qed.

(** X11: the reset for tests does not fail and does not consult the
    teardown guard: the device table is freed, its handles are released
    from the last slot to the first, and the recorded count is zero; the
    other slots and the statics stay.  The next device lookup sizes the
    table from the device count of that moment and builds a new
    object. *)
Theorem reset_frees_the_device_table (rt : platform) (p : process) :
  ∃ p',
    _Test_FreeDeviceResources rt p = (Ret tt, p') ∧
    device (g_resources p') = None ∧
    num_devices (g_resources p') = 0 ∧
    (∀ sl, slot_value sl p' = match sl with device_slot _ => None | _ => slot_value sl p end) ∧
    locals p' = locals p ∧
    mem p' = foldr sp_release (mem p) (default [] (device (g_resources p))) ∧
    (∀ rt' n d, healthy rt' → cudaGetDeviceCount rt' = (cudaSuccess, n) → 0 ≤ d < n →
       ∃ x p2,
         share_default (device_slot d) rt' p' = (Ret (Some x), p2) ∧
         table_has_size (Z.to_nat n) n p2 ∧
         slot_holds (device_slot d) x p2 ∧
         (length (mem p') ≤ mr_addr (get x))%nat).
Proof.
  eexists. split; [reflexivity|]. simpl.
  set (p' := with_resources _ (with_mem _ _)).
  split_and!; try done.
  - by intros [].
  - unfold unique_array_pointer. simpl. by destruct (device (g_resources p)).
  - intros rt' n d Hh Hcount Hd.
    assert (device (g_resources p') = None) as Hnone by done.
    pose proof (InitDeviceResArray_count rt' p' n Hnone Hcount ltac:(lia)) as Hinit.
    set (p0 := with_resources _ p') in Hinit.
    assert (table_has_size (Z.to_nat n) n p0) as Hsize.
    { split; [done|]. eexists. split; [done|]. by rewrite length_replicate. }
    assert (slot_vacant (device_slot d) p0) as Hv.
    { split; [simpl; lia|]. eexists. split; [done|]. by apply replicate_None_vacant. }
    assert (index_accepted (device_slot d) rt' p0) as Ha.
    { simpl. rewrite length_replicate. lia. }
    destruct (share_default_returns (device_slot d) rt' p0 (proj1 Hd) Hh Ha) as (r & p2 & E).
    destruct (share_default_vacant (device_slot d) rt' p0 r p2 (proj1 Hd) Hv E)
      as (x & pc & Ec & ->).
    destruct (device_construction d rt' p0 x pc Ec) as [_ Hfresh].
    destruct (share_default_result (device_slot d) rt' p0 _ p2 (proj1 Hd) E)
      as (? & [= <-] & Hx).
    exists x, p2. split_and!; try done.
    + simpl. by rewrite (device_lookup_after_init d rt' p' p0 (proj1 Hd) Hinit).
    + pose proof (run_call_keeps_size (Z.to_nat n) n (do_lookup (call_share_device d)) I
                    rt' p0 Hsize) as Hkeep.
      simpl in Hkeep. unfold bind in Hkeep. simpl in E. rewrite E in Hkeep. exact Hkeep.
Qed.

Lemma reset_frees_the_device_table_witness :
  ∃ p' x p2,
    _Test_FreeDeviceResources two_devices process_with_device_0 = (Ret tt, p') ∧
    share_default (device_slot 0) two_devices p' = (Ret (Some x), p2) ∧
    (2 ≤ mr_addr (get x))%nat.
Proof.
  destruct (reset_frees_the_device_table two_devices process_with_device_0)
    as (p' & Hrun & _ & _ & _ & _ & Hmem & Hnext).
  destruct (Hnext two_devices 2 0 two_devices_healthy eq_refl ltac:(lia))
    as (x & p2 & Hshare & _ & _ & Hfresh).
  exists p', x, p2. split_and!; [done|done|].
  rewrite Hmem in Hfresh. exact Hfresh.
Defined.

(** ** Statics across calls *)

Lemma static_resource_keeps_static value set_value t h :
  preserves (static_holds value h) (static_resource value set_value t).
Proof.
  intros rt p Hp. unfold static_holds, static_resource, make_shared in *.
  munfold. rewrite Hp. done.
Qed.

Lemma static_resource_keeps_other_static value value' set_value t h :
  (∀ v s, value' (set_value v s) = value' s) →
  preserves (static_holds value' h) (static_resource value set_value t).
Proof.
  intros Hset. unfold static_resource, make_shared. frame_all.
  all: unfold static_holds in *; simpl; by rewrite ?Hset.
Qed.

Lemma length_sp_copy (s : shared_ptr) (h : heap) : length (sp_copy s h) = length h.
Proof. destruct s; [|done]. unfold sp_copy. by rewrite length_alter. Qed.

Lemma length_drop_refs (us : list memory_resource) (h : heap) :
  length (foldl (λ h' u, drop_ref (mr_addr u) h') h us) = length h.
Proof.
  revert h. induction us as [|u us IH]; intros h; simpl; [done|].
  rewrite IH. unfold drop_ref. by rewrite length_alter.
Qed.

Lemma length_sp_release (s : shared_ptr) (h : heap) : length (sp_release s h) = length h.
Proof.
  destruct s as [x|]; [|done]. unfold sp_release.
  destruct (last_owner h (mr_addr (get x))); rewrite ?length_drop_refs;
    unfold drop_ref; by rewrite length_alter.
Qed.

Lemma length_releases (l : list shared_ptr) (h : heap) :
  length (foldr sp_release h l) = length h.
Proof. induction l as [|s l IH]; simpl; [done|]. by rewrite length_sp_release. Qed.

Lemma length_release_unused pool (h : heap) : length (release_unused pool h) = length h.
Proof. unfold release_unused. by rewrite length_alter. Qed.

Lemma run_call_keeps_heap n c : preserves (heap_at_least n) (run_call c).
Proof.
  destruct c as [[]| [] | | |]; simpl.
  all: frame_all; try done.
  all: unfold heap_at_least in *; simpl.
  all: rewrite ?length_sp_copy, ?length_sp_release, ?length_release_unused,
         ?length_allocate; try lia.
  all: match goal with
       | |- context [device (g_resources ?p)] => destruct (device (g_resources p)); simpl
       end; rewrite ?length_releases; lia.
Qed.

Lemma run_calls_keep_heap n cs p : heap_at_least n p → heap_at_least n (run_calls cs p).
Proof.
  revert p. induction cs as [|[rt c] cs IH]; intros p Hp; simpl; [done|].
  apply IH. by apply run_call_keeps_heap.
Qed.

(** The statics are never reset: what a call finds in one it leaves
    there. *)
Ltac static_frame :=
  pose proof (static_resource_keeps_static host_rsrc set_host_rsrc) as Hhost;
  pose proof (static_resource_keeps_static pinned_upstream_plain set_pinned_upstream_plain)
    as Hplain;
  pose proof (static_resource_keeps_static pinned_upstream_pool set_pinned_upstream_pool)
    as Hpool;
  pose proof (static_resource_keeps_static managed_rsrc set_managed_rsrc) as Hmanaged;
  frame_all; try done;
  try match goal with
      | |- preserves (static_holds ?v _) (static_resource ?v _ _) =>
          by apply static_resource_keeps_static
      | |- preserves (static_holds _ _) (static_resource _ _ _) =>
          by apply static_resource_keeps_other_static
      end.

Lemma run_call_keeps_host_rsrc h c : preserves (static_holds host_rsrc h) (run_call c).
Proof. destruct c as [[]| [] | | |]; simpl; static_frame. Qed.

Lemma run_call_keeps_managed_rsrc h c : preserves (static_holds managed_rsrc h) (run_call c).
Proof. destruct c as [[]| [] | | |]; simpl; static_frame. Qed.

Lemma run_call_keeps_pinned_upstream_pool h c :
  preserves (static_holds pinned_upstream_pool h) (run_call c).
Proof. destruct c as [[]| [] | | |]; simpl; static_frame. Qed.

Lemma run_call_keeps_site site c : preserves (site_constructed site) (run_call c).
Proof.
  destruct c as [[]| [] | | |]; simpl.
  all: frame_all; try done.
  all: unfold site_constructed in *; simpl; apply elem_of_app; by left.
Qed.

Lemma run_call_keeps_static_built sl x c : preserves (static_built sl x) (run_call c).
Proof.
  intros rt p Hp. destruct sl; simpl in *; try done.
  - by apply run_call_keeps_host_rsrc.
  - destruct Hp. split; [by apply run_call_keeps_managed_rsrc|by apply run_call_keeps_site].
Qed.

Lemma run_calls_keep {I : process → Prop} cs p :
  (∀ c, preserves I (run_call c)) → I p → I (run_calls cs p).
Proof.
  intros Hc. revert p. induction cs as [|[rt c] cs IH]; intros p Hp; simpl; [done|].
  apply IH. by apply Hc.
Qed.

(** ** The host and the managed default *)

Lemma lookup_builds_static sl rt p r p1 :
  sl = host_slot ∨ sl = managed_slot → slot_vacant sl p →
  share_default sl rt p = (Ret r, p1) →
  ∃ x, r = Some x ∧ static_built sl x p1.
Proof.
  intros [-> | ->] Hv; simpl in *;
    unfold ShareDefaultResource, ShareDefaultResourceImpl,
      ShareDefaultResourceImpl_host, ShareDefaultResourceImpl_managed,
      if_empty, assign, static_once;
    open_constructors; intros E; exec; loader_done; simpl in *.
  all: eexists; (split; [reflexivity|]).
  all: unfold static_holds, site_constructed; simpl; try done.
  all: split; [done|].
  all: rewrite ?elem_of_app, ?list_elem_of_singleton; auto.
  all: repeat match goal with
         | H : bool_decide _ = true |- _ => apply bool_decide_eq_true_1 in H
         end; auto.
Qed.

Lemma lookup_of_static sl x rt p :
  static_built sl x p → slot_vacant sl p →
  ∃ p3, share_default sl rt p = (Ret (Some x), p3) ∧
        slot_holds sl x p3 ∧
        length (mem p3) = length (mem p).
Proof.
  intros Hs Hv. destruct sl; simpl in *; try done;
    unfold ShareDefaultResource, ShareDefaultResourceImpl,
      ShareDefaultResourceImpl_host, ShareDefaultResourceImpl_managed,
      if_empty, assign, static_once, static_holds, site_constructed in *;
    open_constructors; munfold; rewrite Hv; simpl; rewrite Hv; simpl.
  - rewrite Hs. simpl. eexists. split; [done|]. simpl.
    split; [done|]. by rewrite length_sp_copy, length_sp_release, length_sp_copy.
  - destruct Hs as [Hs Hinit]. rewrite (bool_decide_eq_true_2 _ Hinit). simpl.
    rewrite Hs. simpl. case_bool_decide; simpl.
    all: eexists; (split; [done|]); simpl.
    all: split; [done|]; by rewrite length_sp_copy, length_sp_release, length_sp_copy.
Qed.

(** X12: the default allocator of the host slot, and of the managed
    slot, is one object for the whole process.  Once a lookup has built
    it, then after any calls of the interface (overrides, the reset, the
    teardown), whenever the slot is empty again a lookup returns that
    same object, on any platform, and allocates nothing. *)
Theorem static_default_is_a_process_singleton
    (sl : slot) (rt : platform) (p : process) (r : shared_ptr) (p1 : process) :
  sl = host_slot ∨ sl = managed_slot → slot_vacant sl p →
  share_default sl rt p = (Ret r, p1) →
  ∃ x,
    r = Some x ∧
    ∀ cs rt',
      slot_vacant sl (run_calls cs p1) →
      ∃ p3,
        share_default sl rt' (run_calls cs p1) = (Ret (Some x), p3) ∧
        slot_holds sl x p3 ∧
        length (mem p3) = length (mem (run_calls cs p1)).
Proof.
  intros Hsl Hv E. destruct (lookup_builds_static sl rt p r p1 Hsl Hv E) as (x & -> & Hs).
  exists x. split; [done|]. intros cs rt' Hv'.
  apply lookup_of_static; [|done].
  apply run_calls_keep; [|done]. apply run_call_keeps_static_built.
Qed.

Lemma static_default_is_a_process_singleton_witness :
  ∃ x p1 p3,
    share_default host_slot two_devices initial_process = (Ret (Some x), p1) ∧
    share_default host_slot (with_cudaGetLastError cudaErrorCudartUnloading two_devices)
      (run_calls [(two_devices, do_teardown)] p1) = (Ret (Some x), p3).
Proof.
  destruct (share_default host_slot two_devices initial_process) as [o p1] eqn:E.
  assert (∃ r, o = Ret r) as [r ->] by (vm_compute in E; simplify_eq; eauto).
  destruct (static_default_is_a_process_singleton host_slot two_devices initial_process
              r p1) as (x & -> & Hlater); [by left | done | done |].
  destruct (Hlater [(two_devices, do_teardown)]
              (with_cudaGetLastError cudaErrorCudartUnloading two_devices))
    as (p3 & Hagain & _).
  { vm_compute in E. by simplify_eq. }
  by exists x, p1, p3.
Defined.

(** ** The pinned pool *)

Lemma pinned_lookup_builds rt p r p1 :
  statics_typed p → slot_vacant pinned_slot p →
  share_default pinned_slot rt p = (Ret r, p1) →
  flag_setting pinned_pool_enable rt p = true →
  ∃ a u,
    r = Some {| get := MR a (async_pool_tree_resource memory_kind.pinned) (Some u);
                kept := [u] |} ∧
    (length (mem p) ≤ a)%nat ∧
    pinned_pool_over u p1 ∧
    heap_at_least (S a) p1.
Proof.
  intros (_ & _ & Hpool & _) Hv. simpl in *.
  unfold ShareDefaultResource, ShareDefaultResourceImpl, ShareDefaultResourceImpl_pinned,
    if_empty, assign, static_once.
  open_constructors. intros E. exec; loader_done; simpl in *.
  all: unfold flag_setting; simpl; use_equations; simpl; intros Hflag;
       try discriminate; by_flags.
  all: use_typed_statics; simpl in *.
  all: eexists _, _; (split; [reflexivity|]).
  all: unfold pinned_pool_over, flag_cached, static_holds, heap_at_least; simpl.
  all: rewrite ?length_sp_copy, ?length_sp_release, ?length_sp_copy, ?length_allocate.
  all: split_and!; try done; try lia.
Qed.

Lemma pinned_construction_over u rt p x p' :
  pinned_pool_over u p →
  construction pinned_slot rt p = (Ret x, p') →
  x = {| get := MR (length (mem p)) (async_pool_tree_resource memory_kind.pinned) (Some u);
         kept := [u] |}.
Proof.
  intros [Hf Hs]. unfold flag_cached, static_holds in *. simpl in *.
  unfold construction, static_once. open_constructors. intros E.
  exec; loader_done; simpl in *; by simplify_eq.
Qed.

Lemma run_call_keeps_pinned_pool u c : preserves (pinned_pool_over u) (run_call c).
Proof.
  intros rt p [Hf Hs]. split.
  - by apply run_call_keeps_flags.
  - by apply run_call_keeps_pinned_upstream_pool.
Qed.

(** X13: with pinned pooling switched on, the lookup of the empty pinned
    slot builds a new tree pool over the static plain pinned upstream
    and keeps that upstream in the handle.  Whenever the slot is empty
    again after any calls of the interface, a lookup builds another pool,
    a different object, over the same upstream. *)
Theorem pinned_pool_is_rebuilt_over_its_upstream
    (rt : platform) (p : process) (r : shared_ptr) (p1 : process) :
  statics_typed p → slot_vacant pinned_slot p →
  flag_setting pinned_pool_enable rt p = true →
  share_default pinned_slot rt p = (Ret r, p1) →
  ∃ a u,
    r = Some {| get := MR a (async_pool_tree_resource memory_kind.pinned) (Some u);
                kept := [u] |} ∧
    (length (mem p) ≤ a)%nat ∧
    pinned_upstream_pool (locals p1) = Some {| get := u; kept := [] |} ∧
    ∀ cs rt' r' p3,
      slot_vacant pinned_slot (run_calls cs p1) →
      share_default pinned_slot rt' (run_calls cs p1) = (Ret r', p3) →
      ∃ a',
        r' = Some {| get := MR a' (async_pool_tree_resource memory_kind.pinned) (Some u);
                     kept := [u] |} ∧
        (a < a')%nat.
Proof.
  intros Ht Hv Hflag E.
  destruct (pinned_lookup_builds rt p r p1 Ht Hv E Hflag) as (a & u & -> & Hfresh & Hover & Hheap).
  exists a, u. split_and!; [done|done|apply Hover|].
  intros cs rt' r' p3 Hv' E'.
  destruct (share_default_vacant pinned_slot rt' _ r' p3 I Hv' E') as (x' & pc & Ec & ->).
  pose proof (run_calls_keep cs p1 (run_call_keeps_pinned_pool u) Hover) as Hover'.
  pose proof (run_calls_keep_heap (S a) cs p1 Hheap) as Hheap'.
  rewrite (pinned_construction_over u rt' _ x' pc Hover' Ec).
  eexists. split; [done|]. unfold heap_at_least in Hheap'. lia.
Qed.

Lemma pinned_pool_is_rebuilt_over_its_upstream_witness :
  ∃ p1 p3,
    share_default pinned_slot two_devices initial_process =
      (Ret (Some sample_pinned_pool), p1) ∧
    share_default pinned_slot two_devices
      (run_calls [(two_devices, do_override override_pinned None)] p1) =
      (Ret (Some {| get := MR 2%nat (async_pool_tree_resource memory_kind.pinned)
                            (Some (MR 0%nat pinned_malloc_memory_resource None));
                    kept := [MR 0%nat pinned_malloc_memory_resource None] |}), p3).
Proof.
  destruct (share_default pinned_slot two_devices initial_process) as [o p1] eqn:E.
  assert (∃ r, o = Ret r) as [r ->] by (vm_compute in E; simplify_eq; eauto).
  destruct (pinned_pool_is_rebuilt_over_its_upstream two_devices initial_process r p1
              initial_statics_typed eq_refl eq_refl E)
    as (a & u & -> & _ & _ & Hlater).
  destruct (share_default pinned_slot two_devices
              (run_calls [(two_devices, do_override override_pinned None)] p1))
    as [o3 p3] eqn:E3.
  assert (∃ r3, o3 = Ret r3) as [r3 ->].
  { vm_compute in E. simplify_eq. vm_compute in E3. simplify_eq. eauto. }
  destruct (Hlater [(two_devices, do_override override_pinned None)] two_devices r3 p3)
    as (a' & -> & _); [|done|].
  { vm_compute in E. by simplify_eq. }
  exists p1, p3. vm_compute in E. simplify_eq. vm_compute in E3. simplify_eq.
  split; reflexivity.
Defined.

(** ** Preallocation *)

Lemma same_owners_refl (h : heap) : same_owners h h.
Proof. split; [done|]. intros a b Hb. by exists b. Qed.

Lemma same_owners_trans (h1 h2 h3 : heap) :
  same_owners h1 h2 → same_owners h2 h3 → same_owners h1 h3.
Proof.
  intros [Hl12 H12] [Hl23 H23]. split; [congruence|]. intros a b Hb.
  destruct (H12 a b Hb) as (b2 & Hb2 & ? & ?).
  destruct (H23 a b2 Hb2) as (b3 & Hb3 & ? & ?).
  exists b3. split_and!; [done|congruence..].
Qed.

(** A copy of a handle to a valid object, released again: the use counts
    are what they were, whatever an allocator did in between. *)
Lemma same_owners_copy_release (h h1 : heap) (x : handle) :
  alive h (mr_addr (get x)) →
  same_owners (sp_copy (Some x) h) h1 →
  same_owners h (sp_release (Some x) h1).
Proof.
  intros (b & Hb & Ho & Hd) [Hlen Hsame].
  assert (sp_copy (Some x) h !! mr_addr (get x) = Some (add_owner b)) as Hcopy
    by (unfold sp_copy; by rewrite list_lookup_alter_eq, Hb).
  destruct (Hsame _ _ Hcopy) as (b1 & Hb1 & Ho1 & Hd1). simpl in *.
  unfold sp_release, last_owner. rewrite Hb1.
  destruct (Nat.eqb_spec (owners b1) 1); [lia|].
  split.
  - unfold drop_ref. rewrite length_alter, Hlen. apply length_sp_copy.
  - intros a' b' Hb'. unfold drop_ref.
    destruct (decide (mr_addr (get x) = a')) as [<-|Hne].
    + rewrite list_lookup_alter_eq, Hb1. simpl. simplify_eq.
      eexists. split; [done|]. unfold remove_owner.
      destruct (owners b1) as [|[|k]] eqn:Ek; simpl; try lia. split; [lia|congruence].
    + rewrite list_lookup_alter_ne by done. apply Hsame.
      unfold sp_copy. by rewrite list_lookup_alter_ne.
Qed.

Lemma allocate_and_deallocate_owners allocate deallocate x bytes rt p0 :
  allocator_keeps_owners allocate → allocator_keeps_owners deallocate →
  alive (mem p0) (mr_addr (get x)) →
  g_resources (allocate_and_deallocate allocate deallocate (Some x) bytes rt
                 (with_mem (sp_copy (Some x)) p0)).2 = g_resources p0 ∧
  locals (allocate_and_deallocate allocate deallocate (Some x) bytes rt
            (with_mem (sp_copy (Some x)) p0)).2 = locals p0 ∧
  same_owners (mem p0)
    (mem (allocate_and_deallocate allocate deallocate (Some x) bytes rt
            (with_mem (sp_copy (Some x)) p0)).2).
Proof.
  intros Ha Hd Halive. unfold allocate_and_deallocate, call_allocator. munfold. simpl.
  pose proof (Ha (get x) bytes (sp_copy (Some x) (mem p0))) as Ha1.
  destruct (allocate (get x) bytes (sp_copy (Some x) (mem p0))) as [[[]|e] h1]; simpl in *.
  - pose proof (Hd (get x) bytes h1) as Hd1.
    destruct (deallocate (get x) bytes h1) as [[[]|e] h2]; simpl in *.
    all: split_and!; try done.
    all: apply same_owners_copy_release; [done|].
    all: by eapply same_owners_trans.
  - split_and!; try done. by apply same_owners_copy_release.
Qed.

Lemma preallocation_through_slot allocate deallocate sl bytes rt p :
  allocator_keeps_owners allocate → allocator_keeps_owners deallocate →
  indexed sl → held_alive p → statics_typed p →
  preallocated sl rt p
    (bind (share_default sl)
       (λ res, allocate_and_deallocate allocate deallocate res bytes) rt p).
Proof.
  intros Ha Hd Hi Hheld Htyped. unfold preallocated, bind.
  rewrite get_default_impl, share_default_impl.
  destruct (lookup_impl sl rt p) as [[s|e] p0] eqn:E0; simpl.
  - destruct (lookup_impl_result sl rt p s p0 Hi E0) as (x & -> & _).
    pose proof (Impl_alive sl rt p x p0 Hi Hheld Htyped E0) as Halive.
    destruct (allocate_and_deallocate_owners allocate deallocate x bytes rt p0 Ha Hd Halive)
      as (? & ? & ?).
    by split_and!.
  - split_and!; try done; [apply same_owners_refl|]. by intros ? [= <-].
Qed.

(** X14: a preallocation looks the default allocator up as [get_default]
    does, and fails with the error of that lookup before any allocator
    is called.  The handle it holds while it allocates and gives back is
    released on every way out: with allocator calls that leave the
    control blocks alone, the table and the statics are those of the
    lookup and every use count is what the lookup left, whether the
    allocator returned or threw. *)
Theorem preallocation_keeps_no_handle
    (allocate deallocate : memory_resource → N → heap → outcome unit * heap)
    (bytes : N) (rt : platform) (p : process) :
  allocator_keeps_owners allocate → allocator_keeps_owners deallocate →
  held_alive p → statics_typed p →
  preallocated pinned_slot rt p
    (PreallocatePinnedMemory allocate deallocate bytes rt p) ∧
  ∀ d, 0 ≤ d →
    preallocated (device_slot d) rt p
      (PreallocateDeviceMemory allocate deallocate bytes d rt p).
Proof.
  intros Ha Hd Hheld Htyped. split.
  - by apply (preallocation_through_slot allocate deallocate pinned_slot).
  - intros d Hi. by apply (preallocation_through_slot allocate deallocate (device_slot d)).
Qed.

Lemma sample_allocate_keeps_owners : allocator_keeps_owners sample_allocate.
Proof. intros r n h. apply same_owners_refl. Qed.

Lemma sample_deallocate_keeps_owners : allocator_keeps_owners sample_deallocate.
Proof.
  intros r n h. unfold sample_deallocate. simpl. split; [by rewrite length_alter|].
  intros a b Hb. destruct (decide (mr_addr r = a)) as [<-|Hne].
  - exists (cache_block n b). by rewrite list_lookup_alter_eq, Hb.
  - exists b. by rewrite list_lookup_alter_ne.
Qed.

Lemma preallocation_keeps_no_handle_witness :
  (PreallocatePinnedMemory sample_allocate sample_deallocate 4096 two_devices
     initial_process).1 = Ret tt ∧
  same_owners
    (mem (get_default pinned_slot two_devices initial_process).2)
    (mem (PreallocatePinnedMemory sample_allocate sample_deallocate 4096 two_devices
            initial_process).2).
Proof.
  destruct (preallocation_keeps_no_handle sample_allocate sample_deallocate 4096
              two_devices initial_process
              sample_allocate_keeps_owners sample_deallocate_keeps_owners
              initial_held_alive initial_statics_typed) as [(_ & _ & Hsame & _) _].
  split; [reflexivity|exact Hsame].
Defined.

(** ** Trimming in the states the interface reaches *)

Lemma same_owners_trim_pools (l : list memory_resource) (h : heap) :
  same_owners h (trim_pools l h).
Proof.
  split.
  - unfold trim_pools. revert h. induction l as [|r l IH]; intros h; simpl; [done|].
    by rewrite IH, length_release_unused.
  - intros a b Hb. rewrite lookup_trim_pools, Hb.
    case_bool_decide; simpl; eexists; split; done.
Qed.

(** X15: in every state the interface can bring the process into, by
    lookups, overrides with any handles, resets and teardowns in any
    order, the recorded device count does not exceed the device table,
    so trimming reads no slot past the table: it returns normally,
    leaves the table and the statics as they are, changes no use count
    and destroys nothing. *)
Theorem trimming_is_safe_in_every_reachable_state (p : process) (rt : platform) :
  reachable p →
  table_sized p ∧
  ∃ p1,
    ReleaseUnusedMemory rt p = (Ret tt, p1) ∧
    g_resources p1 = g_resources p ∧
    locals p1 = locals p ∧
    same_owners (mem p) (mem p1).
Proof.
  intros Hr. pose proof (reachable_sized p Hr) as Hsized. split; [done|].
  eexists. split; [by apply ReleaseUnusedMemory_run|]. simpl.
  split_and!; try done. apply same_owners_trim_pools.
Qed.

Lemma trimming_is_safe_in_every_reachable_state_witness :
  ∃ p1,
    ReleaseUnusedMemory two_devices
      (run_calls [(two_devices, do_lookup (call_share_device 1));
                  (two_devices, do_reset_devices);
                  (two_devices, do_override (override_device 0) (Some device_1_pool));
                  (two_devices, do_teardown)] initial_process) = (Ret tt, p1).
Proof.
  destruct (trimming_is_safe_in_every_reachable_state
              (run_calls [(two_devices, do_lookup (call_share_device 1));
                          (two_devices, do_reset_devices);
                          (two_devices, do_override (override_device 0) (Some device_1_pool));
                          (two_devices, do_teardown)] initial_process) two_devices)
    as (_ & p1 & Hrun & _).
  - by eexists.
  - by exists p1.
Defined.

(** ** Lookups and the CUDA runtime *)

(** X16: the host default needs no CUDA runtime: wherever the plain host
    allocator can be constructed, the host lookup returns a handle, with
    every CUDA call failing or not.  The first lookup of the pinned or
    of the managed slot asks for the current device: when that fails the
    lookup throws the CUDA error and leaves the process as it was. *)
Theorem host_default_needs_no_cuda (rt : platform) (p : process) :
  construct rt malloc_memory_resource = None →
  (∃ x p1, share_default host_slot rt p = (Ret (Some x), p1) ∧
           slot_holds host_slot x p1) ∧
  (∀ code v, cudaGetDevice rt = (code, v) → code ≠ cudaSuccess →
     (slot_vacant pinned_slot p → ¬ site_constructed init_cuda_pinned p →
        share_default pinned_slot rt p = (Throw (CUDAError code), p)) ∧
     (slot_vacant managed_slot p → ¬ site_constructed init_cuda_managed p →
        share_default managed_slot rt p = (Throw (CUDAError code), p))).
Proof.
  intros Hn. split.
  - destruct (share_default host_slot rt p) as [[r|e] p1] eqn:E.
    + destruct (share_default_result host_slot rt p r p1 I E) as (x & -> & Hx).
      by exists x, p1.
    + exfalso. simpl in E.
      unfold ShareDefaultResource, ShareDefaultResourceImpl,
        ShareDefaultResourceImpl_host, if_empty, assign in E.
      open_constructors. exec.
  - intros code v Hc Hne. unfold site_constructed. simpl.
    unfold ShareDefaultResource, ShareDefaultResourceImpl,
      ShareDefaultResourceImpl_pinned, ShareDefaultResourceImpl_managed,
      if_empty, static_once, CUDARTLoader.
    split; intros Hv Hsite; munfold; rewrite Hv; simpl; rewrite Hv; simpl;
      rewrite (bool_decide_eq_false_2 _ Hsite); simpl; rewrite Hc; by destruct code.
Qed.

Lemma host_default_needs_no_cuda_witness :
  ∃ x p1,
    share_default host_slot
      {| cudaGetDeviceCount := (cudaErrorOther 100, 0);
         cudaGetDevice := (cudaErrorOther 100, 0);
         cudaGetLastError := cudaErrorOther 100;
         DALI_USE_CUDA_VM_MAP := false;
         cuvm_IsSupported := false;
         getenv := λ _, None;
         DeviceGuard_ctor := λ _, Some (CUDAError (cudaErrorOther 100));
         CUDAEventPool_instance := Some (CUDAError (cudaErrorOther 100));
         construct := λ t, match t with
                           | malloc_memory_resource => None
                           | _ => Some (CUDAError (cudaErrorOther 100))
                           end |} initial_process = (Ret (Some x), p1).
Proof.
  destruct (host_default_needs_no_cuda
              {| cudaGetDeviceCount := (cudaErrorOther 100, 0);
                 cudaGetDevice := (cudaErrorOther 100, 0);
                 cudaGetLastError := cudaErrorOther 100;
                 DALI_USE_CUDA_VM_MAP := false;
                 cuvm_IsSupported := false;
                 getenv := λ _, None;
                 DeviceGuard_ctor := λ _, Some (CUDAError (cudaErrorOther 100));
                 CUDAEventPool_instance := Some (CUDAError (cudaErrorOther 100));
                 construct := λ t, match t with
                                   | malloc_memory_resource => None
                                   | _ => Some (CUDAError (cudaErrorOther 100))
                                   end |} initial_process eq_refl)
    as [(x & p1 & Hrun & _) _].
  by exists x, p1.
Defined.

(** ** Failed construction of a device pool *)

Lemma release_fresh (h : heap) (t : resource_type) (up : option memory_resource) :
  sp_release (Some {| get := MR (length h) t up; kept := [] |}) (allocate h) =
  h ++ [{| owners := 0; dead := true; unused := 0 |}].
Proof.
  unfold sp_release, last_owner, allocate, drop_ref. simpl.
  rewrite list_lookup_middle by done. simpl.
  pose proof (alter_app_r remove_owner h
                [{| owners := 1; dead := false; unused := 0 |}] 0) as E.
  rewrite Nat.add_0_r in E. by rewrite E.
Qed.

Lemma device_construction_throws d rt p e p1 :
  construction (device_slot d) rt p = (Throw e, p1) →
  ∃ l, mem p1 = mem p ++ l ∧ Forall released l.
Proof.
  unfold construction, DeviceGuard, static_once. open_constructors. intros E.
  exec; simpl; rewrite ?release_fresh.
  all: try (exists []; by rewrite app_nil_r).
  all: eexists; split; [reflexivity|]; by repeat constructor.
Qed.

(** X17: a lookup of an empty device slot that throws leaks no object:
    the table is as it was, the objects that existed keep their control
    blocks, and an object that was built on the way, the plain upstream
    of a pool whose construction failed, was destroyed by its only
    owner. *)
Theorem failed_device_construction_leaks_nothing
    (d : Z) (rt : platform) (p : process) (e : exn) (p1 : process) :
  0 ≤ d → slot_vacant (device_slot d) p →
  share_default (device_slot d) rt p = (Throw e, p1) →
  g_resources p1 = g_resources p ∧
  ∃ l, mem p1 = mem p ++ l ∧ Forall released l.
Proof.
  intros Hd Hv E.
  destruct (construction (device_slot d) rt p) as [[x|e'] p'] eqn:Ec.
  - destruct (construction_returns (device_slot d) rt p x p' Hd Hv Ec) as [p2 E2].
    congruence.
  - rewrite (construction_throws (device_slot d) rt p e' p' Hd Hv Ec) in E.
    simplify_eq. split.
    + by eapply construction_keeps_table.
    + by eapply device_construction_throws.
Qed.

Lemma failed_device_construction_leaks_nothing_witness :
  ∃ p1 l,
    share_default (device_slot 1)
      {| cudaGetDeviceCount := (cudaSuccess, 2);
         cudaGetDevice := (cudaSuccess, 0);
         cudaGetLastError := cudaSuccess;
         DALI_USE_CUDA_VM_MAP := true;
         cuvm_IsSupported := false;
         getenv := λ _, None;
         DeviceGuard_ctor := λ _, None;
         CUDAEventPool_instance := None;
         construct := λ t, match t with
                           | async_pool_tree_resource _ => Some std_bad_alloc
                           | _ => None
                           end |} process_with_device_0 = (Throw std_bad_alloc, p1) ∧
    mem p1 = mem process_with_device_0 ++ l ∧
    Forall released l.
Proof.
  eexists. 
  destruct (failed_device_construction_leaks_nothing 1
              {| cudaGetDeviceCount := (cudaSuccess, 2);
                 cudaGetDevice := (cudaSuccess, 0);
                 cudaGetLastError := cudaSuccess;
                 DALI_USE_CUDA_VM_MAP := true;
                 cuvm_IsSupported := false;
                 getenv := λ _, None;
                 DeviceGuard_ctor := λ _, None;
                 CUDAEventPool_instance := None;
                 construct := λ t, match t with
                                   | async_pool_tree_resource _ => Some std_bad_alloc
                                   | _ => None
                                   end |} process_with_device_0 std_bad_alloc _
              ltac:(lia)
              ltac:(split; [reflexivity|]; eexists; split; reflexivity)
              eq_refl) as (_ & l & Hmem & Hdead).
  exists l. split; [reflexivity|]. split; [exact Hmem|exact Hdead].
Defined.

(** * Instances, overrides and trims *)

(** ** Trimming reaches the first pool stage (C4) *)









(** ** Calls that spare a slot *)

Lemma SetDefaultResource_device_current H c rt p :
  cudaGetDevice rt = (cudaSuccess, c) →
  SetDefaultResource_device H rt p = SetDefaultDeviceResource c H rt p.
Proof. intros Hc. unfold SetDefaultResource_device. munfold. by rewrite Hc. Qed.

Lemma SetDefaultResource_device_fails H code v rt p :
  cudaGetDevice rt = (code, v) → code ≠ cudaSuccess →
  SetDefaultResource_device H rt p = (Throw (CUDAError code), with_mem (sp_release H) p).
Proof.
  intros Hc Hne. unfold SetDefaultResource_device. munfold. rewrite Hc. by destruct code.
Qed.

Lemma slot_holds_table sl x p p' :
  g_resources p' = g_resources p → slot_holds sl x p → slot_holds sl x p'.
Proof. rewrite !slot_holds_in. by intros ->. Qed.

Lemma set_default_keeps_slot o H sl x rt p :
  indexed sl → indexed (slot_of o) → slot_of o ≠ sl →
  slot_holds sl x p → slot_holds sl x (set_default o H rt p).2.
Proof.
  intros Hi Hio Hne [Hv Hlt]. split.
  - by apply (set_default_keeps_other_slots o H sl (Some x) Hio Hi Hne rt p).
  - destruct sl as [| | |d]; try done.
    unfold slot_value in Hv.
    destruct (device (g_resources p)) as [arr|] eqn:Harr; [|done].
    destruct (run_call_keeps_size (length arr) (num_devices (g_resources p))
                (do_override o H) I rt p) as [Hn _].
    { split; [done|]. by exists arr. }
    simpl in Hn. by rewrite Hn.
Qed.

Lemma run_call_spares sl x rt c p :
  indexed sl → spares sl (rt, c) →
  slot_holds sl x p → slot_holds sl x (run_call c rt p).2.
Proof.
  intros Hi Hs Hx. destruct c as [c|o H|H| |]; simpl in *.
  - apply slot_holds_in. eapply table_grows_keeps_slot; [apply run_lookup_grows|].
    by apply slot_holds_in.
  - destruct Hs. by apply set_default_keeps_slot.
  - destruct (cudaGetDevice rt) as [code d] eqn:Hc.
    destruct (decide (code = cudaSuccess)) as [->|Hcode].
    + destruct (Hs d Hc) as [Hd Hne].
      rewrite (SetDefaultResource_device_current H d rt p Hc).
      by apply (set_default_keeps_slot (override_device d)).
    + rewrite (SetDefaultResource_device_fails H code d rt p Hc Hcode).
      by apply (slot_holds_table sl x p).
  - destruct sl as [| | |d]; try done. by destruct (Hs d).
  - done.
Qed.

Lemma run_calls_spare sl x cs p :
  indexed sl → Forall (spares sl) cs →
  slot_holds sl x p → slot_holds sl x (run_calls cs p).
Proof.
  intros Hi Hcs. revert p. induction Hcs as [|[rt c] cs Hc _ IH]; intros p Hp; simpl; [done|].
  apply IH. by apply run_call_spares.
Qed.

(** ** One instance per slot (C1) *)




(** ** Overrides (C3) *)

Lemma lookup_drop_refs_other (us : list memory_resource) (h : heap) (a : addr) :
  a ∉ map mr_addr us →
  foldl (λ h' u, drop_ref (mr_addr u) h') h us !! a = h !! a.
Proof.
  revert h. induction us as [|u us IH]; intros h Hn; simpl in *; [done|].
  rewrite IH.
  - unfold drop_ref. rewrite list_lookup_alter_ne; [done|].
    intros E. apply Hn. rewrite E. apply list_elem_of_here.
  - intros Hin. apply Hn. by apply list_elem_of_further.
Qed.

(** A release touches the object of the handle and, when that is
    destroyed, the upstreams the handle kept; no other control block. *)
Lemma sp_release_other (s : shared_ptr) (h : heap) (a : addr) :
  (∀ x, s = Some x → a ≠ mr_addr (get x) ∧ a ∉ map mr_addr (kept x)) →
  sp_release s h !! a = h !! a.
Proof.
  intros Hs. destruct s as [x|]; [|done]. destruct (Hs x eq_refl) as [Hne Hkept].
  unfold sp_release. destruct (last_owner h (mr_addr (get x))).
  - rewrite lookup_drop_refs_other by done.
    unfold drop_ref. by rewrite list_lookup_alter_ne.
  - unfold drop_ref. by rewrite list_lookup_alter_ne.
Qed.

(** C3, as amended: after an override of the host slot, the pinned slot
    or a device slot with a non-empty handle, the slot holds that handle
    and every lookup of the slot returns it, whatever calls that spare
    the slot come in between: until the next override of the slot, the
    reset of the device table for a device slot, or the teardown.  The
    override releases the reference of the table to the previous entry
    and does nothing else to the heap: no other control block changes,
    and the object of the previous entry stays valid when it has another
    owner.  So a handle that a lookup of the slot returned before the
    override, with any lookups and trims since, still refers to a valid
    object after the override, the object it referred to before. *)
Theorem override_is_what_lookups_return
    (o : override_slot) (x : handle) (rt : platform) (p p1 : process) :
  indexed (slot_of o) →
  set_default o (Some x) rt p = (Ret tt, p1) →
  slot_holds (slot_of o) x p1 ∧
  (∀ cs rt', Forall (spares (slot_of o)) cs →
     ∃ p3, share_default (slot_of o) rt' (run_calls cs p1) = (Ret (Some x), p3)) ∧
  mem p1 = sp_release (slot_value (slot_of o) p) (mem p) ∧
  (∀ a, (∀ x0, slot_value (slot_of o) p = Some x0 →
               a ≠ mr_addr (get x0) ∧ a ∉ map mr_addr (kept x0)) →
        mem p1 !! a = mem p !! a) ∧
  (∀ x0, slot_value (slot_of o) p = Some x0 →
         shared (mem p) (mr_addr (get x0)) → alive (mem p1) (mr_addr (get x0))) ∧
  (∀ rt0 p0 x0 pa cs,
     held_alive p0 → statics_typed p0 →
     share_default (slot_of o) rt0 p0 = (Ret (Some x0), pa) →
     p = run_lookups cs pa →
     shared (mem p) (mr_addr (get x0)) ∧ alive (mem p1) (mr_addr (get x0))).
Proof.
  intros Hi E. destruct (set_default_result o (Some x) rt p p1 Hi E) as (Hv & Hlt & Hmem).
  assert (slot_holds (slot_of o) x p1) as Hx.
  { split; [done|]. by destruct o. }
  split_and!; [done| |done| | |].
  - intros cs rt' Hcs. eexists. apply share_default_populated; [done|].
    by apply run_calls_spare.
  - intros a Ha. rewrite Hmem. by apply sp_release_other.
  - intros x0 Hx0 Hs. rewrite Hmem, Hx0. by apply alive_release_shared.
  - intros rt0 p0 x0 pa cs Hheld Htyped E0 ->.
    pose proof (share_default_shared _ rt0 p0 x0 pa Hi Hheld Htyped E0) as Hs.
    apply (shared_keeps_owners _ _ _ (run_lookups_keep_owners cs pa)) in Hs.
    split; [done|].
    destruct (share_default_result _ rt0 p0 _ pa Hi E0) as (? & [= <-] & Hx0).
    destruct (run_lookups_keep_slot _ _ cs pa Hx0) as [Hx0' _].
    rewrite Hmem, Hx0'. by apply alive_release_shared.
Qed.

Lemma override_is_what_lookups_return_witness :
  ∃ pa p1 p3,
    share_default (device_slot 1) two_devices process_with_device_0
      = (Ret (Some device_1_pool), pa) ∧
    set_default (override_device 1) (Some device_0_pool) two_devices
      (run_lookups [(two_devices, call_share memory_kind.pinned)] pa) = (Ret tt, p1) ∧
    share_default (device_slot 1) two_devices
      (run_calls [(two_devices, do_lookup call_release_unused);
                  (two_devices, do_override override_host None);
                  (two_devices, do_override (override_device 0) None)] p1)
      = (Ret (Some device_0_pool), p3) ∧
    alive (mem p1) 3%nat.
Proof.
  destruct (share_default (device_slot 1) two_devices process_with_device_0)
    as [r pa] eqn:E0.
  assert (r = Ret (Some device_1_pool)) as -> by (vm_compute in E0; by simplify_eq).
  destruct (set_default (override_device 1) (Some device_0_pool) two_devices
              (run_lookups [(two_devices, call_share memory_kind.pinned)] pa))
    as [r1 p1] eqn:E1.
  assert (r1 = Ret tt) as ->.
  { vm_compute in E0. simplify_eq. vm_compute in E1. by simplify_eq. }
  destruct (override_is_what_lookups_return (override_device 1) device_0_pool
              two_devices
              (run_lookups [(two_devices, call_share memory_kind.pinned)] pa) p1)
    as (_ & Hlater & _ & _ & _ & Hbefore); [simpl; lia | exact E1 |].
  destruct (Hlater [(two_devices, do_lookup call_release_unused);
                    (two_devices, do_override override_host None);
                    (two_devices, do_override (override_device 0) None)] two_devices)
    as [p3 Hagain].
  { repeat first [apply Forall_nil_2 | apply Forall_cons_2]; by simpl. }
  destruct (Hbefore two_devices process_with_device_0 device_1_pool pa
              [(two_devices, call_share memory_kind.pinned)]
              process_with_device_0_held_alive
              (reachable_typed _ process_with_device_0_reachable) E0 eq_refl)
    as [_ Halive].
  by exists pa, p1, p3.
Defined.

(** C3 as stated fails for the empty handle: the override stores it, the
    slot is then empty, and the next lookup constructs the default
    allocator and returns that, not the handle of the override. *)
Lemma empty_override_is_not_returned :
  ∃ p1 x p2,
    set_default override_host None two_devices initial_process = (Ret tt, p1) ∧
    share_default host_slot two_devices p1 = (Ret (Some x), p2) ∧
    Some x ≠ (None : shared_ptr).
Proof. eexists _, _, _. split; [reflexivity|]. split; [reflexivity|done]. Qed.
